(** * cilkhilite: the Cilk-book Pygments plugin

    A shallow embedding of the parts of [cilkhilite] that carry its
    book-authoring overlay:

    - [cilkformatter.py]: [escape_tex] and the token loop of
      [CilkBookFormatter.format_unencoded];
    - [chrtfformatter.py]: [CHRtfFormatter._escape], [_escape_text] and the
      token loop of [CHRtfFormatter.format_unencoded];
    - [cilklexer.py]: the classifier callbacks of [CilkLexer], the class
      attributes [_custom_types] and [_custom_keywords] they mutate, and, of
      the ['whitespace'] state, the [#line] rule and the rules of the
      comments that start with three slashes.

    Text is the unicode text that the lexers yield, modelled as [string]
    over the characters up to U+00FF; a token category is the tuple of
    names Pygments uses for it; the Pygments framework itself (the style
    class, the table [STANDARD_TYPES], the regular-expression engine,
    the encodings) is modelled by the small interfaces the plugin calls.
    [outfile] takes any text, as a [StringIO] does: [outfile.write] does
    not raise. *)

From Stdlib Require Import Ascii.
From stdpp Require Import base strings list gmap pretty.

Notation "x |> f" := (f x) (at level 71, left associativity, only parsing).

(** ** Python string primitives *)

Module Py.

Definition nl : ascii := "010"%char.
Definition tab : ascii := "009"%char.
Definition vt : ascii := "011"%char.
Definition ff : ascii := "012"%char.
Definition cr : ascii := "013"%char.

(** [ord(c)] *)
Definition ord (c : ascii) : nat := nat_of_ascii c.

(** [c in s] for a single character [c]. *)
Fixpoint occurs (c : ascii) (s : string) : bool :=
  match s with
  | "" => false
  | String d s' => Ascii.eqb d c || occurs c s'
  end.

(** [all(p(c) for c in s)] *)
Fixpoint all (p : ascii → bool) (s : string) : bool :=
  match s with
  | "" => true
  | String c s' => p c && all p s'
  end.

(** [s.replace(old, new)] where [old] is one character: every occurrence,
    left to right. *)
Fixpoint replace (old : ascii) (new : string) (s : string) : string :=
  match s with
  | "" => ""
  | String c s' =>
      (if Ascii.eqb c old then new else String c "") +:+ replace old new s'
  end.

(** [s.split(sep)] where [sep] is one character; the result is never
    empty. *)
Fixpoint split (sep : ascii) (s : string) : list string :=
  match s with
  | "" => [""]
  | String c s' =>
      if Ascii.eqb c sep then "" :: split sep s'
      else match split sep s' with
           | [] => [String c ""]
           | w :: ws => String c w :: ws
           end
  end.

(** [sep.join(l)] *)
Fixpoint join (sep : string) (l : list string) : string :=
  match l with
  | [] => ""
  | [x] => x
  | x :: l' => x +:+ sep +:+ join sep l'
  end.

(** [''.join(l)] *)
Fixpoint concat (l : list string) : string :=
  match l with
  | [] => ""
  | x :: l' => x +:+ concat l'
  end.

(** [s[n:]] *)
Fixpoint drop (n : nat) (s : string) : string :=
  match n, s with
  | O, _ => s
  | S n', String _ s' => drop n' s'
  | S _, "" => ""
  end.

(** [s.startswith(p)] *)
Fixpoint startswith (p s : string) : bool :=
  match p, s with
  | "", _ => true
  | String a p', String b s' => Ascii.eqb a b && startswith p' s'
  | String _ _, "" => false
  end.

(** The longest prefix of [s] whose characters satisfy [p], and the rest:
    what [re.match('^[...]*', s)] consumes for a character class. *)
Fixpoint span (p : ascii → bool) (s : string) : string * string :=
  match s with
  | "" => ("", "")
  | String c s' =>
      if p c then let '(a, b) := span p s' in (String c a, b)
      else ("", s)
  end.

(** [''.join(re.findall(c, s))] for a single character [c] *)
Fixpoint only (c : ascii) (s : string) : string :=
  match s with
  | "" => ""
  | String d s' => if Ascii.eqb d c then String d (only c s') else only c s'
  end.

(** [''.join(f(c) for c in s)] *)
Fixpoint flat_map (f : ascii → string) (s : string) : string :=
  match s with
  | "" => ""
  | String c s' => f c +:+ flat_map f s'
  end.

Definition hexdigit (n : nat) : string :=
  String (default "0"%char (String.get n "0123456789abcdef")) "".

(** ['%x' % n] for [n < 256] *)
Definition hex (n : nat) : string :=
  (if n / 16 =? 0 then "" else hexdigit (n / 16)) +:+ hexdigit (n mod 16).

Definition hexval (c : ascii) : option nat :=
  let n := nat_of_ascii c in
  if (48 <=? n) && (n <=? 57) then Some (n - 48)
  else if (97 <=? n) && (n <=? 102) then Some (n - 87)
  else if (65 <=? n) && (n <=? 70) then Some (n - 55)
  else None.

(** [int(s, 16)] for a string of hexadecimal digits; [None] stands for
    [ValueError]. *)
Fixpoint int16_go (acc : nat) (s : string) : option nat :=
  match s with
  | "" => Some acc
  | String c s' => d ← hexval c; int16_go (16 * acc + d) s'
  end.
Definition int16 (s : string) : option nat :=
  match s with "" => None | _ => int16_go 0 s end.

(** [s[i:j]] for [i <= j] *)
Definition slice (i j : nat) (s : string) : string :=
  String.substring i (j - i) s.

(** [unicode.isspace] on the Latin-1 range. *)
Definition isspace (c : ascii) : bool :=
  let n := ord c in
  ((9 <=? n) && (n <=? 13)) || ((28 <=? n) && (n <=? 32))
  || (n =? 133) || (n =? 160).

Fixpoint lstrip (s : string) : string :=
  match s with
  | "" => ""
  | String c s' => if isspace c then lstrip s' else s
  end.

Definition rstrip (s : string) : string :=
  String.rev (lstrip (String.rev s)).

(** [s.strip()] *)
Definition strip (s : string) : string := rstrip (lstrip s).

(** [[a-zA-Z]] *)
Definition isletter (c : ascii) : bool :=
  let n := ord c in
  ((65 <=? n) && (n <=? 90)) || ((97 <=? n) && (n <=? 122)).

(** The double quote, which a string literal cannot hold. *)
Definition dquote : ascii := "034"%char.

End Py.

(** ** Token categories (pygments.token)

    A category is the tuple of names on the path from the root [Token]:
    [Token.Comment.Invisible.Begin] is [["Comment"; "Invisible"; "Begin"]].
    Categories are interned, so [is] is equality. *)

Module Token.

Definition ttype := list string.

Definition Token : ttype := [].
Definition Text : ttype := ["Text"].
Definition Error : ttype := ["Error"].
Definition Name : ttype := ["Name"].
Definition Name_Variable : ttype := ["Name"; "Variable"].
Definition Name_Function : ttype := ["Name"; "Function"].
Definition Name_Namespace : ttype := ["Name"; "Namespace"].
Definition Name_Class : ttype := ["Name"; "Class"].
Definition Keyword : ttype := ["Keyword"].
Definition Keyword_Type : ttype := ["Keyword"; "Type"].
Definition Keyword_Custom : ttype := ["Keyword"; "Custom"].
Definition Comment : ttype := ["Comment"].
Definition Comment_Preproc : ttype := ["Comment"; "Preproc"].
Definition Comment_PureTeX : ttype := ["Comment"; "PureTeX"].
Definition Comment_Invisible : ttype := ["Comment"; "Invisible"].
Definition Comment_Invisible_Begin : ttype :=
  ["Comment"; "Invisible"; "Begin"].
Definition Comment_Invisible_End : ttype :=
  ["Comment"; "Invisible"; "End"].

(** [val in self]: [val] is [self] or one of its descendants. *)
Definition contains (self val : ttype) : bool :=
  bool_decide (self `prefix_of` val).

(** [a is b] *)
Definition is_ (a b : ttype) : bool := bool_decide (a = b).

(** [ttype.parent] *)
Definition parent (t : ttype) : ttype := removelast t.

(** The categories [t], [t.parent], ... below the root, listed from the
    one nearest the root down to [t]: the order of [reversed(styles)]
    after the loop [while ttype is not Token: ...; ttype = ttype.parent]. *)
Fixpoint lineage (t : ttype) : list ttype :=
  match t with
  | [] => []
  | x :: t' => [x] :: map (cons x) (lineage t')
  end.

(** A token of the stream: [(ttype, value)]. *)
Abbreviation token := (ttype * string)%type (only parsing).

End Token.

Notation "v '∈t' T" := (Token.contains T v = true) (at level 70).

(** ** Escaping *)

(** [escape_tex(text, commandprefix)] of cilkformatter.py. *)
Definition escape_tex (text commandprefix : string) : string :=
  let cmd (z : string) := "\" +:+ commandprefix +:+ z +:+ "{}" in
  text
  |> Py.replace "\" (String "000" "")
  |> Py.replace "{" (String "001" "")
  |> Py.replace "}" (String "002" "")
  |> Py.replace "000" (cmd "Zbs")
  |> Py.replace "001" (cmd "Zob")
  |> Py.replace "002" (cmd "Zcb")
  |> Py.replace "^" (cmd "Zca")
  |> Py.replace "_" (cmd "Zus")
  |> Py.replace "&" (cmd "Zam")
  |> Py.replace "<" (cmd "Zlt")
  |> Py.replace ">" (cmd "Zgt")
  |> Py.replace "#" (cmd "Zsh")
  |> Py.replace "%" (cmd "Zpc")
  |> Py.replace "$" (cmd "Zdl")
  |> Py.replace "-" (cmd "Zhy")
  |> Py.replace "'" (cmd "Zsq")
  |> Py.replace Py.dquote (cmd "Zdq")
  |> Py.replace "~" (cmd "Zti").

(** The character macros that [STYLE_TEMPLATE] defines for a command prefix:
    [\def\%(cp)sZbs{\char`\\}] and so on; the name without the prefix, and
    the character the macro typesets. *)
Definition STYLE_TEMPLATE_chars : list (string * ascii) :=
  [ ("Zbs", "\"%char); ("Zus", "_"%char); ("Zob", "{"%char);
    ("Zcb", "}"%char); ("Zca", "^"%char); ("Zam", "&"%char);
    ("Zlt", "<"%char); ("Zgt", ">"%char); ("Zsh", "#"%char);
    ("Zpc", "%"%char); ("Zdl", "$"%char); ("Zhy", "-"%char);
    ("Zsq", "'"%char); ("Zdq", Py.dquote); ("Zti", "~"%char);
    ("Zat", "@"%char); ("Zlb", "["%char); ("Zrb", "]"%char) ].

(** The characters [escape_tex] has a replacement for. *)
Definition tex_special (c : ascii) : bool :=
  existsb (Ascii.eqb c)
    ["\"; "{"; "}"; "^"; "_"; "&"; "<"; ">"; "#"; "%"; "$"; "-"; "'";
     Py.dquote; "~"]%char.

(** The characters [escape_tex] uses as placeholders. *)
Definition tex_placeholder (c : ascii) : bool :=
  existsb (Ascii.eqb c) ["000"; "001"; "002"]%char.

(** [s] without the prefix [p], when it has it. *)
Fixpoint strip_prefix (p s : string) : option string :=
  match p, s with
  | "", _ => Some s
  | String a p', String b s' =>
      if Ascii.eqb a b then strip_prefix p' s' else None
  | String _ _, "" => None
  end.

(** The character that the macro called [name] typesets. *)
Definition macro_char (commandprefix name : string) : option ascii :=
  z ← strip_prefix commandprefix name;
  snd <$> find (λ e, String.eqb e.1 z) STYLE_TEMPLATE_chars.

(** How LaTeX reads the escaped text back inside the [Verbatim] environment
    with [commandchars=\\\{\}]: a backslash starts a control word, the
    longest run of letters; the empty group that follows ends it; every
    other character is itself. *)
Inductive tex_mode :=
  | TexPlain
  | TexName (acc : string)
  | TexGroup.

Fixpoint tex_read (commandprefix : string) (mode : tex_mode) (s : string)
  : option string :=
  match s with
  | "" => match mode with TexPlain => Some "" | _ => None end
  | String c s' =>
      match mode with
      | TexPlain =>
          if Ascii.eqb c "\" then tex_read commandprefix (TexName "") s'
          else String c <$> tex_read commandprefix TexPlain s'
      | TexName acc =>
          if Py.isletter c
          then tex_read commandprefix (TexName (acc +:+ String c "")) s'
          else if Ascii.eqb c "{" then
            x ← macro_char commandprefix acc;
            String x <$> tex_read commandprefix TexGroup s'
          else None
      | TexGroup =>
          if Ascii.eqb c "}" then tex_read commandprefix TexPlain s'
          else None
      end
  end.

Definition unescape_tex (commandprefix s : string) : option string :=
  tex_read commandprefix TexPlain s.

(** [CHRtfFormatter._escape(text)] of chrtfformatter.py. *)
Definition _escape (text : string) : string :=
  text
  |> Py.replace "\" "\\"
  |> Py.replace "{" "\{"
  |> Py.replace "}" "\}".

(** The characters [_escape] has a replacement for. *)
Definition rtf_special (c : ascii) : bool :=
  existsb (Ascii.eqb c) ["\"; "{"; "}"]%char.

(** How an RTF reader reads the escaped text back: a backslash followed by a
    backslash or a brace is that character. *)
Fixpoint rtf_read (escaped : bool) (s : string) : option string :=
  match s with
  | "" => if escaped then None else Some ""
  | String c s' =>
      if escaped then
        if rtf_special c then String c <$> rtf_read false s' else None
      else if Ascii.eqb c "\" then rtf_read true s'
      else String c <$> rtf_read false s'
  end.

Definition unescape_rtf (s : string) : option string := rtf_read false s.

(** What [escape_tex] writes for one character. *)
Definition tex_repl (cp : string) (c : ascii) : string :=
  match find (λ e, Ascii.eqb e.2 c)
          (("Zbs", "000"%char) :: ("Zob", "001"%char)
             :: ("Zcb", "002"%char) :: take 15 STYLE_TEMPLATE_chars) with
  | Some e => "\" +:+ cp +:+ e.1 +:+ "{}"
  | None => String c ""
  end.

(** What [_escape] writes for one character. *)
Definition rtf_repl (c : ascii) : string :=
  if rtf_special c then String "\" (String c "") else String c "".


(** ** The LaTeX formatter (cilkformatter.py) *)

Module CilkBookFormatter.
Import Token.

(** The attributes that [__init__] sets and the token loop reads;
    [ttype2name] is filled by [_create_stylesheet]. *)
Record formatter := {
  linenos : bool;
  linenostart : nat;
  linenostep : nat;
  verbenvironment : string;
  saveverbatimname : string;
  verboptions : string;
  commandprefix : string;
  texcomments : bool;
  mathescape : bool;
  inline : bool;
  hidebydefault : bool;
  reindent : bool;
  ttype2name : gmap ttype string;
}.

(** The local variables of the token loop of [format_unencoded]. *)
Record state := {
  skiptoken : bool;
  initialindent : string;
  find_next_indent : bool;
  newline : bool;
  wrotelines : bool;
}.

Definition set_skiptoken (b : bool) (st : state) : state :=
  {| skiptoken := b; initialindent := initialindent st;
     find_next_indent := find_next_indent st; newline := newline st;
     wrotelines := wrotelines st |}.
Definition set_initialindent (s : string) (st : state) : state :=
  {| skiptoken := skiptoken st; initialindent := s;
     find_next_indent := find_next_indent st; newline := newline st;
     wrotelines := wrotelines st |}.
Definition set_find_next_indent (b : bool) (st : state) : state :=
  {| skiptoken := skiptoken st; initialindent := initialindent st;
     find_next_indent := b; newline := newline st;
     wrotelines := wrotelines st |}.
Definition set_newline (b : bool) (st : state) : state :=
  {| skiptoken := skiptoken st; initialindent := initialindent st;
     find_next_indent := find_next_indent st; newline := b;
     wrotelines := wrotelines st |}.
Definition set_wrotelines (b : bool) (st : state) : state :=
  {| skiptoken := skiptoken st; initialindent := initialindent st;
     find_next_indent := find_next_indent st; newline := newline st;
     wrotelines := b |}.

(** [[ \t\f\v]] *)
Definition hspace (c : ascii) : bool :=
  existsb (Ascii.eqb c) [" "%char; Py.tab; Py.ff; Py.vt].

(** [re.match(r'^[ \t\f\v]+', value)]: the group and [value[m.end():]]. *)
Definition match_indent (value : string) : option (string * string) :=
  let '(run, rest) := Py.span hspace value in
  if String.eqb run "" then None else Some (run, rest).

(** [re.match(r'^\n+', value)] *)
Definition match_newlines (value : string) : option (string * string) :=
  let '(run, rest) := Py.span (Ascii.eqb Py.nl) value in
  if String.eqb run "" then None else Some (run, rest).

(** [re.match('^(' + initialindent + ')', line)] followed by
    [line = line[indent_match.end():]] when it matches.  [initialindent]
    is only ever [''] or a run of [[ \t\f\v]], none of which is special in
    a pattern, so the match is a literal prefix test. *)
Definition strip_indent (initialindent line : string) : string :=
  if Py.startswith initialindent line
  then Py.drop (String.length initialindent) line
  else line.

(** The run of newline characters that [value] starts with. *)
Definition leading_newlines (value : string) : string :=
  (Py.span (Ascii.eqb Py.nl) value).1.

Section loop.
(** [pygments.token.STANDARD_TYPES], whose entry for the root [Token]
    is ['']. *)
Context (STANDARD_TYPES : gmap ttype string).
Context (self : formatter).

Definition standard_type (t : ttype) : option string :=
  match t with [] => Some "" | _ => STANDARD_TYPES !! t end.

(** The loop [while fname is None] of [_get_ttype_name]. *)
Fixpoint get_ttype_name_loop (fuel : nat) (t : ttype) (aname : string)
  : string :=
  match fuel with
  | O => aname
  | S fuel' =>
      let aname := default "" (last t) +:+ aname in
      let t := parent t in
      match standard_type t with
      | Some fname => fname +:+ aname
      | None => get_ttype_name_loop fuel' t aname
      end
  end.

Definition _get_ttype_name (t : ttype) : string :=
  match standard_type t with
  | Some fname => fname
  | None => get_ttype_name_loop (length t) t ""
  end.

(** [t2n[ttype]], or [_get_ttype_name(ttype)] on [KeyError]. *)
Definition style_name (t : ttype) : string :=
  match ttype2name self !! t with
  | Some name => name
  | None => _get_ttype_name t
  end.

(** [styleval = '+'.join(reversed(styles))] *)
Definition styleval (t : ttype) : string :=
  Py.join "+" (style_name <$> lineage t).

Definition escape (s : string) : string :=
  escape_tex s (commandprefix self).

(** The part of the loop body under [if reindent:]; returns the state,
    what is left of [value], and what was written. *)
Definition reindent_head (st : state) (t : ttype) (value : string)
  : state * string * string :=
  let '(st, value) :=
    if find_next_indent st then
      let '(st, value) :=
        if is_ t Text then
          match match_indent value with
          | Some (indent, rest) => (set_initialindent indent st, rest)
          | None => (st, value)
          end
        else (st, value) in
      (set_newline false (set_find_next_indent false st), value)
    else (st, value) in
  match match_newlines value with
  | Some (nls, rest) => (set_newline true st, rest, nls)
  | None =>
      if newline st then
        let value :=
          if is_ t Text then strip_indent (initialindent st) value
          else value in
        (set_newline false st, value, "")
      else (st, value, "")
  end.

(** The branch [elif self.texcomments]: the comment's starting lexeme
    is escaped, the rest is not. *)
Definition escape_texcomment (value : string) : string :=
  let start :=
    match value with
    | "" => ""
    | String c rest => String c (Py.span (Ascii.eqb c) rest).1
    end in
  escape start +:+ Py.drop (String.length start) value.

(** The branch [elif self.mathescape]: the parts outside [$...$] are
    escaped. *)
Fixpoint escape_parts (in_math : bool) (parts : list string)
  : list string :=
  match parts with
  | [] => []
  | part :: parts' =>
      (if in_math then part else escape part)
        :: escape_parts (negb in_math) parts'
  end.

Definition escape_mathcomment (value : string) : string :=
  Py.join "$" (escape_parts false (Py.split "$" value)).

(** ["\\%s{%s}{%s}" % (cp, styleval, line)] *)
Definition styled (sv line : string) : string :=
  "\" +:+ commandprefix self +:+ "{" +:+ sv +:+ "}{" +:+ line +:+ "}".

(** The loop over [spl] when [styleval] is not empty. *)
Fixpoint write_styled (sv : string) (spl : list string) (st : state)
  : state * string :=
  match spl with
  | [] => (st, "")
  | [line] =>
      if String.eqb line "" then (st, "")
      else (set_wrotelines true st, styled sv line)
  | line :: spl' =>
      let out := (if String.eqb line "" then "" else styled sv line)
                   +:+ String Py.nl "" in
      let '(st', out') :=
        write_styled sv spl' (set_wrotelines true (set_newline true st)) in
      (st', out +:+ out')
  end.

(** The loop over [spl] when [styleval] is empty. *)
Fixpoint write_plain (spl : list string) (st : state) : state * string :=
  let unindent (line : string) :=
    if reindent self && newline st
    then strip_indent (initialindent st) line else line in
  match spl with
  | [] => (st, "")
  | [line] =>
      if String.eqb line "" then (st, "")
      else (set_newline false (set_wrotelines true st), unindent line)
  | line :: spl' =>
      let out := (if String.eqb line "" then "" else unindent line)
                   +:+ String Py.nl "" in
      let '(st', out') :=
        write_plain spl' (set_wrotelines true (set_newline true st)) in
      (st', out +:+ out')
  end.

(** One iteration of [for ttype, value in tokensource]: the state after
    it and the text it writes to [outfile]. *)
Definition step (st : state) (tok : token) : state * string :=
  let '(t, value) := tok in
  if contains Comment_Invisible_End t then (set_skiptoken false st, "")
  else if contains Comment_Invisible_Begin t
  then (set_skiptoken true st, "")
  else if skiptoken st then (st, "")
  else
    let '(st, value, head) :=
      if reindent self then reindent_head st t value
      else (st, value, "") in
    let in_comment := contains Comment t && negb (contains Comment_PureTeX t) in
    if in_comment && contains Comment_Invisible t then (st, head)
    else
      let value :=
        if in_comment then
          if texcomments self then escape_texcomment value
          else if mathescape self then escape_mathcomment value
          else escape value
        else if negb (contains Comment_PureTeX t) then escape value
        else value in
      let sv := styleval t in
      let '(st, body) :=
        if String.eqb sv "" then write_plain (Py.split Py.nl value) st
        else write_styled sv (Py.split Py.nl value) st in
      (st, head +:+ body).

(** The loop: the final state and what each token wrote. *)
Fixpoint run (st : state) (tokensource : list token)
  : state * list string :=
  match tokensource with
  | [] => (st, [])
  | tok :: rest =>
      let '(st1, out) := step st tok in
      let '(st2, outs) := run st1 rest in
      (st2, out :: outs)
  end.

Definition initial : state :=
  {| skiptoken := hidebydefault self; initialindent := "";
     find_next_indent := reindent self; newline := false;
     wrotelines := false |}.

(** What is written before the loop unless [inline] is set. *)
Definition header : string :=
  if inline self then ""
  else
    "\begin{" +:+ verbenvironment self +:+ "}[commandchars=\\\{\}"
    +:+ (if linenos self then
           ",numbers=left"
           +:+ (if bool_decide (linenostart self = 0) then ""
                else ",firstnumber=" +:+ pretty (linenostart self))
           +:+ (if bool_decide (linenostep self = 0) then ""
                else ",stepnumber=" +:+ pretty (linenostep self))
         else "")
    +:+ (if mathescape self || texcomments self
         then ",codes={\catcode`\$=3\catcode`\^=7\catcode`\_=8}" else "")
    +:+ (if String.eqb (verboptions self) "" then ""
         else "," +:+ verboptions self)
    +:+ "]"
    +:+ (if String.eqb (saveverbatimname self) "" then ""
         else "{" +:+ saveverbatimname self +:+ "}")
    +:+ String Py.nl "".

(** What is written after the loop unless [inline] is set. *)
Definition footer (st : state) : string :=
  if inline self then ""
  else
    (if wrotelines st then "" else String Py.nl "")
    +:+ "\end{" +:+ verbenvironment self +:+ "}" +:+ String Py.nl "".

(** [format_unencoded(tokensource, outfile)] without [full]: the text
    written to [outfile]. *)
Definition format_unencoded (tokensource : list token) : string :=
  let '(st, outs) := run initial tokensource in
  header +:+ Py.concat outs +:+ footer st.

End loop.

End CilkBookFormatter.

(** ** The RTF formatter (chrtfformatter.py) *)

Module CHRtfFormatter.
Import Token.

(** The dictionary that [Style.style_for_token] returns; a colour is a
    string of six hexadecimal digits, or [None]. *)
Record styledef := {
  color : option string;
  bgcolor : option string;
  border : option string;
  bold : bool;
  italic : bool;
  underline : bool;
}.

(** The attributes that the token loop reads.  [style] is the table
    [_styles] of the style class, in iteration order: [styles_token] is
    membership in it, [style_for_token] the lookup and iterating the
    style walks it.  [encoding] is the attribute of that name, [None] or
    a name.  [codecs] stands for the encodings that Python knows by
    name: [codecs name = Some enc] when there is one of that name,
    [enc c] being the bytes of [c.encode(name, 'ignore')], none when the
    encoding has no such character and more than one in a multi-byte
    encoding; [codecs name = None] when Python knows no encoding of that
    name, so that [encode] raises [LookupError]. *)
Record formatter := {
  fontface : string;
  hidebydefault : bool;
  reindent : bool;
  style : list (ttype * styledef);
  encoding : option string;
  codecs : string → option (ascii → string);
}.

(** The encoding that [_escape_text] settles on: Latin-9 for the three
    Unicode encodings and when [self.encoding] is [None] or [''], else
    [self.encoding]. *)
Definition codec (self : formatter) : option (ascii → string) :=
  let encoding :=
    match encoding self with
    | Some name =>
        if existsb (String.eqb name) ["utf-8"; "utf-16"; "utf-32"]
        then "iso-8859-15"
        else if String.eqb name "" then "iso-8859-15" else name
    | None => "iso-8859-15"
    end in
  codecs self encoding.

Record state := {
  skiptoken : bool;
  initialindent : string;
  find_next_indent : bool;
  newline : bool;
}.

Definition set_skiptoken (b : bool) (st : state) : state :=
  {| skiptoken := b; initialindent := initialindent st;
     find_next_indent := find_next_indent st; newline := newline st |}.
Definition set_initialindent (s : string) (st : state) : state :=
  {| skiptoken := skiptoken st; initialindent := s;
     find_next_indent := find_next_indent st; newline := newline st |}.
Definition set_find_next_indent (b : bool) (st : state) : state :=
  {| skiptoken := skiptoken st; initialindent := initialindent st;
     find_next_indent := b; newline := newline st |}.
Definition set_newline (b : bool) (st : state) : state :=
  {| skiptoken := skiptoken st; initialindent := initialindent st;
     find_next_indent := find_next_indent st; newline := b |}.

Definition match_indent := CilkBookFormatter.match_indent.
Definition match_newlines := CilkBookFormatter.match_newlines.
Definition strip_indent := CilkBookFormatter.strip_indent.

(** A colour is used when it is neither [None] nor ['']. *)
Definition used (c : option string) : option string :=
  match c with
  | Some (String _ _ as s) => Some s
  | _ => None
  end.

Section loop.
Context (self : formatter).

(** [self.style.styles_token(ttype)] *)
Definition styles_token (t : ttype) : bool :=
  bool_decide (t ∈ (style self).*1).

(** [self.style.style_for_token(ttype)]; [None] stands for
    [KeyError]. *)
Definition style_for_token (t : ttype) : option styledef :=
  snd <$> find (λ e, bool_decide (e.1 = t)) (style self).

(** The body of the loop [for c in text] of [_escape_text]: what is
    appended to [buf] for the character [c] of a unicode text, or [None]
    when the body raises.  It raises on the character 128, which the test
    [ord(c) > 128] sends to [str(c)] ([UnicodeEncodeError]); on a
    character above 128 when the encoding is unknown ([LookupError]) or
    gives it more than one byte ([ord(ansic)] raises [TypeError]). *)
Definition escape_text_char (c : ascii) : option string :=
  if 128 <? Py.ord c then
    enc ← codec self;
    let ansic := if String.eqb (enc c) "" then "?" else enc c in
    match ansic with
    | String b "" =>
        let ansic :=
          if 128 <? Py.ord b then "\'" +:+ Py.hex (Py.ord b)
          else String c "" in
        Some ("\ud{\u" +:+ pretty (Py.ord c) +:+ ansic +:+ "}")
    | _ => None
    end
  else if Py.ord c =? 128 then None
  else Some (String c "").

(** The loop [for c in text] and [''.join(buf)]. *)
Fixpoint escape_text_chars (text : string) : option string :=
  match text with
  | "" => Some ""
  | String c text' =>
      x ← escape_text_char c;
      y ← escape_text_chars text';
      Some (x +:+ y)
  end.

(** [_escape_text(text)]; [None] when it raises. *)
Definition _escape_text (text : string) : option string :=
  if String.eqb text "" then Some ""
  else
    buf ← escape_text_chars (_escape text);
    Some (Py.replace Py.nl ("\par" +:+ String Py.nl "") buf).

(** ** The header: the font table and the colour table *)

(** [r'\red%d\green%d\blue%d;' % (int(color[0:2], 16), ...)] *)
Definition color_entry (c : string) : option string :=
  r ← Py.int16 (Py.slice 0 2 c);
  g ← Py.int16 (Py.slice 2 4 c);
  b ← Py.int16 (Py.slice 4 6 c);
  Some ("\red" +:+ pretty r +:+ "\green" +:+ pretty g
          +:+ "\blue" +:+ pretty b +:+ ";").

(** The loop body [if color and color not in color_mapping: ...]; the
    accumulator is [color_mapping], [offset] and the text written. *)
Definition add_color (acc : option (gmap string nat * nat * string))
    (c : option string) : option (gmap string nat * nat * string) :=
  '(color_mapping, offset, out) ← acc;
  match used c with
  | None => Some (color_mapping, offset, out)
  | Some c =>
      match color_mapping !! c with
      | Some _ => Some (color_mapping, offset, out)
      | None =>
          e ← color_entry c;
          Some (<[c := offset]> color_mapping, S offset, out +:+ e)
      end
  end.

Definition color_table : option (gmap string nat * nat * string) :=
  foldl (λ acc e, foldl add_color acc
                    [color e.2; bgcolor e.2; border e.2])
    (Some (∅, 1, "")) (style self).

Definition header (table : string) : string :=
  "{\rtf1\ansi\deff0{\fonttbl{\f0\fmodern\fprq1\fcharset0"
  +:+ (if String.eqb (fontface self) "" then ""
       else " " +:+ _escape (fontface self))
  +:+ ";}}{\colortbl;" +:+ table +:+ "}\f0".

(** ** The token loop *)

Context (color_mapping : gmap string nat).

(** The part of the loop body under [if reindent:]: the state, what is
    left of [value], and what was written, [None] when [_escape_text]
    raised, in which case the state is of no use. *)
Definition reindent_head (st : state) (t : ttype) (value : string)
  : state * string * option string :=
  let '(st, value) :=
    if find_next_indent st then
      let '(st, value) :=
        if is_ t Text then
          match match_indent value with
          | Some (indent, rest) => (set_initialindent indent st, rest)
          | None => (st, value)
          end
        else (st, value) in
      (set_newline false (set_find_next_indent false st), value)
    else (st, value) in
  match match_newlines value with
  | Some (nls, rest) => (set_newline true st, rest, _escape_text nls)
  | None =>
      if newline st then
        let value :=
          if is_ t Text then strip_indent (initialindent st) value
          else value in
        (set_newline false st, value, Some "")
      else (st, value, Some "")
  end.

(** [while not self.style.styles_token(ttype) and ttype.parent:
    ttype = ttype.parent].  The root [Token] is the empty tuple, which
    is false, and the root has no parent. *)
Fixpoint resolve (fuel : nat) (t : ttype) : ttype :=
  match fuel with
  | O => t
  | S fuel' =>
      if negb (styles_token t) && negb (is_ (parent t) Token)
      then resolve fuel' (parent t) else t
  end.

(** [''.join(buf)] for the control words of a style. *)
Definition control_words (sd : styledef) : option string :=
  let word (w : string) (c : option string) : option string :=
    match used c with
    | None => Some ""
    | Some c => n ← color_mapping !! c; Some (w +:+ pretty n)
    end in
  cb ← word "\cb" (bgcolor sd);
  cf ← word "\cf" (color sd);
  br ← word "\chbrdr\chcfpat" (border sd);
  Some (cb +:+ cf +:+ (if bold sd then "\b" else "")
          +:+ (if italic sd then "\i" else "")
          +:+ (if underline sd then "\ul" else "") +:+ br).

(** The loop over [spl]: the state after it, [None] when a call of
    [_escape_text] raised, and what was written, up to that call. *)
Fixpoint write_lines (spl : list string) (st : state)
  : option state * string :=
  let unindent (line : string) :=
    if reindent self && newline st
    then strip_indent (initialindent st) line else line in
  match spl with
  | [] => (Some st, "")
  | [line] =>
      if String.eqb line "" then (Some st, "")
      else
        match _escape_text (unindent line) with
        | Some out => (Some (set_newline false st), out)
        | None => (None, "")
        end
  | line :: spl' =>
      match (if String.eqb line "" then Some ""
             else _escape_text (unindent line)) with
      | None => (None, "")
      | Some out =>
          match _escape_text (String Py.nl "") with
          | None => (None, out)
          | Some par =>
              let '(r, out') := write_lines spl' (set_newline true st) in
              (r, (out +:+ par) +:+ out')
          end
      end
  end.

(** One iteration of [for ttype, value in tokensource]: the text it
    writes and the state after it, or [None] when a style lookup raises
    [KeyError] or [_escape_text] raises; what was written before stays
    written. *)
Definition step (st : state) (tok : token) : string * option state :=
  let '(t, value) := tok in
  if contains Comment_Invisible_End t
  then ("", Some (set_skiptoken false st))
  else if contains Comment_Invisible_Begin t
  then ("", Some (set_skiptoken true st))
  else if skiptoken st then ("", Some st)
  else
    let '(st, value, written) :=
      if reindent self then reindent_head st t value
      else (st, value, Some "") in
    match written with
    | None => ("", None)
    | Some head =>
        if contains Comment_Invisible t then (head, Some st)
        else
          let '(st, value) :=
            if contains Comment_PureTeX t
            then (set_newline true st, Py.only Py.nl value)
            else (st, value) in
          match style_for_token (resolve (length t) t) ≫= control_words with
          | None => (head, None)
          | Some start =>
              let opening :=
                if String.eqb start "" then "" else "{" +:+ start +:+ " " in
              match write_lines (Py.split Py.nl value) st with
              | (Some st, body) =>
                  (head +:+ opening +:+ body
                     +:+ (if String.eqb start "" then "" else "}"),
                   Some st)
              | (None, body) => (head +:+ opening +:+ body, None)
              end
          end
    end.

(** The loop: what each token wrote, and the final state unless a token
    raised. *)
Fixpoint run (st : state) (tokensource : list token)
  : list string * option state :=
  match tokensource with
  | [] => ([], Some st)
  | tok :: rest =>
      match step st tok with
      | (out, None) => ([out], None)
      | (out, Some st1) =>
          let '(outs, r) := run st1 rest in (out :: outs, r)
      end
  end.

Definition initial : state :=
  {| skiptoken := hidebydefault self; initialindent := "";
     find_next_indent := reindent self; newline := false |}.

End loop.

(** [format_unencoded(tokensource, outfile)]: the text written when the
    call returns, [None] when it raises. *)
Definition format_unencoded (self : formatter) (tokensource : list token)
  : option string :=
  '(color_mapping, _, table) ← color_table self;
  match run self color_mapping (initial self) tokensource with
  | (outs, Some _) => Some (header self table +:+ Py.concat outs +:+ "}")
  | (_, None) => None
  end.

End CHRtfFormatter.

(** ** Regular expressions (the part of Python's [re] that the rules below
    use)

    Matching is by backtracking: [exec r st] lists the ways [r] can match at
    [st] in the order Python tries them, so the match that [re] reports is
    the first one. *)

Module Re.

Inductive regex :=
  | Eps
  | Bol                                  (* [^] under [re.MULTILINE] *)
  | Class (p : ascii → bool)            (* one character *)
  | Seq (r1 r2 : regex)
  | Alt (r1 r2 : regex)                  (* [r1|r2] *)
  | Star (greedy : bool) (r : regex)     (* [r*] and [r*?] *)
  | Group (n : nat) (r : regex).         (* the [n]-th [(...)] *)

Definition Plus (greedy : bool) (r : regex) : regex :=
  Seq r (Star greedy r).

Fixpoint Lit (s : string) : regex :=
  match s with
  | "" => Eps
  | String c s' => Seq (Class (Ascii.eqb c)) (Lit s')
  end.

(** [\s], [\d] and [.] without [re.UNICODE] and [re.DOTALL] *)
Definition space (c : ascii) : bool :=
  existsb (Ascii.eqb c) [" "%char; Py.tab; Py.nl; Py.cr; Py.ff; Py.vt].
Definition digit (c : ascii) : bool :=
  (48 <=? Py.ord c) && (Py.ord c <=? 57).
Definition dot (c : ascii) : bool := negb (Ascii.eqb c Py.nl).

(** Where the matcher stands: the character before the position, the
    text from the position on, and the groups matched so far. *)
Record mstate := {
  prev : option ascii;
  rest : string;
  groups : gmap nat string;
}.

(** The iterations of [r*] and [r*?], given how the body [r] matches: an
    iteration that consumes nothing is not repeated, so there are at most
    as many as there are characters left. *)
Fixpoint star (greedy : bool) (body : mstate → list (string * mstate))
    (fuel : nat) (st : mstate) : list (string * mstate) :=
  match fuel with
  | O => [("", st)]
  | S fuel' =>
      let more :=
        '(c1, st1) ← body st;
        if String.eqb c1 "" then []
        else '(c2, st2) ← star greedy body fuel' st1; [(c1 +:+ c2, st2)] in
      if greedy then more ++ [("", st)] else ("", st) :: more
  end.

Fixpoint exec (r : regex) (st : mstate) : list (string * mstate) :=
  match r with
  | Eps => [("", st)]
  | Bol =>
      match prev st with
      | None => [("", st)]
      | Some c => if Ascii.eqb c Py.nl then [("", st)] else []
      end
  | Class p =>
      match rest st with
      | String c s' =>
          if p c
          then [(String c "",
                 {| prev := Some c; rest := s'; groups := groups st |})]
          else []
      | "" => []
      end
  | Seq r1 r2 =>
      '(c1, st1) ← exec r1 st;
      '(c2, st2) ← exec r2 st1;
      [(c1 +:+ c2, st2)]
  | Alt r1 r2 => exec r1 st ++ exec r2 st
  | Star greedy r' => star greedy (exec r') (String.length (rest st)) st
  | Group n r' =>
      (λ '(c, st'),
         (c, {| prev := prev st'; rest := rest st';
                groups := <[n := c]> (groups st') |})) <$> exec r' st
  end.

(** [r] has no capturing group. *)
Fixpoint groupless (r : regex) : bool :=
  match r with
  | Eps | Bol | Class _ => true
  | Seq r1 r2 | Alt r1 r2 => groupless r1 && groupless r2
  | Star _ r' => groupless r'
  | Group _ _ => false
  end.

(** A match object: group 0 is the whole match. *)
Abbreviation rematch := (gmap nat string) (only parsing).

(** [regex.match(text, pos)], given [text[pos-1]] and [text[pos:]]. *)
Definition match_ (r : regex) (before : option ascii) (text : string)
  : option rematch :=
  (λ '(c, st), <[0 := c]> (groups st))
    <$> head (exec r {| prev := before; rest := text; groups := ∅ |}).

(** [match.group(i)]; a group that took no part in the match has no
    text. *)
Definition group (m : rematch) (i : nat) : string := default "" (m !! i).

End Re.

(** ** The lexer (cilklexer.py) *)

Module CilkLexer.
Import Token.

(** *** Objects

    The class body binds [_custom_types] and [_custom_keywords] to two
    list objects, once, in the namespace of the class.  An instance has a
    namespace of its own, in which [__init__] binds neither name, so
    [lexer._custom_types] is looked up in the class. *)

Abbreviation loc := nat (only parsing).
Abbreviation heap := (gmap nat (list string)) (only parsing).

Definition class_dict : gmap string loc :=
  {[ "_custom_types" := 0; "_custom_keywords" := 1 ]}.

(** The heap once the class is defined. *)
Definition class_heap : heap := {[ 0 := []; 1 := [] ]}.

Record instance := {
  inst_id : nat;
  inst_dict : gmap string loc;
}.

(** [CilkLexer()] *)
Definition new (id : nat) : instance :=
  {| inst_id := id; inst_dict := ∅ |}.

(** [lexer.name]: the instance's namespace, then the class's; [None]
    stands for [AttributeError]. *)
Definition getattr (lexer : instance) (name : string) : option loc :=
  match inst_dict lexer !! name with
  | Some l => Some l
  | None => class_dict !! name
  end.

(** The list object that [lexer.name] is. *)
Definition getlist (lexer : instance) (name : string) (h : heap)
  : option (loc * list string) :=
  l ← getattr lexer name; xs ← h !! l; Some (l, xs).

(** [if x not in lexer.name: lexer.name.append(x)] *)
Definition add_new (lexer : instance) (name : string) (x : string)
    (h : heap) : option heap :=
  '(l, xs) ← getlist lexer name h;
  if bool_decide (x ∈ xs) then Some h else Some (<[l := xs ++ [x]]> h).

(** [x in lexer.name] *)
Definition member (lexer : instance) (name : string) (x : string)
    (h : heap) : option bool :=
  '(_, xs) ← getlist lexer name h; Some (bool_decide (x ∈ xs)).

(** *** Callbacks

    A callback is given the lexer and the match, may change the heap, and
    yields tokens (their positions are left out). *)

Definition callback : Type :=
  instance → Re.rematch → heap → option (list token * heap).

(** The loop [for new_type in type_list.strip().split(' '): ...] *)
Definition add_names (lexer : instance) (name : string) (names : string)
    (h : heap) : option heap :=
  foldl (λ acc new_name,
           h ← acc;
           if String.eqb (Py.strip new_name) "" then Some h
           else add_new lexer name (Py.strip new_name) h)
    (Some h) (Py.split " " (Py.strip names)).

Definition customtypes_callback : callback := λ lexer m h,
  let type_list := Re.group m 5 in
  h ← add_names lexer "_custom_types" type_list h;
  Some ([(Comment_Invisible, Re.group m 0)], h).

Definition customkeywords_callback : callback := λ lexer m h,
  let comment_head := Re.group m 1 in
  let keyword_list := Re.group m 5 in
  h ← add_names lexer "_custom_keywords" keyword_list h;
  Some ([(Comment_Invisible, comment_head +:+ keyword_list)], h).

Definition typedef_callback : callback := λ lexer m h,
  let new_type := Re.group m 1 in
  h ← add_new lexer "_custom_types" (Py.strip new_type) h;
  Some ([(Keyword_Type, new_type)], h).

Definition classname_callback : callback := λ lexer m h,
  let new_type := Re.group m 1 in
  h ← add_new lexer "_custom_types" (Py.strip new_type) h;
  Some ([(Name_Class, new_type)], h).

(** The body shared by the four classification callbacks, which differ in
    the category of the last branch. *)
Definition classify (otherwise : ttype) : callback := λ lexer m h,
  let name := Re.group m 1 in
  member lexer "_custom_types" (Py.strip name) h ≫= λ is_type : bool,
  if is_type then Some ([(Keyword_Type, name)], h)
  else
    member lexer "_custom_keywords" (Py.strip name) h ≫= λ is_keyword : bool,
    if is_keyword then Some ([(Keyword_Custom, name)], h)
    else Some ([(otherwise, name)], h).

Definition variable_callback : callback := classify Name_Variable.
Definition function_callback : callback := classify Name_Function.
Definition checkcustom_callback : callback := classify Name.
Definition checknamespace_callback : callback := classify Name_Namespace.

(** What it is for a callback to classify by the order of the two
    membership tests, given the two lists that the lexer's attributes
    are. *)
Definition classifies (cb : callback) (otherwise : ttype)
    (lexer : instance) (m : Re.rematch) (h : heap)
    (types keywords : list string) : Prop :=
  let name := Re.group m 1 in
  ∃ category,
    cb lexer m h = Some ([(category, name)], h)
    ∧ (Py.strip name ∈ types → category = Keyword_Type)
    ∧ (Py.strip name ∉ types → Py.strip name ∈ keywords →
       category = Keyword_Custom)
    ∧ (Py.strip name ∉ types → Py.strip name ∉ keywords →
       category = otherwise).

(** What it would be for the names that one instance registers to have
    no effect on what another instance yields. *)
Definition instances_isolated : Prop :=
  ∀ (a b : nat) (m1 m2 : Re.rematch) (h h1 : heap) (toks : list token),
    a ≠ b →
    customtypes_callback (new a) m1 h = Some (toks, h1) →
    fst <$> variable_callback (new b) m2 h1
    = fst <$> variable_callback (new b) m2 h.

(** [bygroups(...)]: the text of each group that has an action and is
    not empty, as a token of that category. *)
Definition bygroups (args : list (option ttype)) (m : Re.rematch)
  : list token :=
  flat_map (λ '(i, action),
              match action with
              | Some t =>
                  let data := Re.group m (S i) in
                  if String.eqb data "" then [] else [(t, data)]
              | None => []
              end) (imap pair args).

(** *** Rules of the state ['whitespace'] *)

(** [_ws = r'(?:\s|//.*?\n|/[*].*?[*]/)+'] *)
Definition _ws : Re.regex :=
  Re.Plus true
    (Re.Alt (Re.Class Re.space)
       (Re.Alt
          (Re.Seq (Re.Lit "//")
             (Re.Seq (Re.Star false (Re.Class Re.dot))
                (Re.Class (Ascii.eqb Py.nl))))
          (Re.Seq (Re.Lit "/")
             (Re.Seq (Re.Class (Ascii.eqb "*"))
                (Re.Seq (Re.Star false (Re.Class Re.dot))
                   (Re.Seq (Re.Class (Ascii.eqb "*")) (Re.Lit "/"))))))).

(** ['^(' + _ws + r'#line)(\s+\d\n)'] *)
Definition line_regex : Re.regex :=
  Re.Seq Re.Bol
    (Re.Seq (Re.Group 1 (Re.Seq _ws (Re.Lit "#line")))
       (Re.Group 2
          (Re.Seq (Re.Plus true (Re.Class Re.space))
             (Re.Seq (Re.Class Re.digit) (Re.Class (Ascii.eqb Py.nl)))))).

(** The rule [(line_regex, bygroups(Comment.Invisible.Begin,
    Comment.Invisible.End))]: the tokens when it matches. *)
Definition line_rule (before : option ascii) (text : string)
  : option (list token) :=
  bygroups [Some Comment_Invisible_Begin; Some Comment_Invisible_End]
    <$> Re.match_ line_regex before text.

(** The pattern of the state's last rule: at the start of a line, a group
    of any number of [[ \t\f\v]], then the group [(#)]. *)
Definition macro_regex : Re.regex :=
  Re.Seq Re.Bol
    (Re.Seq (Re.Group 1 (Re.Star true (Re.Class CilkBookFormatter.hspace)))
       (Re.Group 2 (Re.Lit "#"))).

(** The rule [(macro_regex, bygroups(Text, Comment.Preproc), 'macro')],
    the last of the state. *)
Definition macro_rule (before : option ascii) (text : string)
  : option (list token) :=
  bygroups [Some Text; Some Comment_Preproc]
    <$> Re.match_ macro_regex before text.

End CilkLexer.

(** [out] has as many newline characters as [value]: what it is for the
    text written for a token to keep the lines of the token's text. *)
Definition keeps_newlines (out value : string) : Prop :=
  Py.only Py.nl out = Py.only Py.nl value.

(** ** Default options and sample data *)

Module Sample.
Import Token.

Definition NL : string := String Py.nl "".

(** The formatter that [CilkBookFormatter()] builds for a style that
    defines nothing: the defaults of [__init__], and the [ttype2name]
    that [_create_stylesheet] starts from. *)
Definition tex : CilkBookFormatter.formatter :=
  {| CilkBookFormatter.linenos := false;
     CilkBookFormatter.linenostart := 1;
     CilkBookFormatter.linenostep := 1;
     CilkBookFormatter.verbenvironment := "Verbatim";
     CilkBookFormatter.saveverbatimname := "";
     CilkBookFormatter.verboptions := "";
     CilkBookFormatter.commandprefix := "PY";
     CilkBookFormatter.texcomments := false;
     CilkBookFormatter.mathescape := false;
     CilkBookFormatter.inline := false;
     CilkBookFormatter.hidebydefault := false;
     CilkBookFormatter.reindent := false;
     CilkBookFormatter.ttype2name := {[ Token := "" ]} |}.

(** The same with [reindent=True]. *)
Definition tex_reindent : CilkBookFormatter.formatter :=
  {| CilkBookFormatter.linenos := false;
     CilkBookFormatter.linenostart := 1;
     CilkBookFormatter.linenostep := 1;
     CilkBookFormatter.verbenvironment := "Verbatim";
     CilkBookFormatter.saveverbatimname := "";
     CilkBookFormatter.verboptions := "";
     CilkBookFormatter.commandprefix := "PY";
     CilkBookFormatter.texcomments := false;
     CilkBookFormatter.mathescape := false;
     CilkBookFormatter.inline := false;
     CilkBookFormatter.hidebydefault := false;
     CilkBookFormatter.reindent := true;
     CilkBookFormatter.ttype2name := {[ Token := "" ]} |}.

(** Entries of [pygments.token.STANDARD_TYPES]. *)
Definition STANDARD_TYPES : gmap ttype string :=
  {[ Token := ""; Text := ""; Error := "err"; Keyword := "k";
     Keyword_Type := "kt"; Name := "n"; Name_Class := "nc";
     Name_Function := "nf"; Name_Namespace := "nn";
     Name_Variable := "nv"; Comment := "c"; Comment_Preproc := "cp" ]}.

Definition plain : CHRtfFormatter.styledef :=
  {| CHRtfFormatter.color := None; CHRtfFormatter.bgcolor := None;
     CHRtfFormatter.border := None; CHRtfFormatter.bold := false;
     CHRtfFormatter.italic := false; CHRtfFormatter.underline := false |}.

Definition red_bold : CHRtfFormatter.styledef :=
  {| CHRtfFormatter.color := Some "ff0000"; CHRtfFormatter.bgcolor := None;
     CHRtfFormatter.border := None; CHRtfFormatter.bold := true;
     CHRtfFormatter.italic := false; CHRtfFormatter.underline := false |}.

(** [c.encode('iso-8859-15', 'ignore')], the encoding that
    [_escape_text] uses by default: the characters up to 255 are their
    own byte, but for the eight that Latin-9 has not. *)
Definition latin9 (c : ascii) : string :=
  if existsb (Nat.eqb (Py.ord c)) [164; 166; 168; 180; 184; 188; 189; 190]
  then "" else String c "".

(** The encodings by name: Latin-9 alone. *)
Definition codecs (name : string) : option (ascii → string) :=
  if String.eqb name "iso-8859-15" then Some latin9 else None.

(** A small style table. *)
Definition style : list (ttype * CHRtfFormatter.styledef) :=
  [ (Token, plain); (Text, plain); (Comment, plain);
    (Comment_Preproc, plain); (Name, plain); (Keyword, red_bold) ].

(** The formatter that [CHRtfFormatter(style=...)] builds. *)
Definition rtf : CHRtfFormatter.formatter :=
  {| CHRtfFormatter.fontface := "";
     CHRtfFormatter.hidebydefault := false;
     CHRtfFormatter.reindent := false;
     CHRtfFormatter.style := style;
     CHRtfFormatter.encoding := None;
     CHRtfFormatter.codecs := codecs |}.

Definition rtf_reindent : CHRtfFormatter.formatter :=
  {| CHRtfFormatter.fontface := "";
     CHRtfFormatter.hidebydefault := false;
     CHRtfFormatter.reindent := true;
     CHRtfFormatter.style := style;
     CHRtfFormatter.encoding := None;
     CHRtfFormatter.codecs := codecs |}.

(** [color_mapping] for [style]. *)
Definition color_mapping : gmap string nat := {[ "ff0000" := 1 ]}.

(** [int x;], a hidden region of one line, and [int y;]. *)
Definition hidden_pre : list token :=
  [ (Keyword_Type, "int"); (Text, " "); (Name, "x"); (Text, ";" +:+ NL) ].
Definition hidden_begin : token :=
  (Comment_Invisible_Begin, "///>>" +:+ NL).
Definition hidden_mid : list token :=
  [ (Name, "secret"); (Comment_Invisible_Begin, "///>>" +:+ NL);
    (Text, ";" +:+ NL) ].
Definition hidden_end : token :=
  (Comment_Invisible_End, "///<<" +:+ NL).
Definition hidden_post : list token :=
  [ (Keyword_Type, "int"); (Text, " "); (Name, "y"); (Text, ";" +:+ NL) ].

(** A line hidden by nothing: [/// Types: Foo Bar] and [Foo x;]. *)
Definition types_comment : token :=
  (Comment_Invisible, "/// Types: Foo Bar" +:+ NL).
Definition types_lines : list token :=
  [ types_comment; (Keyword_Type, "Foo"); (Text, " "); (Name, "x");
    (Text, ";" +:+ NL) ].

(** Two visible regions around a hidden one: the first is indented by
    four spaces, the second by two. *)
Definition two_regions : list token :=
  [ (Text, "    "); (Name, "a"); (Text, NL);
    (Comment_Invisible_Begin, "///>>" +:+ NL); (Name, "hidden");
    (Text, NL); (Comment_Invisible_End, "///<<" +:+ NL);
    (Text, "  "); (Name, "b"); (Text, NL) ].

(** The match of [/// Types: Foo Bar] by the first rule of the state
    ['whitespace'], and a match of the identifier [Foo]. *)
Definition types_match : Re.rematch :=
  {[ 0 := "/// Types: Foo Bar" +:+ NL; 1 := "/// Types:";
     4 := " Types:"; 5 := " Foo Bar" +:+ NL ]}.
Definition foo_match : Re.rematch := {[ 0 := "Foo"; 1 := "Foo" ]}.

End Sample.

(** ** Character classes used to state what escaping leaves behind *)

(** The characters that [escape_tex] replaces and that are no part of the
    macro calls it writes: the three placeholders and the twelve special
    characters other than the backslash and the braces. *)
Definition tex_gone (c : ascii) : bool :=
  existsb (Ascii.eqb c)
    ["000"; "001"; "002"; "^"; "_"; "&"; "<"; ">"; "#"; "%"; "$"; "-"; "'";
     Py.dquote; "~"]%char.

(** The characters that [_escape_text] writes without raising: those
    below 128, and those above 128 to which the encoding, when Python
    knows it, gives at most one byte. *)
Definition writable (self : CHRtfFormatter.formatter) (c : ascii) : bool :=
  if 128 <? Py.ord c then
    match CHRtfFormatter.codec self with
    | Some enc => String.length (enc c) <=? 1
    | None => false
    end
  else negb (Py.ord c =? 128).

(** The colours that a style entry uses. *)
Definition colors (sd : CHRtfFormatter.styledef) : list string :=
  omap CHRtfFormatter.used
    [CHRtfFormatter.color sd; CHRtfFormatter.bgcolor sd;
     CHRtfFormatter.border sd].

(** [c] is six hexadecimal digits, the form in which a style keeps its
    colours. *)
Definition hex_color (c : string) : bool :=
  (String.length c =? 6)
  && Py.all (λ ch, bool_decide (is_Some (Py.hexval ch))) c.

(** [cs] lists the colours of the table in the order of their entries:
    the colour at position [i] of [cs] has the number [i + 1] in
    [color_mapping], [offset] is the next free number, and the text
    written is the entries of [cs], in order. *)
Definition numbered (cs : list string)
    (acc : gmap string nat * nat * string) : Prop :=
  NoDup cs
  ∧ acc.1.2 = S (length cs)
  ∧ (∀ c n, acc.1.1 !! c = Some n ↔ ∃ i, n = S i ∧ cs !! i = Some c)
  ∧ ∃ es, Forall2 (λ c e, CHRtfFormatter.color_entry c = Some e) cs es
          ∧ acc.2 = Py.concat es.

(** ** More rules of the state ['whitespace'] (cilklexer.py) *)

Module CilkRules.
Import Token.

(** [(r)?]: [r] when it matches, else nothing. *)
Definition Opt (r : Re.regex) : Re.regex := Re.Alt r Re.Eps.

(** [[^\\]] *)
Definition not_backslash (c : ascii) : bool := negb (Ascii.eqb c "\").

(** [[ \t\f\v]*] *)
Definition indentation : Re.regex :=
  Re.Star true (Re.Class CilkBookFormatter.hspace).

(** [\\\n]: a backslash and a newline. *)
Definition continuation : Re.regex :=
  Re.Seq (Re.Class (Ascii.eqb "\")) (Re.Class (Ascii.eqb Py.nl)).

(** [/(\\\n)?/(\\\n)?/], whose two groups are the [n]-th and the next. *)
Definition slashes (n : nat) : Re.regex :=
  Re.Seq (Re.Lit "/")
    (Re.Seq (Opt (Re.Group n continuation))
       (Re.Seq (Re.Lit "/")
          (Re.Seq (Opt (Re.Group (S n) continuation)) (Re.Lit "/")))).

(** [.*?[^\\]\n] *)
Definition to_eol : Re.regex :=
  Re.Seq (Re.Star false (Re.Class Re.dot))
    (Re.Seq (Re.Class not_backslash) (Re.Class (Ascii.eqb Py.nl))).

(** [\s*] followed by the text [word]. *)
Definition spaced (word : string) : Re.regex :=
  Re.Seq (Re.Star true (Re.Class Re.space)) (Re.Lit word).

(** [r'([ \t\f\v]*/(\\\n)?/(\\\n)?/(\s*Types:))(.*?[^\\]\n)'], and the
    same with [Keywords:]. *)
Definition names_regex (word : string) : Re.regex :=
  Re.Seq
    (Re.Group 1
       (Re.Seq indentation (Re.Seq (slashes 2) (Re.Group 4 (spaced word)))))
    (Re.Group 5 to_eol).

(** [r'[ \t\f\v]*/(\\\n)?/(\\\n)?/(\s*<<)(\n|(.|\n)*?[^\\]\n)'], and the
    same with [>>]. *)
Definition marker_regex (mark : string) : Re.regex :=
  Re.Seq indentation
    (Re.Seq (slashes 1)
       (Re.Seq (Re.Group 3 (spaced mark))
          (Re.Group 4
             (Re.Alt (Re.Class (Ascii.eqb Py.nl))
                (Re.Seq
                   (Re.Star false
                      (Re.Group 5
                         (Re.Alt (Re.Class Re.dot)
                            (Re.Class (Ascii.eqb Py.nl)))))
                   (Re.Seq (Re.Class not_backslash)
                      (Re.Class (Ascii.eqb Py.nl)))))))).

(** [r'[ \t\f\v]*(/(\\\n)?/(\\\n)?/)(.*?[^\\]\n)'] *)
Definition puretex_regex : Re.regex :=
  Re.Seq indentation (Re.Seq (Re.Group 1 (slashes 2)) (Re.Group 4 to_eol)).

(** A rule whose action is a callback: the tokens that the callback
    yields for the match, and the heap after it. *)
Definition callback_rule (r : Re.regex) (cb : CilkLexer.callback)
    (lexer : CilkLexer.instance) (before : option ascii) (text : string)
    (h : gmap nat (list string))
  : option (list token * gmap nat (list string)) :=
  m ← Re.match_ r before text; cb lexer m h.

(** A rule whose action is a token type: [yield pos, action,
    m.group()]. *)
Definition token_rule (r : Re.regex) (t : ttype)
    (before : option ascii) (text : string) : option (list token) :=
  (λ m, [(t, Re.group m 0)]) <$> Re.match_ r before text.

(** The rules of the comments [Types:] and [Keywords:]. *)
Definition types_rule := callback_rule (names_regex "Types:")
                           CilkLexer.customtypes_callback.
Definition keywords_rule := callback_rule (names_regex "Keywords:")
                              CilkLexer.customkeywords_callback.

(** The rules of the markers [<<] and [>>]. *)
Definition show_rule := token_rule (marker_regex "<<") Comment_Invisible_End.
Definition hide_rule :=
  token_rule (marker_regex ">>") Comment_Invisible_Begin.

(** The rule of the other comments that start with three slashes, with
    the action [bygroups(Comment.Invisible, None, None,
    Comment.PureTeX)]. *)
Definition puretex_rule (before : option ascii) (text : string)
  : option (list token) :=
  CilkLexer.bygroups [Some Comment_Invisible; None; None; Some Comment_PureTeX]
    <$> Re.match_ puretex_regex before text.

End CilkRules.

(** ** Notions used to state what reindenting does *)

(** The lines of a text with the baseline taken off the start of each
    line that has it; off the first line only when the text starts a
    line. *)
Definition reindent_lines (at_line_start : bool) (initialindent : string)
    (lines : list string) : list string :=
  match lines with
  | [] => []
  | line :: lines' =>
      (if at_line_start
       then CilkBookFormatter.strip_indent initialindent line else line)
        :: (CilkBookFormatter.strip_indent initialindent <$> lines')
  end.

Definition reindent_text (at_line_start : bool)
    (initialindent value : string) : string :=
  Py.join (String Py.nl "")
    (reindent_lines at_line_start initialindent (Py.split Py.nl value)).

(** [value.endswith('\n')] *)
Fixpoint ends_with_newline (value : string) : bool :=
  match value with
  | "" => false
  | String c "" => Ascii.eqb c Py.nl
  | String _ value' => ends_with_newline value'
  end.
(** * Properties *)

(** ** Strings *)

Module PyFacts.
Import Py.

Lemma app_cons c s t : String c s +:+ t = String c (s +:+ t).
Proof. reflexivity. Qed.

Lemma app_nil_l s : "" +:+ s = s.
Proof. reflexivity. Qed.

Lemma app_nil_r s : s +:+ "" = s.
Proof. induction s as [|c s IH]; [done|]. by rewrite app_cons, IH. Qed.

Lemma app_assoc s t u : (s +:+ t) +:+ u = s +:+ t +:+ u.
Proof. induction s as [|c s IH]; [done|]. by rewrite !app_cons, IH. Qed.

Lemma replace_app old new s t :
  replace old new (s +:+ t) = replace old new s +:+ replace old new t.
Proof.
  induction s as [|c s IH]; [done|].
  rewrite app_cons. cbn [replace]. by rewrite IH, app_assoc.
Qed.

Lemma replace_single old new c :
  replace old new (String c "") =
    if Ascii.eqb c old then new else String c "".
Proof. cbn [replace]. by rewrite app_nil_r. Qed.

Lemma replace_absent old new s :
  occurs old s = false → replace old new s = s.
Proof.
  induction s as [|c s IH]; [done|]. cbn [occurs replace].
  intros [Hc Hs]%orb_false_iff. by rewrite Hc, IH.
Qed.

Lemma occurs_app c s t : occurs c (s +:+ t) = occurs c s || occurs c t.
Proof.
  induction s as [|d s IH]; [done|].
  rewrite app_cons. cbn [occurs]. by rewrite IH, orb_assoc.
Qed.

Lemma occurs_letters c s :
  all isletter s = true → isletter c = false → occurs c s = false.
Proof.
  intros Hs Hc. induction s as [|d s IH]; [done|].
  cbn [all occurs] in *. apply andb_true_iff in Hs as [Hd Hs].
  rewrite (IH Hs), orb_false_r.
  destruct (Ascii.eqb_spec d c) as [->|]; [congruence|done].
Qed.

Lemma strip_prefix_app p s : strip_prefix p (p +:+ s) = Some s.
Proof.
  induction p as [|c p IH]; [done|].
  rewrite app_cons. cbn [strip_prefix]. by rewrite Ascii.eqb_refl.
Qed.

End PyFacts.

(** ** Escaping *)

Module EscapeFacts.
Import Py PyFacts.

Lemma escape_tex_app s t cp :
  escape_tex (s +:+ t) cp = escape_tex s cp +:+ escape_tex t cp.
Proof. unfold escape_tex. by rewrite !replace_app. Qed.

Lemma escape_tex_cons c s cp :
  escape_tex (String c s) cp = escape_tex (String c "") cp +:+ escape_tex s cp.
Proof. by rewrite <- escape_tex_app. Qed.

Lemma occurs_cmd cp z c :
  all isletter cp = true → isletter c = false →
  occurs c ("\" +:+ z +:+ "{}") = false →
  occurs c ("\" +:+ cp +:+ z +:+ "{}") = false.
Proof.
  intros Hcp Hc Hz. rewrite app_cons, app_nil_l in *. cbn [occurs] in *.
  rewrite !occurs_app in *. rewrite (occurs_letters c cp Hcp Hc).
  apply orb_false_iff in Hz as [-> Hz]. by rewrite Hz.
Qed.

Lemma replace_cmd old new cp z :
  all isletter cp = true → isletter old = false →
  occurs old ("\" +:+ z +:+ "{}") = false →
  replace old new ("\" +:+ cp +:+ z +:+ "{}") = "\" +:+ cp +:+ z +:+ "{}".
Proof. intros. by apply replace_absent, occurs_cmd. Qed.

Lemma escape_tex_char cp c :
  all isletter cp = true → escape_tex (String c "") cp = tex_repl cp c.
Proof.
  intros Hcp. unfold escape_tex, dquote.
  destruct c as [[] [] [] [] [] [] [] []]; try reflexivity;
    repeat first
      [ rewrite replace_single; cbn [Ascii.eqb Bool.eqb]
      | rewrite replace_cmd by (assumption || reflexivity) ];
    reflexivity.
Qed.

Lemma tex_read_letters cp acc w s :
  all isletter w = true →
  tex_read cp (TexName acc) (w +:+ s) = tex_read cp (TexName (acc +:+ w)) s.
Proof.
  revert acc. induction w as [|c w IH]; intros acc Hw.
  - by rewrite app_nil_r.
  - cbn [all] in Hw. apply andb_true_iff in Hw as [Hc Hw].
    rewrite app_cons. cbn [tex_read]. rewrite Hc, (IH _ Hw).
    by rewrite app_assoc.
Qed.

Lemma tex_read_cmd cp z x s :
  all isletter cp = true → all isletter z = true →
  find (λ e, String.eqb e.1 z) STYLE_TEMPLATE_chars = Some (z, x) →
  tex_read cp TexPlain (("\" +:+ cp +:+ z +:+ "{}") +:+ s)
  = String x <$> tex_read cp TexPlain s.
Proof.
  intros Hcp Hz Hx. rewrite !app_assoc.
  change (tex_read cp (TexName "") (cp +:+ z +:+ "{}" +:+ s)
          = String x <$> tex_read cp TexPlain s).
  rewrite !tex_read_letters by done. rewrite app_nil_l.
  change (macro_char cp (cp +:+ z)
            ≫= (λ y, String y <$> tex_read cp TexPlain s)
          = String x <$> tex_read cp TexPlain s).
  unfold macro_char. rewrite strip_prefix_app.
  cbn [mbind option_bind]. by rewrite Hx.
Qed.

Lemma tex_read_repl cp c s :
  all isletter cp = true → tex_placeholder c = false →
  tex_read cp TexPlain (tex_repl cp c +:+ s)
  = String c <$> tex_read cp TexPlain s.
Proof.
  intros Hcp Hc.
  destruct c as [[] [] [] [] [] [] [] []];
    try discriminate Hc; try reflexivity;
    cbv [tex_repl find take STYLE_TEMPLATE_chars fst snd
           Ascii.eqb Bool.eqb dquote];
    by apply tex_read_cmd.
Qed.

Lemma special_not_placeholder c :
  tex_special c = true → tex_placeholder c = false.
Proof. by destruct c as [[] [] [] [] [] [] [] []]. Qed.

Lemma all_impl (p q : ascii → bool) s :
  (∀ c, p c = true → q c = true) → all p s = true → all q s = true.
Proof.
  intros Hpq. induction s as [|c s IH]; [done|]. cbn [all].
  intros [Hc Hs]%andb_true_iff. by rewrite (Hpq c Hc), IH.
Qed.

(** [escape_tex] is read back by LaTeX on every text that is free of the
    three placeholder characters. *)
Lemma unescape_escape_tex cp s :
  all isletter cp = true → all (λ c, negb (tex_placeholder c)) s = true →
  unescape_tex cp (escape_tex s cp) = Some s.
Proof.
  intros Hcp. unfold unescape_tex. induction s as [|c s IH]; [done|].
  cbn [all]. intros [Hc Hs]%andb_true_iff. apply negb_true_iff in Hc.
  rewrite escape_tex_cons, escape_tex_char, tex_read_repl by done.
  by rewrite (IH Hs).
Qed.

Lemma _escape_app s t : _escape (s +:+ t) = _escape s +:+ _escape t.
Proof. unfold _escape. by rewrite !replace_app. Qed.

Lemma _escape_char c : _escape (String c "") = rtf_repl c.
Proof. by destruct c as [[] [] [] [] [] [] [] []]. Qed.

Lemma rtf_read_repl c s :
  rtf_read false (rtf_repl c +:+ s) = String c <$> rtf_read false s.
Proof. by destruct c as [[] [] [] [] [] [] [] []]. Qed.

(** [_escape] is read back by an RTF reader on every text. *)
Lemma unescape_escape_rtf s : unescape_rtf (_escape s) = Some s.
Proof.
  unfold unescape_rtf. induction s as [|c s IH]; [done|].
  change (String c s) with (String c "" +:+ s).
  by rewrite _escape_app, _escape_char, rtf_read_repl, IH.
Qed.

End EscapeFacts.

(** C6. Each escaping function is injective on texts over the characters it
    handles: reading the escaped text back as the target syntax does gives
    the original text, so two such texts with the same escaped form are
    equal.  For LaTeX the command prefix is a run of letters, as a macro
    name has to be. *)
Theorem escape_roundtrip_injective
    (commandprefix t1 t2 r1 r2 : string)
    (Hcp : Py.all Py.isletter commandprefix = true)
    (Ht1 : Py.all tex_special t1 = true)
    (Ht2 : Py.all tex_special t2 = true)
    (Hr1 : Py.all rtf_special r1 = true)
    (Hr2 : Py.all rtf_special r2 = true) :
  unescape_tex commandprefix (escape_tex t1 commandprefix) = Some t1
  ∧ (escape_tex t1 commandprefix = escape_tex t2 commandprefix → t1 = t2)
  ∧ unescape_rtf (_escape r1) = Some r1
  ∧ (_escape r1 = _escape r2 → r1 = r2).
Proof.
  assert (∀ t, Py.all tex_special t = true →
            unescape_tex commandprefix (escape_tex t commandprefix) = Some t)
    as Htex.
  { intros t Ht. apply EscapeFacts.unescape_escape_tex; [done|].
    revert Ht. apply EscapeFacts.all_impl. intros c Hc.
    by rewrite (EscapeFacts.special_not_placeholder c Hc). }
  split_and!.
  - by apply Htex.
  - intros Heq. apply (inj Some).
    by rewrite <- (Htex t1 Ht1), <- (Htex t2 Ht2), Heq.
  - apply EscapeFacts.unescape_escape_rtf.
  - intros Heq. apply (inj Some).
    by rewrite <- (EscapeFacts.unescape_escape_rtf r1),
         <- (EscapeFacts.unescape_escape_rtf r2), Heq.
Qed.

Lemma escape_roundtrip_injective_witness :
  unescape_tex "PY" (escape_tex "{\_^}" "PY") = Some "{\_^}"
  ∧ (escape_tex "{\_^}" "PY" = escape_tex "$#" "PY" → "{\_^}" = "$#")
  ∧ unescape_rtf (_escape "{\}") = Some "{\}"
  ∧ (_escape "{\}" = _escape "}{" → "{\}" = "}{").
Proof.
  apply (escape_roundtrip_injective "PY" "{\_^}" "$#" "{\}" "}{");
    reflexivity.
Defined.

(** C10. [escape_tex] writes for the control characters U+0000, U+0001 and
    U+0002 what it writes for the backslash and the two braces, whose
    placeholders they are; so two distinct texts have the same escaped
    form. *)
Theorem escape_tex_placeholders_collide (commandprefix : string) :
  escape_tex (String "000" "") commandprefix = escape_tex "\" commandprefix
  ∧ escape_tex (String "001" "") commandprefix = escape_tex "{" commandprefix
  ∧ escape_tex (String "002" "") commandprefix = escape_tex "}" commandprefix
  ∧ ∃ s1 s2 : string,
      s1 ≠ s2 ∧ escape_tex s1 commandprefix = escape_tex s2 commandprefix.
Proof.
  split_and!; try reflexivity.
  exists (String "000" ""), "\". by split.
Qed.


(** ** Token categories *)

Module TokenFacts.
Import Token.

Lemma contains_prefix (T t : ttype) : t ∈t T ↔ T `prefix_of` t.
Proof. unfold contains. apply bool_decide_eq_true. Qed.

Lemma contains_trans (T U t : ttype) : U ∈t T → t ∈t U → t ∈t T.
Proof. rewrite !contains_prefix. by intros ??; etrans. Qed.

Lemma begin_not_end t :
  t ∈t Comment_Invisible_Begin → contains Comment_Invisible_End t = false.
Proof.
  rewrite contains_prefix. intros [k ->].
  apply bool_decide_eq_false. by intros [k' Hk'].
Qed.

Lemma end_not_begin t :
  t ∈t Comment_Invisible_End → contains Comment_Invisible_Begin t = false.
Proof.
  rewrite contains_prefix. intros [k ->].
  apply bool_decide_eq_false. by intros [k' Hk'].
Qed.

Lemma invisible_comment t : t ∈t Comment_Invisible → t ∈t Comment.
Proof. by apply contains_trans. Qed.

Lemma invisible_not_puretex t :
  t ∈t Comment_Invisible → contains Comment_PureTeX t = false.
Proof.
  rewrite contains_prefix. intros [k ->].
  apply bool_decide_eq_false. by intros [k' Hk'].
Qed.

Lemma invisible_not_text t : t ∈t Comment_Invisible → is_ t Text = false.
Proof.
  rewrite contains_prefix. intros [k ->]. by apply bool_decide_eq_false.
Qed.

End TokenFacts.

(** ** The token loops *)

Module TexFacts.
Import Token TokenFacts CilkBookFormatter.

Section facts.
Context (ST : gmap ttype string) (self : formatter).

Lemma tex_set_skiptoken_id st : set_skiptoken (skiptoken st) st = st.
Proof. by destruct st. Qed.

Lemma tex_step_end st t v :
  t ∈t Comment_Invisible_End →
  step ST self st (t, v) = (set_skiptoken false st, "").
Proof. intros Ht. unfold step. by rewrite Ht. Qed.

Lemma tex_step_begin st t v :
  t ∈t Comment_Invisible_Begin →
  step ST self st (t, v) = (set_skiptoken true st, "").
Proof.
  intros Ht. unfold step. by rewrite (begin_not_end t Ht), Ht.
Qed.

(** While [skiptoken] is set, a token that is not an end marker writes
    nothing and leaves the state as it is. *)
Lemma tex_step_skipped st t v :
  skiptoken st = true → contains Comment_Invisible_End t = false →
  step ST self st (t, v) = (st, "").
Proof.
  intros Hst Ht. unfold step. rewrite Ht, Hst.
  destruct (contains Comment_Invisible_Begin t); [|done].
  by rewrite <- Hst, tex_set_skiptoken_id.
Qed.

Lemma tex_run_app st l1 l2 :
  run ST self st (l1 ++ l2) =
    let '(st1, o1) := run ST self st l1 in
    let '(st2, o2) := run ST self st1 l2 in
    (st2, o1 ++ o2).
Proof.
  revert st. induction l1 as [|tok l1 IH]; intros st; cbn [run app].
  - by destruct (run ST self st l2).
  - destruct (step ST self st tok) as [st1 out]. rewrite IH.
    destruct (run ST self st1 l1) as [st2 o1].
    by destruct (run ST self st2 l2).
Qed.

Lemma tex_run_length st l : length (run ST self st l).2 = length l.
Proof.
  revert st. induction l as [|tok l IH]; intros st; cbn [run]; [done|].
  destruct (step ST self st tok) as [st1 out]. specialize (IH st1).
  destruct (run ST self st1 l). cbn in *. by rewrite IH.
Qed.

Lemma tex_run_skipped st l :
  skiptoken st = true →
  Forall (λ tok, ¬ tok.1 ∈t Comment_Invisible_End) l →
  run ST self st l = (st, replicate (length l) "").
Proof.
  intros Hst. induction 1 as [|[t v] l Ht _ IH]; [done|].
  cbn [run]. rewrite tex_step_skipped, IH; [done..|].
  by apply not_true_is_false.
Qed.

(** A hidden region, from the begin marker to the next end marker,
    writes nothing and ends with [skiptoken] unset. *)
Lemma tex_run_region st tb mid te :
  tb.1 ∈t Comment_Invisible_Begin → te.1 ∈t Comment_Invisible_End →
  Forall (λ tok, ¬ tok.1 ∈t Comment_Invisible_End) mid →
  run ST self st (tb :: mid ++ [te]) =
    (set_skiptoken false (set_skiptoken true st),
     replicate (S (S (length mid))) "").
Proof.
  intros Hb He Hmid. destruct tb as [tb vb], te as [te ve].
  cbn [run]. rewrite tex_step_begin by done.
  rewrite tex_run_app, tex_run_skipped by done. cbn [run].
  rewrite tex_step_end by done.
  cbn [replicate app]. by rewrite <- replicate_cons_app.
Qed.

(** After a run of markers, [skiptoken] is set exactly when the last of
    them is a begin marker. *)
Lemma tex_run_markers st ms m :
  Forall (λ tok, tok.1 ∈t Comment_Invisible_Begin
                 ∨ tok.1 ∈t Comment_Invisible_End) ms →
  last ms = Some m →
  skiptoken (run ST self st ms).1 = contains Comment_Invisible_Begin m.1.
Proof.
  destruct ms as [|m' ms _] using rev_ind; [done|].
  rewrite last_snoc. intros Hms [= ->].
  apply Forall_app in Hms. destruct Hms as [_ Hm].
  apply Forall_inv in Hm. rewrite tex_run_app.
  destruct (run ST self st ms) as [st1 o1], m as [t v].
  cbn [run fst] in *. destruct Hm as [Hm|Hm].
  - by rewrite tex_step_begin, Hm.
  - by rewrite tex_step_end, (end_not_begin t Hm).
Qed.

(** What the [reindent] part of the body does with a token that is not
    [Token.Text]: it writes the newlines the text starts with, and
    nothing else. *)
Lemma tex_reindent_head_not_text st t value :
  is_ t Text = false →
  (reindent_head st t value).2 = leading_newlines value.
Proof.
  intros Ht. unfold reindent_head, leading_newlines, match_newlines.
  rewrite Ht. destruct (find_next_indent st);
    destruct (Py.span (Ascii.eqb Py.nl) value) as [nls rest];
    destruct nls; cbn; try done;
    by destruct (newline _).
Qed.

(** A shown token under [Comment.Invisible] that is no marker is dropped
    after the [reindent] part of the body. *)
Lemma tex_step_invisible st t value :
  skiptoken st = false → t ∈t Comment_Invisible →
  contains Comment_Invisible_Begin t = false →
  contains Comment_Invisible_End t = false →
  step ST self st (t, value) =
    if reindent self
    then ((reindent_head st t value).1.1, leading_newlines value)
    else (st, "").
Proof.
  intros Hst Ht Hb He. unfold step.
  rewrite He, Hb, Hst, (invisible_comment t Ht),
    (invisible_not_puretex t Ht), Ht.
  destruct (reindent self); [|done].
  rewrite <- (tex_reindent_head_not_text st t value)
    by by apply invisible_not_text.
  by destruct (reindent_head st t value) as [[??]?].
Qed.

Lemma write_styled_more sv line line' spl st :
  write_styled self sv (line :: line' :: spl) st =
    let '(st', out') :=
      write_styled self sv (line' :: spl)
        (set_wrotelines true (set_newline true st)) in
    (st', ((if String.eqb line "" then "" else styled self sv line)
             +:+ String Py.nl "") +:+ out').
Proof. done. Qed.

Lemma write_plain_more line line' spl st :
  write_plain self (line :: line' :: spl) st =
    let '(st', out') :=
      write_plain self (line' :: spl)
        (set_wrotelines true (set_newline true st)) in
    (st', ((if String.eqb line "" then ""
            else if reindent self && newline st
                 then strip_indent (initialindent st) line else line)
             +:+ String Py.nl "") +:+ out').
Proof. done. Qed.

Lemma write_styled_baseline sv spl st :
  let st' := (write_styled self sv spl st).1 in
  skiptoken st' = skiptoken st
  ∧ find_next_indent st' = find_next_indent st
  ∧ initialindent st' = initialindent st.
Proof.
  revert st. induction spl as [|line [|line' spl] IH]; intros st.
  - done.
  - cbn. by destruct (String.eqb line "").
  - rewrite write_styled_more.
    specialize (IH (set_wrotelines true (set_newline true st))).
    destruct (write_styled _ _ (line' :: spl) _) as [st' out'].
    apply IH.
Qed.

Lemma write_plain_baseline spl st :
  let st' := (write_plain self spl st).1 in
  skiptoken st' = skiptoken st
  ∧ find_next_indent st' = find_next_indent st
  ∧ initialindent st' = initialindent st.
Proof.
  revert st. induction spl as [|line [|line' spl] IH]; intros st.
  - done.
  - cbn. by destruct (String.eqb line "").
  - rewrite write_plain_more.
    specialize (IH (set_wrotelines true (set_newline true st))).
    destruct (write_plain _ (line' :: spl) _) as [st' out'].
    apply IH.
Qed.

Lemma tex_reindent_head_baseline st t value :
  find_next_indent st = false →
  let st' := (reindent_head st t value).1.1 in
  skiptoken st' = skiptoken st
  ∧ find_next_indent st' = false
  ∧ initialindent st' = initialindent st.
Proof.
  intros Hst. unfold reindent_head. rewrite Hst.
  destruct (match_newlines value) as [[nls rest]|]; [done|].
  by destruct (newline st).
Qed.

(** Once [find_next_indent] is unset, no token sets it again or changes
    [initialindent]. *)
Lemma tex_step_baseline st tok :
  find_next_indent st = false →
  let st' := (step ST self st tok).1 in
  find_next_indent st' = false ∧ initialindent st' = initialindent st.
Proof.
  intros Hst. destruct tok as [t value]. unfold step.
  destruct (contains Comment_Invisible_End t); [done|].
  destruct (contains Comment_Invisible_Begin t); [done|].
  destruct (skiptoken st); [done|].
  assert (∃ st1 v1 h1,
             (if reindent self then reindent_head st t value
              else (st, value, "")) = (st1, v1, h1)
             ∧ find_next_indent st1 = false
             ∧ initialindent st1 = initialindent st)
    as (st1 & v1 & h1 & -> & Hf & Hi).
  { destruct (reindent self); [|by eauto 10].
    pose proof (tex_reindent_head_baseline st t value Hst) as (_ & ? & ?).
    destruct (reindent_head st t value) as [[st1 v1] h1]. by eauto 10. }
  destruct (_ && contains Comment_Invisible t); [done|].
  match goal with
  | |- context [write_plain self ?spl st1] =>
      pose proof (write_plain_baseline spl st1) as (_ & ? & ?);
      destruct (write_plain self spl st1)
  end.
  match goal with
  | |- context [write_styled self ?sv ?spl st1] =>
      pose proof (write_styled_baseline sv spl st1) as (_ & ? & ?);
      destruct (write_styled self sv spl st1)
  end.
  cbn [fst] in *. destruct (String.eqb _ ""); cbn [fst]; split; congruence.
Qed.

Lemma tex_run_baseline st l :
  find_next_indent st = false →
  let st' := (run ST self st l).1 in
  find_next_indent st' = false ∧ initialindent st' = initialindent st.
Proof.
  revert st. induction l as [|tok l IH]; intros st Hst; [done|].
  cbn [run]. pose proof (tex_step_baseline st tok Hst) as [Hf Hi].
  destruct (step ST self st tok) as [st1 out]. cbn [fst] in *.
  specialize (IH st1 Hf). destruct (run ST self st1 l) as [st2 outs].
  cbn [fst] in *. destruct IH. split; congruence.
Qed.

End facts.
End TexFacts.

(** [_escape_text], which can raise. *)

Module RtfEscape.
Import Py PyFacts EscapeFacts CHRtfFormatter.

Section facts.
Context (self : formatter).

Lemma escape_text_chars_app s t :
  escape_text_chars self (s +:+ t)
  = a ← escape_text_chars self s;
    b ← escape_text_chars self t;
    Some (a +:+ b).
Proof.
  induction s as [|c s IH].
  - rewrite app_nil_l. cbn. by destruct (escape_text_chars self t).
  - rewrite app_cons. cbn [escape_text_chars]. rewrite IH.
    destruct (escape_text_char self c) as [x|]; [|done].
    destruct (escape_text_chars self s) as [a|]; [|done].
    destruct (escape_text_chars self t) as [b|]; [|done].
    cbn. by rewrite app_assoc.
Qed.

Lemma escape_text_unguarded text :
  _escape_text self text
  = buf ← escape_text_chars self (_escape text);
    Some (replace nl ("\par" +:+ String nl "") buf).
Proof. unfold _escape_text. by destruct text. Qed.

(** [_escape_text] works piece by piece, and raises when it raises on a
    piece. *)
Lemma escape_text_app s t :
  _escape_text self (s +:+ t)
  = a ← _escape_text self s; b ← _escape_text self t; Some (a +:+ b).
Proof.
  rewrite !escape_text_unguarded, _escape_app, escape_text_chars_app.
  destruct (escape_text_chars self (_escape s)) as [a|]; [|done].
  destruct (escape_text_chars self (_escape t)) as [b|]; [|done].
  cbn. by rewrite replace_app.
Qed.

Lemma escape_text_newline :
  _escape_text self (String nl "") = Some ("\par" +:+ String nl "").
Proof. done. Qed.

(** A run of newlines is written as as many paragraph breaks. *)
Lemma escape_text_newline_run run :
  all (Ascii.eqb nl) run = true →
  _escape_text self run = Some (replace nl ("\par" +:+ String nl "") run).
Proof.
  induction run as [|c run IH]; [done|]. cbn [all].
  intros [<-%Ascii.eqb_eq Hrun]%andb_true_iff.
  change (String nl run) with (String nl "" +:+ run).
  rewrite escape_text_app, escape_text_newline, IH by done.
  cbn [mbind option_bind]. by rewrite replace_app.
Qed.

Lemma leading_newlines_all value :
  all (Ascii.eqb nl) (CilkBookFormatter.leading_newlines value) = true.
Proof.
  unfold CilkBookFormatter.leading_newlines.
  induction value as [|c value IH]; [done|]. cbn [span].
  destruct (Ascii.eqb nl c) eqn:Hc; [|done].
  destruct (span (Ascii.eqb nl) value) as [a b]. cbn [fst all] in *.
  by rewrite Hc, IH.
Qed.

Lemma escape_text_leading_newlines value :
  _escape_text self (CilkBookFormatter.leading_newlines value)
  = Some (replace nl ("\par" +:+ String nl "")
            (CilkBookFormatter.leading_newlines value)).
Proof. apply escape_text_newline_run, leading_newlines_all. Qed.

End facts.
End RtfEscape.

Module RtfFacts.
Import Token TokenFacts CHRtfFormatter.

Section facts.
Context (self : formatter) (cm : gmap string nat).

Lemma rtf_set_skiptoken_id st : set_skiptoken (skiptoken st) st = st.
Proof. by destruct st. Qed.

Lemma rtf_step_end st t v :
  t ∈t Comment_Invisible_End →
  step self cm st (t, v) = ("", Some (set_skiptoken false st)).
Proof. intros Ht. unfold step. by rewrite Ht. Qed.

Lemma rtf_step_begin st t v :
  t ∈t Comment_Invisible_Begin →
  step self cm st (t, v) = ("", Some (set_skiptoken true st)).
Proof.
  intros Ht. unfold step. by rewrite (begin_not_end t Ht), Ht.
Qed.

Lemma rtf_step_skipped st t v :
  skiptoken st = true → contains Comment_Invisible_End t = false →
  step self cm st (t, v) = ("", Some st).
Proof.
  intros Hst Ht. unfold step. rewrite Ht, Hst.
  destruct (contains Comment_Invisible_Begin t); [|done].
  by rewrite <- Hst, rtf_set_skiptoken_id.
Qed.

Lemma rtf_run_app st l1 l2 :
  run self cm st (l1 ++ l2) =
    match run self cm st l1 with
    | (o1, Some st1) =>
        let '(o2, r) := run self cm st1 l2 in (o1 ++ o2, r)
    | (o1, None) => (o1, None)
    end.
Proof.
  revert st. induction l1 as [|tok l1 IH]; intros st; cbn [run app].
  - by destruct (run self cm st l2).
  - destruct (step self cm st tok) as [out [st1|]]; [|done].
    rewrite IH. destruct (run self cm st1 l1) as [o1 [st2|]]; [|done].
    by destruct (run self cm st2 l2).
Qed.

Lemma rtf_run_length st l st' :
  (run self cm st l).2 = Some st' →
  length (run self cm st l).1 = length l.
Proof.
  revert st. induction l as [|tok l IH]; intros st; cbn [run]; [done|].
  destruct (step self cm st tok) as [out [st1|]]; [|done].
  specialize (IH st1). destruct (run self cm st1 l). cbn in *.
  intros H. by rewrite IH.
Qed.

Lemma rtf_run_skipped st l :
  skiptoken st = true →
  Forall (λ tok, ¬ tok.1 ∈t Comment_Invisible_End) l →
  run self cm st l = (replicate (length l) "", Some st).
Proof.
  intros Hst. induction 1 as [|[t v] l Ht _ IH]; [done|].
  cbn [run]. rewrite rtf_step_skipped, IH; [done..|].
  by apply not_true_is_false.
Qed.

Lemma rtf_run_region st tb mid te :
  tb.1 ∈t Comment_Invisible_Begin → te.1 ∈t Comment_Invisible_End →
  Forall (λ tok, ¬ tok.1 ∈t Comment_Invisible_End) mid →
  run self cm st (tb :: mid ++ [te]) =
    (replicate (S (S (length mid))) "",
     Some (set_skiptoken false (set_skiptoken true st))).
Proof.
  intros Hb He Hmid. destruct tb as [tb vb], te as [te ve].
  cbn [run]. rewrite rtf_step_begin by done.
  rewrite rtf_run_app, rtf_run_skipped by done. cbn [run].
  rewrite rtf_step_end by done.
  cbn [replicate app]. by rewrite <- replicate_cons_app.
Qed.

Lemma rtf_run_markers st ms m :
  Forall (λ tok, tok.1 ∈t Comment_Invisible_Begin
                 ∨ tok.1 ∈t Comment_Invisible_End) ms →
  last ms = Some m →
  ∃ st', run self cm st ms = (replicate (length ms) "", Some st')
         ∧ skiptoken st' = contains Comment_Invisible_Begin m.1.
Proof.
  revert st. induction ms as [|[t v] ms IH]; intros st Hms Hlast; [done|].
  apply Forall_cons in Hms as [Ht Hms]. cbn [run].
  assert (∃ b, step self cm st (t, v) = ("", Some (set_skiptoken b st))
               ∧ b = contains Comment_Invisible_Begin t) as (b & -> & Hb).
  { destruct Ht as [Ht|Ht]; cbn [fst] in Ht.
    - exists true. by rewrite rtf_step_begin, Ht.
    - exists false. by rewrite rtf_step_end, (end_not_begin t Ht). }
  destruct ms as [|m' ms].
  - injection Hlast as <-. by eexists.
  - destruct (IH (set_skiptoken b st) Hms Hlast) as (st' & -> & Hst').
    by eexists.
Qed.

Lemma rtf_reindent_head_not_text st t value :
  is_ t Text = false →
  (reindent_head self st t value).2
  = _escape_text self (CilkBookFormatter.leading_newlines value).
Proof.
  intros Ht.
  unfold reindent_head, CilkBookFormatter.leading_newlines,
    match_newlines, CilkBookFormatter.match_newlines.
  rewrite Ht. destruct (find_next_indent st);
    destruct (Py.span (Ascii.eqb Py.nl) value) as [nls rest];
    destruct nls; cbn; try done;
    by destruct (newline _).
Qed.

Lemma rtf_step_invisible st t value :
  skiptoken st = false → t ∈t Comment_Invisible →
  contains Comment_Invisible_Begin t = false →
  contains Comment_Invisible_End t = false →
  step self cm st (t, value) =
    if reindent self
    then (Py.replace Py.nl ("\par" +:+ String Py.nl "")
            (CilkBookFormatter.leading_newlines value),
          Some (reindent_head self st t value).1.1)
    else ("", Some st).
Proof.
  intros Hst Ht Hb He. unfold step. rewrite He, Hb, Hst.
  destruct (reindent self); [|by rewrite Ht].
  pose proof (rtf_reindent_head_not_text st t value
                (invisible_not_text t Ht)) as Hhead.
  rewrite RtfEscape.escape_text_leading_newlines in Hhead.
  destruct (reindent_head self st t value) as [[st1 v1] w].
  cbn [fst snd] in *. subst w. by rewrite Ht.
Qed.

Lemma write_lines_more line line' spl st :
  write_lines self (line :: line' :: spl) st =
    match (if String.eqb line "" then Some ""
           else _escape_text self
                  (if reindent self && newline st
                   then strip_indent (initialindent st) line else line)) with
    | None => (None, "")
    | Some out =>
        let '(r, out') :=
          write_lines self (line' :: spl) (set_newline true st) in
        (r, (out +:+ "\par" +:+ String Py.nl "") +:+ out')
    end.
Proof. done. Qed.

Lemma write_lines_baseline spl st st' :
  (write_lines self spl st).1 = Some st' →
  skiptoken st' = skiptoken st
  ∧ find_next_indent st' = find_next_indent st
  ∧ initialindent st' = initialindent st.
Proof.
  revert st. induction spl as [|line [|line' spl] IH]; intros st.
  - by intros [= <-].
  - cbn [write_lines]. destruct (String.eqb line ""); [by intros [= <-]|].
    destruct (_escape_text self _); [|done]. by intros [= <-].
  - rewrite write_lines_more. specialize (IH (set_newline true st)).
    destruct (if String.eqb line "" then _ else _); [|done].
    destruct (write_lines _ (line' :: spl) _) as [r out'].
    apply IH.
Qed.

Lemma rtf_reindent_head_baseline st t value :
  find_next_indent st = false →
  let st' := (reindent_head self st t value).1.1 in
  skiptoken st' = skiptoken st
  ∧ find_next_indent st' = false
  ∧ initialindent st' = initialindent st.
Proof.
  intros Hst. unfold reindent_head. rewrite Hst.
  destruct (match_newlines value) as [[nls rest]|]; [done|].
  by destruct (newline st).
Qed.

Lemma rtf_step_baseline st tok st' :
  find_next_indent st = false →
  (step self cm st tok).2 = Some st' →
  find_next_indent st' = false ∧ initialindent st' = initialindent st.
Proof.
  intros Hst. destruct tok as [t value]. unfold step.
  destruct (contains Comment_Invisible_End t); [by intros [= <-]|].
  destruct (contains Comment_Invisible_Begin t); [by intros [= <-]|].
  destruct (skiptoken st); [by intros [= <-]|].
  assert (∃ st1 v1 h1,
             (if reindent self then reindent_head self st t value
              else (st, value, Some "")) = (st1, v1, h1)
             ∧ find_next_indent st1 = false
             ∧ initialindent st1 = initialindent st)
    as (st1 & v1 & h1 & -> & Hf & Hi).
  { destruct (reindent self); [|by eauto 10].
    pose proof (rtf_reindent_head_baseline st t value Hst) as (_ & ? & ?).
    destruct (reindent_head self st t value) as [[st1 v1] h1].
    by eauto 10. }
  destruct h1 as [head|]; [|done].
  destruct (contains Comment_Invisible t); [by intros [= <-]|].
  assert (∃ st2 v2,
             (if contains Comment_PureTeX t
              then (set_newline true st1, Py.only Py.nl v1)
              else (st1, v1)) = (st2, v2)
             ∧ find_next_indent st2 = false
             ∧ initialindent st2 = initialindent st)
    as (st2 & v2 & -> & Hf2 & Hi2).
  { destruct (contains Comment_PureTeX t); by eauto 10. }
  destruct (_ ≫= _); [|done].
  pose proof (write_lines_baseline (Py.split Py.nl v2) st2) as Hw.
  destruct (write_lines self (Py.split Py.nl v2) st2) as [[st3|] body];
    [|done].
  destruct (Hw st3 eq_refl) as (_ & ? & ?).
  cbn [fst snd] in *. intros [= <-]. split; congruence.
Qed.

Lemma rtf_run_baseline st l st' :
  find_next_indent st = false →
  (run self cm st l).2 = Some st' →
  find_next_indent st' = false ∧ initialindent st' = initialindent st.
Proof.
  revert st. induction l as [|tok l IH]; intros st Hst.
  { by intros [= <-]. }
  cbn [run]. pose proof (rtf_step_baseline st tok) as Hstep.
  destruct (step self cm st tok) as [out [st1|]]; [|done].
  destruct (Hstep st1 Hst eq_refl) as [Hf Hi].
  specialize (IH st1 Hf). destruct (run self cm st1 l) as [outs r].
  cbn [snd] in *. intros Hr. destruct (IH Hr). split; congruence.
Qed.

End facts.
End RtfFacts.

(** C1. In both formatters, whatever the state the loop is in (so also from
    the start, with hide-by-default unset), the token at any position from
    a begin marker to the next end marker, markers included, writes no
    character.  [i] ranges over those positions of the token sequence; for
    the RTF loop, [pre] is processed without error, so that the region is
    reached. *)
Theorem hidden_region_writes_nothing
    (STANDARD_TYPES : gmap Token.ttype string)
    (tex : CilkBookFormatter.formatter) (st_tex : CilkBookFormatter.state)
    (rtf : CHRtfFormatter.formatter) (color_mapping : gmap string nat)
    (st_rtf : CHRtfFormatter.state)
    (pre mid post : list Token.token) (tb te : Token.token) (i : nat)
    (Hb : tb.1 ∈t Token.Comment_Invisible_Begin)
    (He : te.1 ∈t Token.Comment_Invisible_End)
    (Hmid : Forall (λ tok, ¬ tok.1 ∈t Token.Comment_Invisible_End) mid)
    (Hi : length pre ≤ i ≤ length pre + S (length mid))
    (Hpre : (CHRtfFormatter.run rtf color_mapping st_rtf pre).2 ≠ None) :
  let tokensource := pre ++ (tb :: mid ++ [te]) ++ post in
  (CilkBookFormatter.run STANDARD_TYPES tex st_tex tokensource).2 !! i
    = Some ""
  ∧ (CHRtfFormatter.run rtf color_mapping st_rtf tokensource).1 !! i
    = Some "".
Proof.
  intros toks. subst toks. split.
  - rewrite TexFacts.tex_run_app.
    pose proof (TexFacts.tex_run_length STANDARD_TYPES tex st_tex pre) as Hlen.
    destruct (CilkBookFormatter.run _ _ st_tex pre) as [st1 o1].
    rewrite TexFacts.tex_run_app, TexFacts.tex_run_region by done.
    destruct (CilkBookFormatter.run _ _ _ post) as [st3 o3]. cbn [fst snd] in *.
    rewrite lookup_app_r by lia.
    rewrite lookup_app_l by (rewrite length_replicate; lia).
    apply lookup_replicate_2. lia.
  - rewrite RtfFacts.rtf_run_app.
    pose proof (RtfFacts.rtf_run_length rtf color_mapping st_rtf pre) as Hlen.
    destruct (CHRtfFormatter.run _ _ st_rtf pre) as [o1 [st1|]]; [|done].
    specialize (Hlen st1 eq_refl).
    rewrite RtfFacts.rtf_run_app, RtfFacts.rtf_run_region by done.
    destruct (CHRtfFormatter.run _ _ _ post) as [o3 r3]. cbn [fst snd] in *.
    rewrite lookup_app_r by lia.
    rewrite lookup_app_l by (rewrite length_replicate; lia).
    apply lookup_replicate_2. lia.
Qed.

Lemma hidden_region_writes_nothing_witness :
  let tokensource :=
    Sample.hidden_pre
      ++ (Sample.hidden_begin :: Sample.hidden_mid ++ [Sample.hidden_end])
      ++ Sample.hidden_post in
  (CilkBookFormatter.run Sample.STANDARD_TYPES Sample.tex
     (CilkBookFormatter.initial Sample.tex) tokensource).2 !! 6 = Some ""
  ∧ (CHRtfFormatter.run Sample.rtf Sample.color_mapping
       (CHRtfFormatter.initial Sample.rtf) tokensource).1 !! 6 = Some "".
Proof.
  apply (hidden_region_writes_nothing Sample.STANDARD_TYPES Sample.tex
           (CilkBookFormatter.initial Sample.tex) Sample.rtf
           Sample.color_mapping (CHRtfFormatter.initial Sample.rtf)
           Sample.hidden_pre Sample.hidden_mid Sample.hidden_post
           Sample.hidden_begin Sample.hidden_end 6).
  - reflexivity.
  - reflexivity.
  - repeat constructor; vm_compute; discriminate.
  - vm_compute. lia.
  - vm_compute. discriminate.
Defined.

(** Runs the loops over leading marker tokens. *)
Ltac step_markers :=
  repeat (first [ rewrite TexFacts.tex_step_begin by done
                | rewrite TexFacts.tex_step_end by done
                | rewrite RtfFacts.rtf_step_begin by done
                | rewrite RtfFacts.rtf_step_end by done ];
          cbv beta iota).

(** C7. In both formatters the suppression flag after marker tokens is the
    one the last marker sets: begin, begin, end leaves the flag as begin,
    end does; an end marker met with the flag unset and a begin marker met
    with the flag set write nothing and leave the state as it is; and after
    any run of markers the flag is set exactly when the last one is a begin
    marker.  No marker raises: the RTF loop, which can, ends in a state. *)
Theorem suppression_follows_last_marker
    (STANDARD_TYPES : gmap Token.ttype string)
    (tex : CilkBookFormatter.formatter) (st_tex : CilkBookFormatter.state)
    (rtf : CHRtfFormatter.formatter) (color_mapping : gmap string nat)
    (st_rtf : CHRtfFormatter.state)
    (b b' e m : Token.token) (markers : list Token.token)
    (Hb : b.1 ∈t Token.Comment_Invisible_Begin)
    (Hb' : b'.1 ∈t Token.Comment_Invisible_Begin)
    (He : e.1 ∈t Token.Comment_Invisible_End)
    (Hmarkers : Forall (λ tok, tok.1 ∈t Token.Comment_Invisible_Begin
                               ∨ tok.1 ∈t Token.Comment_Invisible_End)
                  markers)
    (Hlast : last markers = Some m) :
  let tex_run := CilkBookFormatter.run STANDARD_TYPES tex in
  let tex_step := CilkBookFormatter.step STANDARD_TYPES tex in
  let rtf_run := CHRtfFormatter.run rtf color_mapping in
  let rtf_step := CHRtfFormatter.step rtf color_mapping in
  let shown_tex := CilkBookFormatter.set_skiptoken false st_tex in
  let hidden_tex := CilkBookFormatter.set_skiptoken true st_tex in
  let shown_rtf := CHRtfFormatter.set_skiptoken false st_rtf in
  let hidden_rtf := CHRtfFormatter.set_skiptoken true st_rtf in
  (tex_run st_tex [b; b'; e] = (shown_tex, [""; ""; ""])
   ∧ tex_run st_tex [b; e] = (shown_tex, [""; ""])
   ∧ tex_step shown_tex e = (shown_tex, "")
   ∧ tex_step hidden_tex b = (hidden_tex, "")
   ∧ CilkBookFormatter.skiptoken (tex_run st_tex markers).1
     = Token.contains Token.Comment_Invisible_Begin m.1)
  ∧ (rtf_run st_rtf [b; b'; e] = (["";"";""], Some shown_rtf)
     ∧ rtf_run st_rtf [b; e] = ([""; ""], Some shown_rtf)
     ∧ rtf_step shown_rtf e = ("", Some shown_rtf)
     ∧ rtf_step hidden_rtf b = ("", Some hidden_rtf)
     ∧ ∃ st', (rtf_run st_rtf markers).2 = Some st'
              ∧ CHRtfFormatter.skiptoken st'
                = Token.contains Token.Comment_Invisible_Begin m.1).
Proof.
  destruct b as [tb vb], b' as [tb' vb'], e as [te ve]. cbn [fst] in *.
  cbv zeta. split; split_and!.
  - cbn [CilkBookFormatter.run]. step_markers. by destruct st_tex.
  - cbn [CilkBookFormatter.run]. step_markers. by destruct st_tex.
  - by rewrite TexFacts.tex_step_end.
  - by rewrite TexFacts.tex_step_begin.
  - by apply TexFacts.tex_run_markers.
  - cbn [CHRtfFormatter.run]. step_markers. by destruct st_rtf.
  - cbn [CHRtfFormatter.run]. step_markers. by destruct st_rtf.
  - by rewrite RtfFacts.rtf_step_end.
  - by rewrite RtfFacts.rtf_step_begin.
  - destruct (RtfFacts.rtf_run_markers rtf color_mapping st_rtf markers m)
      as (st' & -> & Hst'); by eauto.
Qed.

Lemma suppression_follows_last_marker_witness :
  let markers := [Sample.hidden_begin; Sample.hidden_end; Sample.hidden_begin] in
  CilkBookFormatter.skiptoken
    (CilkBookFormatter.run Sample.STANDARD_TYPES Sample.tex
       (CilkBookFormatter.initial Sample.tex) markers).1 = true
  ∧ ∃ st',
      (CHRtfFormatter.run Sample.rtf Sample.color_mapping
         (CHRtfFormatter.initial Sample.rtf) markers).2 = Some st'
      ∧ CHRtfFormatter.skiptoken st' = true.
Proof.
  intros markers.
  assert (Forall (λ tok, tok.1 ∈t Token.Comment_Invisible_Begin
                         ∨ tok.1 ∈t Token.Comment_Invisible_End) markers)
    as Hmarkers.
  { repeat constructor; (by left) || (by right). }
  pose proof (suppression_follows_last_marker Sample.STANDARD_TYPES
                Sample.tex (CilkBookFormatter.initial Sample.tex)
                Sample.rtf Sample.color_mapping
                (CHRtfFormatter.initial Sample.rtf)
                Sample.hidden_begin Sample.hidden_begin Sample.hidden_end
                Sample.hidden_begin markers
                eq_refl eq_refl eq_refl Hmarkers eq_refl) as H.
  cbv zeta in H. destruct H as [(_ & _ & _ & _ & Htex) (_ & _ & _ & _ & Hrtf)].
  split; [exact Htex | exact Hrtf].
Defined.

(** C2, as stated, fails: with [reindent] unset, the shown token
    [/// Types: Foo Bar] of category [Comment.Invisible], which is not pure
    markup and whose text ends in a newline, makes neither formatter write
    anything, so the two input lines [/// Types: Foo Bar] and [Foo x;]
    become one output line. *)
Lemma invisible_newlines_not_kept :
  let tex_st := CilkBookFormatter.initial Sample.tex in
  let rtf_st := CHRtfFormatter.initial Sample.rtf in
  let tex_out tok :=
    (CilkBookFormatter.step Sample.STANDARD_TYPES Sample.tex tex_st tok).2 in
  let rtf_out tok :=
    (CHRtfFormatter.step Sample.rtf Sample.color_mapping rtf_st tok).1 in
  let t := Sample.types_comment.1 in
  let value := Sample.types_comment.2 in
  (t ∈t Token.Comment_Invisible
   ∧ Token.contains Token.Comment_PureTeX t = false
   ∧ CilkBookFormatter.skiptoken tex_st = false
   ∧ CHRtfFormatter.skiptoken rtf_st = false)
  ∧ ¬ keeps_newlines (tex_out Sample.types_comment) value
  ∧ ¬ keeps_newlines (rtf_out Sample.types_comment) value
  ∧ ¬ keeps_newlines
        (Py.concat (CilkBookFormatter.run Sample.STANDARD_TYPES Sample.tex
                      tex_st Sample.types_lines).2)
        (Py.concat Sample.types_lines.*2)
  ∧ ¬ keeps_newlines
        (Py.concat (CHRtfFormatter.run Sample.rtf Sample.color_mapping
                      rtf_st Sample.types_lines).1)
        (Py.concat Sample.types_lines.*2).
Proof. cbv zeta. unfold keeps_newlines. by split_and!; vm_compute. Qed.

(** C2, amended.  A shown token under [Comment.Invisible] that is no marker
    is dropped whole, newlines included: with [reindent] unset it writes
    nothing and leaves the state of the loop as it is; with [reindent] set
    it writes the newlines its text starts with, each as a paragraph break
    in RTF, and nothing else.  It never raises. *)
Theorem invisible_token_dropped
    (STANDARD_TYPES : gmap Token.ttype string)
    (tex : CilkBookFormatter.formatter) (st_tex : CilkBookFormatter.state)
    (rtf : CHRtfFormatter.formatter) (color_mapping : gmap string nat)
    (st_rtf : CHRtfFormatter.state)
    (t : Token.ttype) (value : string)
    (Hshown_tex : CilkBookFormatter.skiptoken st_tex = false)
    (Hshown_rtf : CHRtfFormatter.skiptoken st_rtf = false)
    (Ht : t ∈t Token.Comment_Invisible)
    (Hb : ¬ t ∈t Token.Comment_Invisible_Begin)
    (He : ¬ t ∈t Token.Comment_Invisible_End) :
  let nls := CilkBookFormatter.leading_newlines value in
  CilkBookFormatter.step STANDARD_TYPES tex st_tex (t, value)
  = (if CilkBookFormatter.reindent tex
     then ((CilkBookFormatter.reindent_head st_tex t value).1.1, nls)
     else (st_tex, ""))
  ∧ CHRtfFormatter._escape_text rtf nls
    = Some (Py.replace Py.nl ("\par" +:+ Sample.NL) nls)
  ∧ CHRtfFormatter.step rtf color_mapping st_rtf (t, value)
    = (if CHRtfFormatter.reindent rtf
       then (Py.replace Py.nl ("\par" +:+ Sample.NL) nls,
             Some (CHRtfFormatter.reindent_head rtf st_rtf t value).1.1)
       else ("", Some st_rtf)).
Proof.
  apply not_true_is_false in Hb, He. split; [|split].
  - by apply TexFacts.tex_step_invisible.
  - apply RtfEscape.escape_text_leading_newlines.
  - by apply RtfFacts.rtf_step_invisible.
Qed.

Lemma invisible_token_dropped_witness :
  CilkBookFormatter.step Sample.STANDARD_TYPES Sample.tex
    (CilkBookFormatter.initial Sample.tex) Sample.types_comment
  = (CilkBookFormatter.initial Sample.tex, "")
  ∧ CHRtfFormatter.step Sample.rtf Sample.color_mapping
      (CHRtfFormatter.initial Sample.rtf) Sample.types_comment
    = ("", Some (CHRtfFormatter.initial Sample.rtf)).
Proof.
  destruct (invisible_token_dropped Sample.STANDARD_TYPES Sample.tex
              (CilkBookFormatter.initial Sample.tex) Sample.rtf
              Sample.color_mapping (CHRtfFormatter.initial Sample.rtf)
              Sample.types_comment.1 Sample.types_comment.2)
    as (Htex & _ & Hrtf); [by vm_compute..|].
  split; [exact Htex|exact Hrtf].
Defined.

(** C5 fails on the code.  With [reindent] set, the baseline is captured
    from the first shown token only: once [find_next_indent] is unset, no
    token, end markers included, sets it again or changes [initialindent],
    in either formatter.  On two shown regions around a hidden one, the
    first indented by four spaces and the second by two, the baseline stays
    the four spaces of the first region, and the first line of the second
    region is written with its two spaces. *)
Theorem baseline_captured_once
    (STANDARD_TYPES : gmap Token.ttype string)
    (tex : CilkBookFormatter.formatter) (st_tex : CilkBookFormatter.state)
    (rtf : CHRtfFormatter.formatter) (color_mapping : gmap string nat)
    (st_rtf : CHRtfFormatter.state) (tokensource : list Token.token) :
  (let st := CilkBookFormatter.set_find_next_indent false st_tex in
   let st' := (CilkBookFormatter.run STANDARD_TYPES tex st tokensource).1 in
   CilkBookFormatter.find_next_indent st' = false
   ∧ CilkBookFormatter.initialindent st'
     = CilkBookFormatter.initialindent st_tex)
  ∧ (let st := CHRtfFormatter.set_find_next_indent false st_rtf in
     ∀ st', (CHRtfFormatter.run rtf color_mapping st tokensource).2 = Some st' →
            CHRtfFormatter.find_next_indent st' = false
            ∧ CHRtfFormatter.initialindent st'
              = CHRtfFormatter.initialindent st_rtf)
  ∧ (let r := CilkBookFormatter.run Sample.STANDARD_TYPES Sample.tex_reindent
                (CilkBookFormatter.initial Sample.tex_reindent)
                Sample.two_regions in
     CilkBookFormatter.initialindent r.1 = "    "
     ∧ r.2 = [""; "\PY{n}{a}"; Sample.NL; ""; ""; ""; "";
              "  "; "\PY{n}{b}"; Sample.NL])
  ∧ (let r := CHRtfFormatter.run Sample.rtf_reindent Sample.color_mapping
                (CHRtfFormatter.initial Sample.rtf_reindent)
                Sample.two_regions in
     CHRtfFormatter.initialindent <$> r.2 = Some "    "
     ∧ r.1 = [""; "a"; "\par" +:+ Sample.NL; ""; ""; ""; "";
              "  "; "b"; "\par" +:+ Sample.NL])
  ∧ CilkBookFormatter.format_unencoded Sample.STANDARD_TYPES
      Sample.tex_reindent Sample.two_regions
    = "\begin{Verbatim}[commandchars=\\\{\}]" +:+ Sample.NL
      +:+ "\PY{n}{a}" +:+ Sample.NL
      +:+ "  \PY{n}{b}" +:+ Sample.NL
      +:+ "\end{Verbatim}" +:+ Sample.NL
  ∧ CHRtfFormatter.format_unencoded Sample.rtf_reindent Sample.two_regions
    = Some ("{\rtf1\ansi\deff0{\fonttbl{\f0\fmodern\fprq1\fcharset0;}}"
            +:+ "{\colortbl;\red255\green0\blue0;}\f0"
            +:+ "a\par" +:+ Sample.NL +:+ "  b\par" +:+ Sample.NL +:+ "}").
Proof.
  split_and!.
  - intros st st'. by apply (TexFacts.tex_run_baseline STANDARD_TYPES tex st).
  - intros st st' Hrun.
    by apply (RtfFacts.rtf_run_baseline rtf color_mapping st tokensource st').
  - by vm_compute.
  - by vm_compute.
  - by vm_compute.
  - by vm_compute.
Qed.

(** ** Regular expressions *)

Module ReFacts.
Import Re PyFacts.

Lemma exec_Seq_inv r1 r2 st c st' :
  (c, st') ∈ exec (Seq r1 r2) st →
  ∃ c1 st1 c2,
    (c1, st1) ∈ exec r1 st ∧ (c2, st') ∈ exec r2 st1 ∧ c = c1 +:+ c2.
Proof.
  cbn [exec]. intros ([c1 st1] & H & H1)%list_elem_of_bind.
  apply list_elem_of_bind in H as ([c2 st2] & H & H2).
  apply list_elem_of_singleton in H. injection H as -> ->. by eauto 10.
Qed.

Lemma exec_Class_inv p st c st' :
  (c, st') ∈ exec (Class p) st →
  ∃ ch, c = String ch "" ∧ p ch = true ∧ groups st' = groups st.
Proof.
  cbn [exec]. destruct (rest st) as [|ch s']; [by intros ?%elem_of_nil|].
  destruct (p ch) eqn:Hp; [|by intros ?%elem_of_nil].
  intros H%list_elem_of_singleton. injection H as -> ->. by eauto.
Qed.

Lemma exec_Group_inv n r st c st' :
  (c, st') ∈ exec (Group n r) st →
  ∃ st1, (c, st1) ∈ exec r st ∧ groups st' = <[n := c]> (groups st1).
Proof.
  cbn [exec]. intros ([c1 st1] & H & H1)%list_elem_of_fmap.
  injection H as -> ->. by eauto.
Qed.

Lemma star_groups greedy body fuel st c st' :
  (∀ st c st', (c, st') ∈ body st → groups st' = groups st) →
  (c, st') ∈ star greedy body fuel st → groups st' = groups st.
Proof.
  intros Hbody. revert st c st'.
  induction fuel as [|fuel IH]; intros st c st'.
  { by intros [= _ ->]%list_elem_of_singleton. }
  cbn [star].
  set (more := body st ≫= _).
  assert ((c, st') ∈ more → groups st' = groups st) as Hmore.
  { intros ([c1 st1] & H & H1)%list_elem_of_bind.
    destruct (String.eqb c1 ""); [by apply elem_of_nil in H|].
    apply list_elem_of_bind in H as ([c2 st2] & H & H2).
    apply list_elem_of_singleton in H. injection H as -> ->.
    rewrite (IH _ _ _ H2). by eapply Hbody. }
  destruct greedy.
  - intros [H|[= _ ->]%list_elem_of_singleton]%elem_of_app; auto.
  - intros [[= _ ->]|H]%elem_of_cons; auto.
Qed.

(** Matching a pattern without groups leaves the groups as they are. *)
Lemma exec_groupless r st c st' :
  groupless r = true → (c, st') ∈ exec r st → groups st' = groups st.
Proof.
  revert st c st'.
  induction r as [| |p|r1 IH1 r2 IH2|r1 IH1 r2 IH2|greedy r IH|n r IH];
    intros st c st'; cbn [groupless]; intros Hr.
  - by intros [= _ ->]%list_elem_of_singleton.
  - cbn [exec]. destruct (prev st) as [ch|];
      [destruct (Ascii.eqb ch Py.nl)|];
      by (intros ?%elem_of_nil || intros [= _ ->]%list_elem_of_singleton).
  - by intros (? & _ & _ & ?)%exec_Class_inv.
  - apply andb_true_iff in Hr as [Hr1 Hr2].
    intros (c1 & st1 & c2 & H1 & H2 & _)%exec_Seq_inv.
    by rewrite (IH2 _ _ _ Hr2 H2), (IH1 _ _ _ Hr1 H1).
  - apply andb_true_iff in Hr as [Hr1 Hr2]. cbn [exec].
    intros [H|H]%elem_of_app; eauto.
  - cbn [exec]. apply star_groups. intros ???. by apply IH.
  - done.
Qed.

Lemma app_not_empty_r s t : t ≠ "" → s +:+ t ≠ "".
Proof. by destruct s, t. Qed.

Lemma app_not_empty_l s t : s ≠ "" → s +:+ t ≠ "".
Proof. by destruct s. Qed.

Lemma match_elem r before text m :
  match_ r before text = Some m →
  ∃ c st, (c, st) ∈ exec r {| prev := before; rest := text; groups := ∅ |}
          ∧ m = <[0 := c]> (groups st).
Proof.
  unfold match_. destruct (exec r _) as [|[c st] l]; [done|].
  intros [= <-]. exists c, st. split; [|done]. by left.
Qed.

End ReFacts.

(** ** The lexer *)

Module LexerFacts.
Import Token Re ReFacts CilkLexer.

Lemma exec_Lit_not_empty c s st x st' :
  (x, st') ∈ exec (Lit (String c s)) st → x ≠ "".
Proof.
  cbn [Lit]. intros (c1 & st1 & c2 & H1 & _ & ->)%exec_Seq_inv.
  apply exec_Class_inv in H1 as (ch & -> & _). done.
Qed.

(** When the [#line] rule matches, both its groups are non-empty, so it
    yields a begin marker followed by an end marker. *)
Lemma line_rule_tokens before text toks :
  line_rule before text = Some toks →
  ∃ g1 g2, toks = [(Comment_Invisible_Begin, g1);
                   (Comment_Invisible_End, g2)].
Proof.
  unfold line_rule.
  destruct (match_ line_regex before text) as [m|] eqn:Hm; [|done].
  intros [= <-]. apply match_elem in Hm as (c & st & Hin & ->).
  apply exec_Seq_inv in Hin as (c0 & st0 & c' & _ & Hin & _).
  apply exec_Seq_inv in Hin as (cA & stA & cB & HA & HB & _).
  apply exec_Group_inv in HA as (stA1 & HA & HgA).
  apply exec_Group_inv in HB as (stB1 & HB & HgB).
  assert (cA ≠ "") as HcA.
  { apply exec_Seq_inv in HA as (cw & stw & cl & _ & Hl & ->).
    by eapply app_not_empty_r, exec_Lit_not_empty. }
  assert (cB ≠ "") as HcB.
  { pose proof HB as (cs & sts & cd & _ & Hd & ->)%exec_Seq_inv.
    apply exec_Seq_inv in Hd as (c1 & st1 & c2 & _ & Hn & ->).
    apply exec_Class_inv in Hn as (ch & -> & _).
    by apply app_not_empty_r, app_not_empty_r. }
  apply exec_groupless in HB; [|done].
  exists cA, cB. unfold bygroups, group. cbn [imap flat_map app compose].
  rewrite HgB, HB, HgA.
  rewrite (lookup_insert_ne _ 0 1), (lookup_insert_ne _ 2 1),
    lookup_insert_eq by done.
  rewrite (lookup_insert_ne _ 0 2), lookup_insert_eq by done.
  apply String.eqb_neq in HcA, HcB. cbn [from_option id]. by rewrite HcA, HcB.
Qed.

End LexerFacts.

(** C9. Whenever the [#line] rule matches, at any position of any text, it
    yields a begin marker followed by an end marker, and after the two
    tokens [skiptoken] is unset in both formatters, whatever state the loop
    was in: with hide-by-default set or inside a hidden region the
    directive ends the suppression.  The two tokens write nothing, the
    RTF loop does not raise on them, and the rest of the state is as it
    was. *)
Theorem line_directive_ends_suppression
    (STANDARD_TYPES : gmap Token.ttype string)
    (tex : CilkBookFormatter.formatter) (st_tex : CilkBookFormatter.state)
    (rtf : CHRtfFormatter.formatter) (color_mapping : gmap string nat)
    (st_rtf : CHRtfFormatter.state)
    (before : option ascii) (text : string) (toks : list Token.token)
    (Hmatch : CilkLexer.line_rule before text = Some toks) :
  (∃ g1 g2, toks = [(Token.Comment_Invisible_Begin, g1);
                    (Token.Comment_Invisible_End, g2)])
  ∧ CilkBookFormatter.run STANDARD_TYPES tex st_tex toks
    = (CilkBookFormatter.set_skiptoken false st_tex, [""; ""])
  ∧ CHRtfFormatter.run rtf color_mapping st_rtf toks
    = ([""; ""], Some (CHRtfFormatter.set_skiptoken false st_rtf))
  ∧ (∃ st',
       CilkBookFormatter.run STANDARD_TYPES tex st_tex toks = (st', [""; ""])
       ∧ CilkBookFormatter.skiptoken st' = false
       ∧ CilkBookFormatter.initialindent st'
         = CilkBookFormatter.initialindent st_tex
       ∧ CilkBookFormatter.find_next_indent st'
         = CilkBookFormatter.find_next_indent st_tex
       ∧ CilkBookFormatter.newline st' = CilkBookFormatter.newline st_tex
       ∧ CilkBookFormatter.wrotelines st'
         = CilkBookFormatter.wrotelines st_tex)
  ∧ (∃ st',
       CHRtfFormatter.run rtf color_mapping st_rtf toks
       = ([""; ""], Some st')
       ∧ CHRtfFormatter.skiptoken st' = false
       ∧ CHRtfFormatter.initialindent st'
         = CHRtfFormatter.initialindent st_rtf
       ∧ CHRtfFormatter.find_next_indent st'
         = CHRtfFormatter.find_next_indent st_rtf
       ∧ CHRtfFormatter.newline st' = CHRtfFormatter.newline st_rtf).
Proof.
  destruct (LexerFacts.line_rule_tokens before text toks Hmatch)
    as (g1 & g2 & ->).
  assert (CilkBookFormatter.run STANDARD_TYPES tex st_tex
            [(Token.Comment_Invisible_Begin, g1);
             (Token.Comment_Invisible_End, g2)]
          = (CilkBookFormatter.set_skiptoken false st_tex, [""; ""]))
    as Htex.
  { cbn [CilkBookFormatter.run]. step_markers. by destruct st_tex. }
  assert (CHRtfFormatter.run rtf color_mapping st_rtf
            [(Token.Comment_Invisible_Begin, g1);
             (Token.Comment_Invisible_End, g2)]
          = ([""; ""], Some (CHRtfFormatter.set_skiptoken false st_rtf)))
    as Hrtf.
  { cbn [CHRtfFormatter.run]. step_markers. by destruct st_rtf. }
  split_and!; [by eauto|done|done|..].
  - exists (CilkBookFormatter.set_skiptoken false st_tex). by split_and!.
  - exists (CHRtfFormatter.set_skiptoken false st_rtf). by split_and!.
Qed.

Lemma line_directive_ends_suppression_witness :
  let hidden_tex :=
    {| CilkBookFormatter.skiptoken := true;
       CilkBookFormatter.initialindent := "  ";
       CilkBookFormatter.find_next_indent := false;
       CilkBookFormatter.newline := true;
       CilkBookFormatter.wrotelines := true |} in
  let hidden_rtf :=
    {| CHRtfFormatter.skiptoken := true;
       CHRtfFormatter.initialindent := "  ";
       CHRtfFormatter.find_next_indent := false;
       CHRtfFormatter.newline := true |} in
  let toks := [(Token.Comment_Invisible_Begin, " #line");
               (Token.Comment_Invisible_End, " 5" +:+ Sample.NL)] in
  CilkLexer.line_rule None (" #line 5" +:+ Sample.NL +:+ "int x;") = Some toks
  ∧ CilkBookFormatter.run Sample.STANDARD_TYPES Sample.tex hidden_tex toks
    = ({| CilkBookFormatter.skiptoken := false;
          CilkBookFormatter.initialindent := "  ";
          CilkBookFormatter.find_next_indent := false;
          CilkBookFormatter.newline := true;
          CilkBookFormatter.wrotelines := true |}, [""; ""])
  ∧ CHRtfFormatter.run Sample.rtf Sample.color_mapping hidden_rtf toks
    = ([""; ""],
       Some {| CHRtfFormatter.skiptoken := false;
               CHRtfFormatter.initialindent := "  ";
               CHRtfFormatter.find_next_indent := false;
               CHRtfFormatter.newline := true |}).
Proof.
  intros hidden_tex hidden_rtf toks.
  assert (CilkLexer.line_rule None (" #line 5" +:+ Sample.NL +:+ "int x;")
          = Some toks) as Hmatch by by vm_compute.
  destruct (line_directive_ends_suppression Sample.STANDARD_TYPES
              Sample.tex hidden_tex Sample.rtf Sample.color_mapping
              hidden_rtf None (" #line 5" +:+ Sample.NL +:+ "int x;") toks
              Hmatch)
    as (_ & _ & _ & (st1 & -> & Hs1 & Hi1 & Hf1 & Hn1 & Hw1)
          & (st2 & -> & Hs2 & Hi2 & Hf2 & Hn2)).
  destruct st1, st2. cbn in *. subst. by split_and!.
Defined.

(** C8 fails on the code.  The [#line] rule asks for white space or a
    comment before [#line] and for exactly one digit before the newline.
    A one-digit directive that is indented is made invisible; the line
    [ #line 10] is not matched by the rule, and neither is [#line 5] at the
    start of the text.  On [ #line 10] the last rule of the state yields a
    [Text] token and a [Comment.Preproc] token for [#], which both
    formatters write. *)
Theorem line_directive_with_two_digits_is_written :
  (∀ d, Re.digit d = true →
        CilkLexer.line_rule None (" #line " +:+ String d Sample.NL)
        = Some [(Token.Comment_Invisible_Begin, " #line");
                (Token.Comment_Invisible_End, " " +:+ String d Sample.NL)])
  ∧ CilkLexer.line_rule None (" #line 10" +:+ Sample.NL) = None
  ∧ CilkLexer.line_rule None ("#line 5" +:+ Sample.NL) = None
  ∧ CilkLexer.macro_rule None (" #line 10" +:+ Sample.NL)
    = Some [(Token.Text, " "); (Token.Comment_Preproc, "#")]
  ∧ (CilkBookFormatter.run Sample.STANDARD_TYPES Sample.tex
       (CilkBookFormatter.initial Sample.tex)
       [(Token.Text, " "); (Token.Comment_Preproc, "#")]).2
    = [" "; "\PY{c+cp}{\PYZsh{}}"]
  ∧ (CHRtfFormatter.run Sample.rtf Sample.color_mapping
       (CHRtfFormatter.initial Sample.rtf)
       [(Token.Text, " "); (Token.Comment_Preproc, "#")]).1
    = [" "; "#"].
Proof.
  split_and!; try by vm_compute.
  intros d Hd.
  destruct d as [[] [] [] [] [] [] [] []]; try discriminate Hd;
    by vm_compute.
Qed.

Module ClassifierFacts.
Import Token Re CilkLexer.

Lemma classify_classifies otherwise lexer m h lt lk types keywords :
  getlist lexer "_custom_types" h = Some (lt, types) →
  getlist lexer "_custom_keywords" h = Some (lk, keywords) →
  classifies (classify otherwise) otherwise lexer m h types keywords.
Proof.
  intros Ht Hk. unfold classifies, classify, member. rewrite Ht, Hk.
  cbn [mbind option_bind].
  destruct (decide (Py.strip (group m 1) ∈ types)) as [Hin|Hin].
  { rewrite (bool_decide_eq_true_2 _ Hin). eexists. by split_and!. }
  rewrite (bool_decide_eq_false_2 _ Hin).
  destruct (decide (Py.strip (group m 1) ∈ keywords)) as [Hin'|Hin'].
  { rewrite (bool_decide_eq_true_2 _ Hin'). eexists. by split_and!. }
  rewrite (bool_decide_eq_false_2 _ Hin'). eexists. by split_and!.
Qed.

(** [lexer.name] of an instance that binds no attribute of its own is the
    class's. *)
Lemma getlist_new id name h :
  getlist (new id) name h = l ← class_dict !! name; xs ← h !! l; Some (l, xs).
Proof. done. Qed.

Lemma add_new_types id x h h' :
  add_new (new id) "_custom_types" x h = Some h' →
  ∃ xs xs', h !! 0 = Some xs ∧ h' !! 0 = Some xs'
            ∧ x ∈ xs' ∧ ∀ y, y ∈ xs → y ∈ xs'.
Proof.
  unfold add_new. rewrite getlist_new.
  change (class_dict !! "_custom_types") with (Some 0).
  cbn [mbind option_bind]. destruct (h !! 0) as [xs|] eqn:Hxs; [|done].
  cbn [mbind option_bind]. case_bool_decide as Hin; intros [= <-].
  - by exists xs, xs.
  - exists xs, (xs ++ [x]). rewrite lookup_insert_eq.
    split_and!; [done..| |]; set_solver.
Qed.

Lemma member_types_new id x h xs :
  h !! 0 = Some xs →
  member (new id) "_custom_types" x h = Some (bool_decide (x ∈ xs)).
Proof.
  intros Hxs. unfold member. rewrite getlist_new.
  change (class_dict !! "_custom_types") with (Some 0).
  cbn [mbind option_bind]. by rewrite Hxs.
Qed.

(** One turn of the registration loop. *)
Lemma add_name_types id piece h h1 :
  (if String.eqb (Py.strip piece) "" then Some h
   else add_new (new id) "_custom_types" (Py.strip piece) h) = Some h1 →
  (∀ xs, h !! 0 = Some xs →
         ∃ xs1, h1 !! 0 = Some xs1 ∧ ∀ y, y ∈ xs → y ∈ xs1)
  ∧ (Py.strip piece ≠ "" →
     ∃ xs1, h1 !! 0 = Some xs1 ∧ Py.strip piece ∈ xs1).
Proof.
  destruct (String.eqb_spec (Py.strip piece) "") as [->|Hne].
  { intros [= <-]. split; [by eauto|done]. }
  intros (xs & xs1 & Hxs & Hxs1 & Hin & Hsub)%add_new_types. split.
  - intros xs' Hxs'. simplify_eq. by eauto.
  - by eauto.
Qed.

(** After the registration loop every name of the list is in
    [_custom_types], and so is every name that was. *)
Lemma add_names_types id pieces h h1 :
  foldl (λ acc new_name,
           h ← acc;
           if String.eqb (Py.strip new_name) "" then Some h
           else add_new (new id) "_custom_types" (Py.strip new_name) h)
    (Some h) pieces = Some h1 →
  (∀ xs, h !! 0 = Some xs →
         ∃ xs1, h1 !! 0 = Some xs1 ∧ ∀ y, y ∈ xs → y ∈ xs1)
  ∧ (∀ piece, piece ∈ pieces → Py.strip piece ≠ "" →
              ∃ xs1, h1 !! 0 = Some xs1 ∧ Py.strip piece ∈ xs1).
Proof.
  revert h1. induction pieces as [|p pieces IH] using rev_ind; intros h1.
  { intros [= <-]. split; [by eauto|]. by intros ? ?%elem_of_nil. }
  rewrite foldl_snoc.
  destruct (foldl _ _ pieces) as [h'|]; [|done]. cbn [mbind option_bind].
  intros [Hmono Hp]%add_name_types.
  destruct (IH h' eq_refl) as [IHmono IHin]. split.
  - intros xs Hxs. destruct (IHmono xs Hxs) as (xs' & Hxs' & Hsub).
    destruct (Hmono xs' Hxs') as (xs1 & Hxs1 & Hsub'). by eauto.
  - intros piece [Hin|Heq%list_elem_of_singleton]%elem_of_app Hne;
      [|subst; by auto].
    destruct (IHin piece Hin Hne) as (xs' & Hxs' & Hin').
    destruct (Hmono xs' Hxs') as (xs1 & Hxs1 & Hsub). by eauto.
Qed.

End ClassifierFacts.

(** C3. Each of the four classification callbacks yields one token for the
    identifier, whose category is decided in this order: [Keyword.Type]
    when the trimmed name is in [_custom_types]; else [Keyword.Custom]
    when it is in [_custom_keywords]; else the category of the position:
    [Name.Variable], [Name.Function], [Name] or [Name.Namespace].  The
    token's text is the name as matched, and the lists are not changed. *)
Theorem classification_order
    (lexer : CilkLexer.instance) (m : Re.rematch)
    (h : gmap nat (list string)) (lt lk : nat) (types keywords : list string)
    (Htypes : CilkLexer.getlist lexer "_custom_types" h = Some (lt, types))
    (Hkeywords :
       CilkLexer.getlist lexer "_custom_keywords" h = Some (lk, keywords)) :
  CilkLexer.classifies CilkLexer.variable_callback Token.Name_Variable
    lexer m h types keywords
  ∧ CilkLexer.classifies CilkLexer.function_callback Token.Name_Function
      lexer m h types keywords
  ∧ CilkLexer.classifies CilkLexer.checkcustom_callback Token.Name
      lexer m h types keywords
  ∧ CilkLexer.classifies CilkLexer.checknamespace_callback
      Token.Name_Namespace lexer m h types keywords.
Proof. split_and!; by eapply ClassifierFacts.classify_classifies. Qed.

Lemma classification_order_witness :
  let h : gmap nat (list string) :=
    {[ 0 := ["Foo"; "Bar"]; 1 := ["Foo"; "spawn"] ]} in
  CilkLexer.classifies CilkLexer.variable_callback Token.Name_Variable
    (CilkLexer.new 0) Sample.foo_match h ["Foo"; "Bar"] ["Foo"; "spawn"]
  ∧ CilkLexer.variable_callback (CilkLexer.new 0) Sample.foo_match h
    = Some ([(Token.Keyword_Type, "Foo")], h).
Proof.
  intros h. split; [|by vm_compute].
  apply (classification_order (CilkLexer.new 0) Sample.foo_match h 0 1
           ["Foo"; "Bar"] ["Foo"; "spawn"]); by vm_compute.
Defined.

(** C4, as stated, fails: [_custom_types] is a list bound in the class, so
    the names that the instance tokenizing a first input registers change
    what another instance yields for an identifier of a second input:
    after an instance has met [/// Types: Foo Bar], another one yields
    [Foo] as [Keyword.Type], which it yields as [Name.Variable] before. *)
Lemma instances_not_isolated : ¬ CilkLexer.instances_isolated.
Proof.
  intros Hiso.
  specialize (Hiso 0 1 Sample.types_match Sample.foo_match
                CilkLexer.class_heap
                {[ 0 := ["Foo"; "Bar"]; 1 := [] ]}
                [Sample.types_comment]).
  assert (0 ≠ 1) as Hne by done.
  assert (CilkLexer.customtypes_callback (CilkLexer.new 0)
            Sample.types_match CilkLexer.class_heap
          = Some ([Sample.types_comment], {[ 0 := ["Foo"; "Bar"]; 1 := [] ]}))
    as Hregister by by vm_compute.
  specialize (Hiso Hne Hregister). by vm_compute in Hiso.
Qed.

(** C4, amended.  The lists of discovered names are bound in the class and
    shared by all instances: every instance looks them up in the class, and
    a name that one instance registers from a [Types:] comment is yielded
    as [Keyword.Type] by every instance afterwards, at each of the four
    classified positions. *)
Theorem registered_names_are_shared
    (a b : nat) (m1 m2 : Re.rematch) (h h1 : gmap nat (list string))
    (toks : list Token.token) (new_type : string) (otherwise : Token.ttype)
    (Hregister : CilkLexer.customtypes_callback (CilkLexer.new a) m1 h
                 = Some (toks, h1))
    (Hlisted : new_type ∈ Py.split " " (Py.strip (Re.group m1 5)))
    (Hname : Py.strip new_type ≠ "")
    (Hsame : Py.strip (Re.group m2 1) = Py.strip new_type) :
  CilkLexer.getattr (CilkLexer.new a) "_custom_types"
  = CilkLexer.getattr (CilkLexer.new b) "_custom_types"
  ∧ CilkLexer.classify otherwise (CilkLexer.new b) m2 h1
    = Some ([(Token.Keyword_Type, Re.group m2 1)], h1).
Proof.
  split; [done|].
  unfold CilkLexer.customtypes_callback, CilkLexer.add_names in Hregister.
  destruct (foldl _ _ _) as [h1'|] eqn:Hfold; [|done].
  cbn [mbind option_bind] in Hregister. injection Hregister as _ ->.
  apply ClassifierFacts.add_names_types in Hfold as [_ Hin].
  destruct (Hin new_type Hlisted Hname) as (xs1 & Hxs1 & Hin1).
  unfold CilkLexer.classify.
  rewrite (ClassifierFacts.member_types_new b _ h1 xs1 Hxs1), Hsame.
  by rewrite (bool_decide_eq_true_2 _ Hin1).
Qed.

Lemma registered_names_are_shared_witness :
  CilkLexer.variable_callback (CilkLexer.new 1) Sample.foo_match
    {[ 0 := ["Foo"; "Bar"]; 1 := [] ]}
  = Some ([(Token.Keyword_Type, "Foo")], {[ 0 := ["Foo"; "Bar"]; 1 := [] ]}).
Proof.
  apply (registered_names_are_shared 0 1 Sample.types_match Sample.foo_match
           CilkLexer.class_heap {[ 0 := ["Foo"; "Bar"]; 1 := [] ]}
           [Sample.types_comment] "Foo" Token.Name_Variable).
  - by vm_compute.
  - vm_compute. set_solver.
  - by vm_compute.
  - by vm_compute.
Defined.

(** ** Lines of a text *)

Module LineFacts.
Import Py PyFacts.

Lemma replace_as_flat_map old new s :
  replace old new s
  = flat_map (λ c, if Ascii.eqb c old then new else String c "") s.
Proof. induction s as [|c s IH]; [done|]. cbn [replace flat_map]. by rewrite IH. Qed.

Lemma only_app c s t : only c (s +:+ t) = only c s +:+ only c t.
Proof.
  induction s as [|d s IH]; [done|]. rewrite app_cons. cbn [only].
  destruct (Ascii.eqb d c); [rewrite app_cons|]; by rewrite IH.
Qed.

Lemma only_absent c s : occurs c s = false → only c s = "".
Proof.
  induction s as [|d s IH]; [done|]. cbn [occurs only].
  intros [-> Hs]%orb_false_iff. by apply IH.
Qed.

(** A character-wise rewriting that keeps the occurrences of [c] keeps their
    number. *)
Lemma only_flat_map c f s :
  (∀ d, only c (f d) = only c (String d "")) →
  only c (flat_map f s) = only c s.
Proof.
  intros Hf. induction s as [|d s IH]; [done|].
  cbn [flat_map]. rewrite only_app, Hf, IH.
  change (String d s) with (String d "" +:+ s). by rewrite only_app.
Qed.

Lemma only_replace c old new s :
  only c new = only c (String old "") →
  only c (replace old new s) = only c s.
Proof.
  intros Hnew. rewrite replace_as_flat_map. apply only_flat_map.
  intros d. by destruct (Ascii.eqb_spec d old) as [->|].
Qed.

Lemma occurs_flat_map c f s :
  (∀ d, occurs c (f d) = false) → occurs c (flat_map f s) = false.
Proof.
  intros Hf. induction s as [|d s IH]; [done|].
  cbn [flat_map]. by rewrite occurs_app, Hf, IH.
Qed.

Lemma split_nonempty sep s : split sep s ≠ [].
Proof.
  induction s as [|c s IH]; [done|]. cbn [split].
  destruct (Ascii.eqb c sep); [done|]. by destruct (split sep s).
Qed.

Lemma split_sep sep s : split sep (String sep s) = "" :: split sep s.
Proof. cbn [split]. by rewrite Ascii.eqb_refl. Qed.

(** A text without the separator in front of [s] goes to the first piece. *)
Lemma split_app_absent sep a s :
  occurs sep a = false →
  split sep (a +:+ s)
  = match split sep s with
    | [] => [a]
    | w :: ws => (a +:+ w) :: ws
    end.
Proof.
  pose proof (split_nonempty sep s) as Hne.
  induction a as [|c a IH]; cbn [occurs].
  - intros _. rewrite app_nil_l. by destruct (split sep s).
  - intros [Hc Ha]%orb_false_iff. rewrite app_cons. cbn [split].
    rewrite Hc, (IH Ha). by destruct (split sep s).
Qed.

(** Joining the pieces with the separator gives the text back. *)
Lemma join_split sep s : join (String sep "") (split sep s) = s.
Proof.
  induction s as [|c s IH]; [done|]. cbn [split].
  pose proof (split_nonempty sep s) as Hne.
  destruct (Ascii.eqb_spec c sep) as [->|Hc].
  - destruct (split sep s) as [|w ws]; [done|]. cbn [join] in *.
    by rewrite IH.
  - destruct (split sep s) as [|w [|w' ws]]; [done|..]; cbn [join] in *.
    + by rewrite IH.
    + by rewrite app_cons, IH.
Qed.

(** No piece holds the separator. *)
Lemma split_pieces sep s : Forall (λ w, occurs sep w = false) (split sep s).
Proof.
  induction s as [|c s IH]; [by repeat constructor|]. cbn [split].
  destruct (Ascii.eqb c sep) eqn:Hc; [by constructor|].
  destruct (split sep s) as [|w ws]; [by repeat constructor; cbn; rewrite Hc|].
  apply Forall_cons in IH as [Hw Hws]. constructor; [|done].
  cbn [occurs]. by rewrite Hc, Hw.
Qed.

End LineFacts.

(** ** More on escaping *)

Module EscapeMore.
Import Py PyFacts LineFacts EscapeFacts.

(** The replacement of a character is the character itself, or a macro call
    whose name is the prefix followed by letters. *)
Lemma tex_repl_spec cp c :
  (tex_special c || tex_placeholder c = false ∧ tex_repl cp c = String c "")
  ∨ (tex_special c || tex_placeholder c = true
     ∧ ∃ z, all isletter z = true ∧ tex_repl cp c = "\" +:+ cp +:+ z +:+ "{}").
Proof.
  destruct c as [[] [] [] [] [] [] [] []];
    first [ by left
          | right; split; [reflexivity|];
            eexists; split; [|reflexivity]; reflexivity ].
Qed.

Lemma escape_tex_flat_map cp s :
  all isletter cp = true → escape_tex s cp = flat_map (tex_repl cp) s.
Proof.
  intros Hcp. induction s as [|c s IH]; [done|].
  by rewrite escape_tex_cons, escape_tex_char, IH.
Qed.

Lemma occurs_macro cp z c :
  all isletter cp = true → all isletter z = true → isletter c = false →
  rtf_special c = false →
  occurs c ("\" +:+ cp +:+ z +:+ "{}") = false.
Proof.
  intros Hcp Hz Hc Hs. apply occurs_cmd; [done..|].
  rewrite app_cons, app_nil_l. cbn [occurs]. rewrite occurs_app.
  rewrite (occurs_letters c z Hz Hc).
  destruct c as [[] [] [] [] [] [] [] []]; by try discriminate Hs.
Qed.

Lemma tex_gone_spec c :
  tex_gone c = true →
  tex_special c || tex_placeholder c = true
  ∧ isletter c = false ∧ rtf_special c = false ∧ c ≠ nl.
Proof. destruct c as [[] [] [] [] [] [] [] []]; by intros. Qed.

Lemma tex_repl_gone cp c d :
  all isletter cp = true → tex_gone c = true →
  occurs c (tex_repl cp d) = false.
Proof.
  intros Hcp (Hh & Hl & Hs & _)%tex_gone_spec.
  destruct (tex_repl_spec cp d) as [[Hd ->]|[_ (z & Hz & ->)]].
  - cbn [occurs]. rewrite orb_false_r.
    destruct (Ascii.eqb_spec d c) as [->|]; [congruence|done].
  - by apply occurs_macro.
Qed.

Lemma tex_repl_one_line cp d :
  all isletter cp = true → d ≠ nl → occurs nl (tex_repl cp d) = false.
Proof.
  intros Hcp Hd.
  destruct (tex_repl_spec cp d) as [[_ ->]|[_ (z & Hz & ->)]].
  - cbn [occurs]. rewrite orb_false_r. by apply Ascii.eqb_neq.
  - by apply occurs_macro.
Qed.

Lemma escape_tex_split cp s :
  all isletter cp = true →
  split nl (escape_tex s cp) = (λ l, escape_tex l cp) <$> split nl s.
Proof.
  intros Hcp. induction s as [|c s IH]; [done|].
  rewrite escape_tex_cons, escape_tex_char by done.
  destruct (Ascii.eqb_spec c nl) as [->|Hc].
  - change (tex_repl cp nl) with (String nl "").
    rewrite app_cons, app_nil_l, !split_sep, IH. done.
  - rewrite split_app_absent by by apply tex_repl_one_line.
    cbn [split]. rewrite (proj2 (Ascii.eqb_neq _ _) Hc), IH.
    pose proof (split_nonempty nl s).
    destruct (split nl s) as [|w ws]; [done|]. cbn [fmap list_fmap].
    by rewrite (escape_tex_cons c w), escape_tex_char.
Qed.

(** The digits of a number hold no newline. *)
Lemma pretty_N_go_one_line x s :
  occurs nl s = false → occurs nl (pretty_N_go x s) = false.
Proof.
  revert s. induction (N.lt_wf_0 x) as [x _ IH]; intros s Hs.
  assert (x = 0 ∨ 0 < x)%N as [->|Hx] by lia; [done|].
  rewrite pretty_N_go_step by done. apply IH; [by apply N.div_lt|].
  cbn [occurs]. rewrite Hs, orb_false_r.
  unfold pretty_N_char. by repeat case_match.
Qed.

Lemma pretty_nat_one_line (n : nat) : occurs nl (pretty n) = false.
Proof.
  unfold pretty, pretty_nat, pretty, pretty_N.
  case_decide; [done|]. by apply pretty_N_go_one_line.
Qed.

Lemma hexdigit_one_line n : occurs nl (hexdigit n) = false.
Proof. unfold hexdigit. do 17 (destruct n as [|n]; [done|]). done. Qed.

Lemma hex_one_line n : occurs nl (hex n) = false.
Proof.
  unfold hex. rewrite occurs_app, hexdigit_one_line.
  destruct (_ =? _); [done|]. by rewrite hexdigit_one_line.
Qed.

Section escape_text.
Context (self : CHRtfFormatter.formatter).

Lemma escape_text_char_newline d out :
  CHRtfFormatter.escape_text_char self d = Some out →
  only nl out = only nl (String d "").
Proof.
  unfold CHRtfFormatter.escape_text_char.
  destruct (128 <? ord d) eqn:Hd.
  - assert (d ≠ nl) as Hnl by (intros ->; discriminate Hd).
    destruct (CHRtfFormatter.codec self) as [enc|]; [|done].
    cbn [mbind option_bind].
    destruct (if String.eqb (enc d) "" then "?" else enc d)
      as [|b [|b' r]]; [done| |done].
    intros [= <-]. cbn [only]. rewrite (proj2 (Ascii.eqb_neq _ _) Hnl).
    apply only_absent. rewrite !occurs_app, pretty_nat_one_line.
    destruct (128 <? ord b); cbn [occurs].
    + rewrite occurs_app, hex_one_line. done.
    + by rewrite (proj2 (Ascii.eqb_neq _ _) Hnl).
  - destruct (ord d =? 128); [done|]. by intros [= <-].
Qed.

Lemma escape_text_chars_newlines s out :
  CHRtfFormatter.escape_text_chars self s = Some out →
  only nl out = only nl s.
Proof.
  revert out. induction s as [|c s IH]; intros out; [by intros [= <-]|].
  cbn [CHRtfFormatter.escape_text_chars].
  destruct (CHRtfFormatter.escape_text_char self c) as [x|] eqn:Hc; [|done].
  destruct (CHRtfFormatter.escape_text_chars self s) as [y|]; [|done].
  cbn [mbind option_bind]. intros [= <-].
  rewrite only_app, (escape_text_char_newline _ _ Hc), (IH _ eq_refl).
  change (String c s) with (String c "" +:+ s). by rewrite only_app.
Qed.

Lemma _escape_newlines s : only nl (_escape s) = only nl s.
Proof.
  unfold _escape. by rewrite !only_replace.
Qed.

(** What [_escape_text] returns has the newlines of the text. *)
Lemma escape_text_newlines s out :
  CHRtfFormatter._escape_text self s = Some out → only nl out = only nl s.
Proof.
  rewrite RtfEscape.escape_text_unguarded.
  destruct (CHRtfFormatter.escape_text_chars self (_escape s)) as [buf|]
    eqn:Hbuf; [|done].
  cbn [mbind option_bind]. intros [= <-]. rewrite only_replace by done.
  rewrite (escape_text_chars_newlines _ _ Hbuf). apply _escape_newlines.
Qed.

(** *** When [_escape_text] raises *)

Lemma escape_text_char_writable c :
  is_Some (CHRtfFormatter.escape_text_char self c) ↔ writable self c = true.
Proof.
  unfold CHRtfFormatter.escape_text_char, writable.
  destruct (128 <? ord c).
  - destruct (CHRtfFormatter.codec self) as [enc|]; cbn [mbind option_bind].
    + destruct (enc c) as [|b [|b' r]]; cbn; split; try done;
        by (eexists || intros [? [=]]).
    + split; [by intros [? [=]]|done].
  - destruct (ord c =? 128); cbn; split; try done;
      by (eexists || intros [? [=]]).
Qed.

Lemma escape_text_chars_writable s :
  is_Some (CHRtfFormatter.escape_text_chars self s)
  ↔ all (writable self) s = true.
Proof.
  induction s as [|c s IH]; [by split; [|eexists]|].
  cbn [CHRtfFormatter.escape_text_chars all].
  rewrite andb_true_iff, <-IH, <-escape_text_char_writable.
  destruct (CHRtfFormatter.escape_text_char self c) as [x|];
    destruct (CHRtfFormatter.escape_text_chars self s) as [y|]; cbn;
    split; try (by intros [? [=]]); try (by intros [[? [=]] ?]);
    try (by intros [? [? [=]]]); by (eexists || (split; eexists)).
Qed.

Lemma all_app p s t : all p (s +:+ t) = all p s && all p t.
Proof.
  induction s as [|c s IH]; [done|]. rewrite app_cons. cbn [all].
  by rewrite IH, andb_assoc.
Qed.

Lemma all_escape (p : ascii → bool) s :
  p "\"%char = true → all p (_escape s) = all p s.
Proof.
  intros Hp. induction s as [|c s IH]; [done|].
  change (String c s) with (String c "" +:+ s).
  rewrite EscapeFacts._escape_app, !all_app, IH. f_equal.
  rewrite EscapeFacts._escape_char. unfold rtf_repl.
  destruct (rtf_special c); [|done]. cbn [all]. by rewrite Hp.
Qed.

Lemma writable_escape s :
  all (writable self) (_escape s) = all (writable self) s.
Proof. by apply all_escape. Qed.

Lemma escape_text_chars_plain s :
  all (λ c, ord c <? 128) s = true →
  CHRtfFormatter.escape_text_chars self s = Some s.
Proof.
  induction s as [|c s IH]; [done|]. cbn [all].
  intros [Hc%Nat.ltb_lt Hs]%andb_true_iff.
  cbn [CHRtfFormatter.escape_text_chars].
  unfold CHRtfFormatter.escape_text_char.
  rewrite (proj2 (Nat.ltb_ge _ _)) by lia.
  rewrite (proj2 (Nat.eqb_neq _ _)) by lia.
  by rewrite IH.
Qed.

(** On a text of characters below 128 [_escape_text] does not raise. *)
Lemma escape_text_plain s :
  all (λ c, ord c <? 128) s = true →
  CHRtfFormatter._escape_text self s
  = Some (replace nl ("\par" +:+ String nl "") (_escape s)).
Proof.
  intros Hs. rewrite RtfEscape.escape_text_unguarded.
  rewrite escape_text_chars_plain; [done|]. by rewrite all_escape.
Qed.

Lemma escape_text_writable s :
  is_Some (CHRtfFormatter._escape_text self s)
  ↔ all (writable self) s = true.
Proof.
  rewrite RtfEscape.escape_text_unguarded, <-writable_escape,
    <-escape_text_chars_writable.
  destruct (CHRtfFormatter.escape_text_chars self (_escape s)); cbn;
    split; try done; by (eexists || intros [? [=]]).
Qed.

Lemma escape_text_None s :
  CHRtfFormatter._escape_text self s = None
  ↔ all (writable self) s = false.
Proof.
  rewrite <-not_true_iff_false, <-escape_text_writable.
  by rewrite eq_None_not_Some.
Qed.

End escape_text.
End EscapeMore.

(** X1. [escape_tex] works character by character: the escaped form of a
    concatenation is the concatenation of the escaped forms, and, for a
    command prefix made of letters, escaping a text and cutting it into
    lines gives the escaped lines of the text. *)
Theorem escape_tex_line_by_line (commandprefix s t : string)
    (Hcp : Py.all Py.isletter commandprefix = true) :
  escape_tex (s +:+ t) commandprefix
  = escape_tex s commandprefix +:+ escape_tex t commandprefix
  ∧ Py.split Py.nl (escape_tex s commandprefix)
    = (λ line, escape_tex line commandprefix) <$> Py.split Py.nl s.
Proof.
  split; [apply EscapeFacts.escape_tex_app|by apply EscapeMore.escape_tex_split].
Qed.

Lemma escape_tex_line_by_line_witness :
  Py.split Py.nl (escape_tex ("a_b" +:+ Sample.NL +:+ "{c}") "PY")
  = ["a\PYZus{}b"; "\PYZob{}c\PYZcb{}"].
Proof.
  apply (escape_tex_line_by_line "PY" ("a_b" +:+ Sample.NL +:+ "{c}") "").
  reflexivity.
Defined.

(** X2. For a command prefix made of letters, the escaped form of any text
    holds none of the characters [^ _ & < > # % $ -], no single or double
    quote, no tilde, and none of the three placeholder characters. *)
Theorem escape_tex_leaves_no_special (commandprefix s : string) (c : ascii)
    (Hcp : Py.all Py.isletter commandprefix = true)
    (Hc : tex_gone c = true) :
  Py.occurs c (escape_tex s commandprefix) = false.
Proof.
  rewrite EscapeMore.escape_tex_flat_map by done.
  apply LineFacts.occurs_flat_map. intros d.
  by apply EscapeMore.tex_repl_gone.
Qed.

Lemma escape_tex_leaves_no_special_witness :
  Py.occurs "_" (escape_tex "x_y = a^b - 1" "PY") = false.
Proof. by apply (escape_tex_leaves_no_special "PY" "x_y = a^b - 1" "_"). Defined.

(** X3. For a command prefix made of letters, LaTeX reads the escaped form
    of every text that holds none of the three placeholder characters back
    to the text, whatever other characters it holds; so [escape_tex] is
    injective on all such texts. *)
Theorem escape_tex_roundtrip_general (commandprefix s1 s2 : string)
    (Hcp : Py.all Py.isletter commandprefix = true)
    (Hs1 : Py.all (λ c, negb (tex_placeholder c)) s1 = true)
    (Hs2 : Py.all (λ c, negb (tex_placeholder c)) s2 = true) :
  unescape_tex commandprefix (escape_tex s1 commandprefix) = Some s1
  ∧ (escape_tex s1 commandprefix = escape_tex s2 commandprefix → s1 = s2).
Proof.
  split; [by apply EscapeFacts.unescape_escape_tex|].
  intros Heq. apply (inj Some).
  rewrite <- (EscapeFacts.unescape_escape_tex commandprefix s1),
    <- (EscapeFacts.unescape_escape_tex commandprefix s2) by done.
  by rewrite Heq.
Qed.

Lemma escape_tex_roundtrip_general_witness :
  unescape_tex "PY" (escape_tex "if (a[i] < n) { x_1 -= 2; }" "PY")
  = Some "if (a[i] < n) { x_1 -= 2; }".
Proof.
  apply (escape_tex_roundtrip_general "PY" "if (a[i] < n) { x_1 -= 2; }" "");
    reflexivity.
Defined.

(** X4. [_escape] works character by character and an RTF reader reads the
    escaped form of every text back to the text; so [_escape] is injective
    on all texts. *)
Theorem rtf_escape_roundtrip_general (s t : string) :
  _escape (s +:+ t) = _escape s +:+ _escape t
  ∧ unescape_rtf (_escape s) = Some s
  ∧ (_escape s = _escape t → s = t).
Proof.
  split_and!.
  - apply EscapeFacts._escape_app.
  - apply EscapeFacts.unescape_escape_rtf.
  - intros Heq. apply (inj Some).
    by rewrite <- (EscapeFacts.unescape_escape_rtf s),
         <- (EscapeFacts.unescape_escape_rtf t), Heq.
Qed.

(** X5. [_escape_text] on a unicode text.  It raises exactly when the
    text holds a character it cannot write: the character 128, or one
    above 128 that the encoding gives more than one byte or that Python
    has no encoding for.  When it returns, it works piece by piece, maps
    the empty text to the empty text and a newline to [\par] and a
    newline, and what it returns has as many newlines as the text; on a
    text of characters below 128 it returns the text with its
    backslashes and braces escaped and [\par] before each newline. *)
Theorem escape_text_keeps_lines (self : CHRtfFormatter.formatter)
    (s t : string) :
  (CHRtfFormatter._escape_text self s = None
   ↔ Py.all (writable self) s = false)
  ∧ CHRtfFormatter._escape_text self "" = Some ""
  ∧ CHRtfFormatter._escape_text self (s +:+ t)
    = (a ← CHRtfFormatter._escape_text self s;
       b ← CHRtfFormatter._escape_text self t;
       Some (a +:+ b))
  ∧ CHRtfFormatter._escape_text self (String Py.nl "")
    = Some ("\par" +:+ String Py.nl "")
  ∧ (∀ out, CHRtfFormatter._escape_text self s = Some out →
            keeps_newlines out s)
  ∧ (Py.all (λ c, Py.ord c <? 128) s = true →
     CHRtfFormatter._escape_text self s
     = Some (Py.replace Py.nl ("\par" +:+ String Py.nl "") (_escape s))).
Proof.
  split_and!.
  - apply EscapeMore.escape_text_None.
  - done.
  - apply RtfEscape.escape_text_app.
  - done.
  - intros out. apply EscapeMore.escape_text_newlines.
  - apply EscapeMore.escape_text_plain.
Qed.

(** ** What the write loops write *)

Module WriteFacts.
Import Token Py PyFacts LineFacts.

Lemma span_all p s : all p (span p s).1 = true.
Proof.
  induction s as [|c s IH]; [done|]. cbn [span].
  destruct (p c) eqn:Hc; [|done].
  destruct (span p s) as [a b]. cbn [fst all] in *. by rewrite Hc, IH.
Qed.

Lemma span_decompose p run rest :
  all p run = true →
  match rest with "" => true | String c _ => negb (p c) end = true →
  span p (run +:+ rest) = (run, rest).
Proof.
  intros Hrun Hrest. induction run as [|c run IH].
  - rewrite app_nil_l. destruct rest as [|c s]; [done|].
    cbn [span]. apply negb_true_iff in Hrest. by rewrite Hrest.
  - cbn [all] in Hrun. apply andb_true_iff in Hrun as [Hc Hrun].
    rewrite app_cons. cbn [span]. by rewrite Hc, IH.
Qed.

Section tex.
Import CilkBookFormatter.
Context (ST : gmap ttype string) (self : formatter).

(** The text of the plain loop, when lines are not unindented, is the
    value. *)
Lemma tex_write_plain_text spl st :
  reindent self = false → spl ≠ [] →
  (write_plain self spl st).2 = join (String nl "") spl.
Proof.
  intros Hre. revert st.
  induction spl as [|line [|line' spl] IH]; intros st Hne; [done|..].
  - cbn [write_plain join]. rewrite Hre.
    by destruct (String.eqb_spec line "") as [->|].
  - rewrite TexFacts.write_plain_more. rewrite Hre.
    specialize (IH (set_wrotelines true (set_newline true st))).
    destruct (write_plain self (line' :: spl) _) as [st' out'].
    cbn [snd andb] in *. rewrite IH by done.
    change (join (String nl "") (line :: line' :: spl))
      with (line +:+ String nl "" +:+ join (String nl "") (line' :: spl)).
    destruct (String.eqb_spec line "") as [->|]; by rewrite !app_assoc.
Qed.

(** The text of the styled loop: each line that is not empty in a macro
    call of its own, and a newline between two lines. *)
Lemma tex_write_styled_text sv spl st :
  spl ≠ [] →
  (write_styled self sv spl st).2
  = join (String nl "")
      ((λ line, if String.eqb line "" then "" else styled self sv line)
         <$> spl).
Proof.
  revert st.
  induction spl as [|line [|line' spl] IH]; intros st Hne; [done|..].
  - cbn [write_styled join fmap list_fmap].
    by destruct (String.eqb_spec line "") as [->|].
  - rewrite TexFacts.write_styled_more.
    specialize (IH (set_wrotelines true (set_newline true st))).
    destruct (write_styled self sv (line' :: spl) _) as [st' out'].
    cbn [snd] in *. rewrite IH by done.
    cbn [fmap list_fmap join]. by rewrite !app_assoc.
Qed.

(** [wrotelines] and [newline] are set only when something is written, or
    when one of them was set already. *)
Lemma tex_write_plain_flags spl st :
  wrotelines (write_plain self spl st).1 || newline (write_plain self spl st).1
  = true →
  wrotelines st || newline st = true ∨ (write_plain self spl st).2 ≠ "".
Proof.
  destruct spl as [|line [|line' spl]].
  - by left.
  - cbn [write_plain]. destruct (String.eqb_spec line "") as [->|Hl].
    { by left. }
    intros _. cbn [snd].
    destruct (newline st); [left; by rewrite orb_true_r|].
    right. by rewrite andb_false_r.
  - rewrite TexFacts.write_plain_more.
    destruct (write_plain self (line' :: spl) _) as [st' out'].
    intros _. right. cbn [snd]. rewrite app_assoc.
    destruct (if String.eqb line "" then _ else _); done.
Qed.

Lemma tex_write_styled_flags sv spl st :
  wrotelines (write_styled self sv spl st).1
  || newline (write_styled self sv spl st).1 = true →
  wrotelines st || newline st = true ∨ (write_styled self sv spl st).2 ≠ "".
Proof.
  destruct spl as [|line [|line' spl]].
  - by left.
  - cbn [write_styled]. destruct (String.eqb_spec line "") as [->|Hl].
    { by left. }
    intros _. by right.
  - rewrite TexFacts.write_styled_more.
    destruct (write_styled self sv (line' :: spl) _) as [st' out'].
    intros _. right. cbn [snd]. rewrite app_assoc.
    destruct (if String.eqb line "" then _ else _); done.
Qed.

Lemma match_newlines_not_empty value nls rest :
  match_newlines value = Some (nls, rest) → nls ≠ "".
Proof.
  unfold match_newlines. destruct (span _ value) as [run rest'].
  destruct (String.eqb_spec run ""); [done|]. by intros [= <- _].
Qed.

Lemma tex_reindent_head_flags st t value :
  let r := reindent_head st t value in
  wrotelines r.1.1 || newline r.1.1 = true →
  wrotelines st || newline st = true ∨ r.2 ≠ "".
Proof.
  cbv zeta. unfold reindent_head.
  destruct (find_next_indent st);
    [destruct (is_ t Text); [destruct (match_indent value) as [[??]|]|]|];
    (destruct (match_newlines _) as [[nls rest]|] eqn:Hn;
     [intros _; right; by eapply match_newlines_not_empty|]);
    try destruct (newline st) eqn:Hnew; cbn;
    rewrite ?Hnew, ?orb_false_r, ?orb_true_r; auto.
Qed.

Lemma tex_step_flags st tok :
  let r := step ST self st tok in
  wrotelines r.1 || newline r.1 = true →
  wrotelines st || newline st = true ∨ r.2 ≠ "".
Proof.
  cbv zeta. destruct tok as [t value]. unfold step.
  destruct (contains Comment_Invisible_End t); [by left|].
  destruct (contains Comment_Invisible_Begin t); [by left|].
  destruct (skiptoken st); [by left|].
  assert (∃ st1 v1 h1,
             (if reindent self then reindent_head st t value
              else (st, value, "")) = (st1, v1, h1)
             ∧ (wrotelines st1 || newline st1 = true →
                wrotelines st || newline st = true ∨ h1 ≠ ""))
    as (st1 & v1 & h1 & -> & Hhead).
  { destruct (reindent self); [|by eauto 10].
    pose proof (tex_reindent_head_flags st t value) as H.
    destruct (reindent_head st t value) as [[st1 v1] h1]. by eauto 10. }
  destruct (_ && contains Comment_Invisible t); [done|].
  set (v2 := if _ && _ then _ else _).
  assert (∀ st2 body,
             (wrotelines st2 || newline st2 = true →
              wrotelines st1 || newline st1 = true ∨ body ≠ "") →
             wrotelines st2 || newline st2 = true →
             wrotelines st || newline st = true ∨ h1 +:+ body ≠ "")
    as Hchain.
  { intros st2 body Hbody H2.
    destruct (Hbody H2) as [H1|Hb]; [destruct (Hhead H1) as [?|Hh]|].
    - by left.
    - right. by destruct h1.
    - right. by apply ReFacts.app_not_empty_r. }
  destruct (String.eqb (styleval ST self t) "").
  - pose proof (tex_write_plain_flags (split nl v2) st1).
    destruct (write_plain self _ st1). by apply Hchain.
  - pose proof (tex_write_styled_flags (styleval ST self t) (split nl v2) st1).
    destruct (write_styled self _ _ st1). by apply Hchain.
Qed.

(** Whenever [wrotelines] or [newline] is set after the loop, the loop has
    written something. *)
Lemma tex_run_flags st l :
  let r := run ST self st l in
  wrotelines r.1 || newline r.1 = true →
  wrotelines st || newline st = true ∨ concat r.2 ≠ "".
Proof.
  cbv zeta. revert st. induction l as [|tok l IH]; intros st; [by left|].
  cbn [run]. pose proof (tex_step_flags st tok) as Hstep. cbv zeta in Hstep.
  destruct (step ST self st tok) as [st1 out]. specialize (IH st1).
  destruct (run ST self st1 l) as [st2 outs]. cbn [fst snd concat] in *.
  intros H2. destruct (IH H2) as [H1|Ho]; [destruct (Hstep H1) as [?|Ho]|].
  - by left.
  - right. by destruct out.
  - right. by apply ReFacts.app_not_empty_r.
Qed.

End tex.
Section rtf.
Import CHRtfFormatter.
Context (self : formatter) (cm : gmap string nat).

(** The loop over [spl], when lines are not unindented, writes the
    escaped text of the value, what
    [outfile.write(self._escape_text(value))] writes, and raises when
    that call raises. *)
Lemma rtf_write_lines_text spl st :
  reindent self = false → spl ≠ [] →
  match _escape_text self (join (String nl "") spl) with
  | Some out => ∃ st', write_lines self spl st = (Some st', out)
  | None => (write_lines self spl st).1 = None
  end.
Proof.
  intros Hre. revert st.
  induction spl as [|line [|line' spl] IH]; intros st Hne; [done|..].
  - cbn [write_lines join]. rewrite Hre. cbn [andb].
    destruct (String.eqb_spec line "") as [->|]; [by eexists|].
    destruct (_escape_text self line); [by eexists|done].
  - rewrite RtfFacts.write_lines_more. rewrite Hre. cbn [andb].
    assert ((if String.eqb line "" then Some ""
             else _escape_text self line) = _escape_text self line) as ->.
    { by destruct (String.eqb_spec line "") as [->|]. }
    change (join (String nl "") (line :: line' :: spl))
      with (line +:+ String nl "" +:+ join (String nl "") (line' :: spl)).
    rewrite !RtfEscape.escape_text_app, RtfEscape.escape_text_newline.
    specialize (IH (set_newline true st) ltac:(done)).
    destruct (_escape_text self line) as [a|]; [|done].
    cbn [mbind option_bind].
    destruct (_escape_text self (join (String nl "") (line' :: spl)))
      as [d|]; cbn [mbind option_bind].
    + destruct IH as (st' & ->). exists st'. by rewrite !app_assoc.
    + by destruct (write_lines self (line' :: spl) _) as [r out'].
Qed.

Lemma rtf_reindent_head_indent st t value :
  all CilkBookFormatter.hspace (initialindent st) = true →
  all CilkBookFormatter.hspace
    (initialindent (reindent_head self st t value).1.1) = true.
Proof.
  intros Hst. unfold reindent_head.
  assert (∀ v, match_indent v = None
               ∨ ∃ a b, match_indent v = Some (a, b)
                        ∧ all CilkBookFormatter.hspace a = true) as Hm.
  { intros v. unfold match_indent, CilkBookFormatter.match_indent.
    pose proof (span_all CilkBookFormatter.hspace v) as Hs.
    destruct (span _ v) as [a b]. destruct (String.eqb a ""); by eauto. }
  destruct (find_next_indent st);
    [destruct (is_ t Text);
     [destruct (Hm value) as [->|(a & b & -> & Ha)]|]|];
    destruct (match_newlines _) as [[??]|]; try done;
    by destruct (newline st).
Qed.

Lemma rtf_step_indent st tok st' :
  all CilkBookFormatter.hspace (initialindent st) = true →
  (step self cm st tok).2 = Some st' →
  all CilkBookFormatter.hspace (initialindent st') = true.
Proof.
  intros Hst. destruct tok as [t value]. unfold step.
  destruct (contains Comment_Invisible_End t); [by intros [= <-]|].
  destruct (contains Comment_Invisible_Begin t); [by intros [= <-]|].
  destruct (skiptoken st); [by intros [= <-]|].
  assert (∃ st1 v1 h1,
             (if reindent self then reindent_head self st t value
              else (st, value, Some "")) = (st1, v1, h1)
             ∧ all CilkBookFormatter.hspace (initialindent st1) = true)
    as (st1 & v1 & h1 & -> & H1).
  { destruct (reindent self); [|by eauto 10].
    pose proof (rtf_reindent_head_indent st t value Hst).
    destruct (reindent_head self st t value) as [[st1 v1] h1]. by eauto 10. }
  destruct h1 as [head|]; [|done].
  destruct (contains Comment_Invisible t); [by intros [= <-]|].
  assert (∃ st2 v2,
             (if contains Comment_PureTeX t
              then (set_newline true st1, only nl v1)
              else (st1, v1)) = (st2, v2)
             ∧ initialindent st2 = initialindent st1)
    as (st2 & v2 & -> & H2).
  { destruct (contains Comment_PureTeX t); by eauto 10. }
  destruct (_ ≫= _); [|done].
  pose proof (RtfFacts.write_lines_baseline self (split nl v2) st2) as Hw.
  destruct (write_lines self (split nl v2) st2) as [[st3|] body]; [|done].
  destruct (Hw st3 eq_refl) as (_ & _ & H3).
  cbn [fst snd] in *. intros [= <-]. congruence.
Qed.

Lemma rtf_run_indent st l st' :
  all CilkBookFormatter.hspace (initialindent st) = true →
  (run self cm st l).2 = Some st' →
  all CilkBookFormatter.hspace (initialindent st') = true.
Proof.
  revert st. induction l as [|tok l IH]; intros st Hst.
  { by intros [= <-]. }
  cbn [run]. pose proof (rtf_step_indent st tok) as Hstep.
  destruct (step self cm st tok) as [out [st1|]]; [|done].
  specialize (IH st1 (Hstep st1 Hst eq_refl)).
  destruct (run self cm st1 l) as [outs r]. cbn [snd] in *. auto.
Qed.

End rtf.

Section tex_indent.
Import CilkBookFormatter.
Context (ST : gmap ttype string) (self : formatter).

Lemma tex_reindent_head_indent st t value :
  all hspace (initialindent st) = true →
  all hspace (initialindent (reindent_head st t value).1.1) = true.
Proof.
  intros Hst. unfold reindent_head.
  assert (∀ v, match_indent v = None
               ∨ ∃ a b, match_indent v = Some (a, b)
                        ∧ all hspace a = true) as Hm.
  { intros v. unfold match_indent.
    pose proof (span_all hspace v) as Hs.
    destruct (span _ v) as [a b]. destruct (String.eqb a ""); by eauto. }
  destruct (find_next_indent st);
    [destruct (is_ t Text);
     [destruct (Hm value) as [->|(a & b & -> & Ha)]|]|];
    destruct (match_newlines _) as [[??]|]; try done;
    by destruct (newline st).
Qed.

Lemma tex_step_indent st tok :
  all hspace (initialindent st) = true →
  all hspace (initialindent (step ST self st tok).1) = true.
Proof.
  intros Hst. destruct tok as [t value]. unfold step.
  destruct (contains Comment_Invisible_End t); [done|].
  destruct (contains Comment_Invisible_Begin t); [done|].
  destruct (skiptoken st); [done|].
  assert (∃ st1 v1 h1,
             (if reindent self then reindent_head st t value
              else (st, value, "")) = (st1, v1, h1)
             ∧ all hspace (initialindent st1) = true)
    as (st1 & v1 & h1 & -> & H1).
  { destruct (reindent self); [|by eauto 10].
    pose proof (tex_reindent_head_indent st t value Hst).
    destruct (reindent_head st t value) as [[st1 v1] h1]. by eauto 10. }
  destruct (_ && contains Comment_Invisible t); [done|].
  match goal with
  | |- context [write_plain self ?spl st1] =>
      pose proof (TexFacts.write_plain_baseline self spl st1) as (_ & _ & ?);
      destruct (write_plain self spl st1)
  end.
  match goal with
  | |- context [write_styled self ?sv ?spl st1] =>
      pose proof (TexFacts.write_styled_baseline self sv spl st1)
        as (_ & _ & ?);
      destruct (write_styled self sv spl st1)
  end.
  cbn [fst] in *. destruct (String.eqb _ ""); cbn [fst]; congruence.
Qed.

Lemma tex_run_indent st l :
  all hspace (initialindent st) = true →
  all hspace (initialindent (run ST self st l).1) = true.
Proof.
  revert st. induction l as [|tok l IH]; intros st Hst; [done|].
  cbn [run]. pose proof (tex_step_indent st tok Hst) as H1.
  destruct (step ST self st tok) as [st1 out]. specialize (IH st1 H1).
  by destruct (run ST self st1 l).
Qed.

End tex_indent.
End WriteFacts.

(** X6. Unless [inline] is set, the environment that the LaTeX formatter
    writes is never empty: between the line that opens it and the line
    that closes it there is at least one character, whatever the tokens
    and the options (when the loop has written nothing, a newline). *)
Theorem verbatim_never_empty
    (STANDARD_TYPES : gmap Token.ttype string)
    (self : CilkBookFormatter.formatter) (tokensource : list Token.token)
    (Hinline : CilkBookFormatter.inline self = false) :
  ∃ body,
    body ≠ ""
    ∧ CilkBookFormatter.format_unencoded STANDARD_TYPES self tokensource
      = CilkBookFormatter.header self +:+ body
          +:+ "\end{" +:+ CilkBookFormatter.verbenvironment self +:+ "}"
          +:+ Sample.NL.
Proof.
  unfold CilkBookFormatter.format_unencoded, CilkBookFormatter.footer.
  pose proof (WriteFacts.tex_run_flags STANDARD_TYPES self
                (CilkBookFormatter.initial self) tokensource) as Hflags.
  destruct (CilkBookFormatter.run _ _ _ _) as [st outs].
  cbv zeta in Hflags. cbn [fst snd] in Hflags. rewrite Hinline.
  destruct (CilkBookFormatter.wrotelines st) eqn:Hw.
  - exists (Py.concat outs). split.
    + by destruct (Hflags eq_refl) as [?|?].
    + done.
  - exists (Py.concat outs +:+ Sample.NL). split.
    + by apply ReFacts.app_not_empty_r.
    + by rewrite !PyFacts.app_assoc.
Qed.

Lemma verbatim_never_empty_witness :
  ∃ body,
    body ≠ ""
    ∧ CilkBookFormatter.format_unencoded Sample.STANDARD_TYPES
        Sample.tex_reindent [(Token.Text, "  ")]
      = CilkBookFormatter.header Sample.tex_reindent +:+ body
          +:+ "\end{Verbatim}" +:+ Sample.NL.
Proof.
  apply (verbatim_never_empty Sample.STANDARD_TYPES Sample.tex_reindent
           [(Token.Text, "  ")]).
  reflexivity.
Defined.

(** X7. What the LaTeX formatter writes for a shown token that is no
    comment, with [reindent] unset and a command prefix made of letters:
    when the token has no style class, its escaped text; otherwise its
    lines, each escaped and, unless empty, in a [\PY{classes}{...}] call of
    its own, with the newlines between them.  No macro call spans a line
    break. *)
Theorem tex_token_lines
    (STANDARD_TYPES : gmap Token.ttype string)
    (self : CilkBookFormatter.formatter) (st : CilkBookFormatter.state)
    (t : Token.ttype) (value : string)
    (Hcp : Py.all Py.isletter (CilkBookFormatter.commandprefix self) = true)
    (Hre : CilkBookFormatter.reindent self = false)
    (Hshown : CilkBookFormatter.skiptoken st = false)
    (Hcomment : Token.contains Token.Comment t = false) :
  let escape line := escape_tex line (CilkBookFormatter.commandprefix self) in
  let sv := CilkBookFormatter.styleval STANDARD_TYPES self t in
  (CilkBookFormatter.step STANDARD_TYPES self st (t, value)).2
  = if String.eqb sv "" then escape value
    else Py.join Sample.NL
           ((λ line, if String.eqb line "" then ""
                     else CilkBookFormatter.styled self sv (escape line))
              <$> Py.split Py.nl value).
Proof.
  intros escape sv.
  assert (∀ T, T ∈t Token.Comment → Token.contains T t = false) as Hsub.
  { intros T HT. apply not_true_is_false. intros Ht.
    pose proof (TokenFacts.contains_trans _ _ _ HT Ht). congruence. }
  unfold CilkBookFormatter.step.
  rewrite (Hsub Token.Comment_Invisible_End),
    (Hsub Token.Comment_Invisible_Begin), Hshown, Hre, Hcomment,
    (Hsub Token.Comment_PureTeX) by done.
  cbn [andb negb]. fold sv.
  change (CilkBookFormatter.escape self value) with (escape value).
  destruct (String.eqb sv "").
  - pose proof (WriteFacts.tex_write_plain_text self
                  (Py.split Py.nl (escape value)) st Hre
                  (LineFacts.split_nonempty _ _)) as Hw.
    destruct (CilkBookFormatter.write_plain _ _ _) as [st' out].
    cbn [snd] in *. rewrite PyFacts.app_nil_l, Hw.
    apply LineFacts.join_split.
  - pose proof (WriteFacts.tex_write_styled_text self sv
                  (Py.split Py.nl (escape value)) st
                  (LineFacts.split_nonempty _ _)) as Hw.
    destruct (CilkBookFormatter.write_styled _ _ _ _) as [st' out].
    cbn [snd] in *. rewrite PyFacts.app_nil_l, Hw.
    unfold escape. rewrite EscapeMore.escape_tex_split by done.
    rewrite <- list_fmap_compose. f_equal. apply list_fmap_ext.
    intros _ line _. cbn.
    destruct (String.eqb_spec line "") as [->|Hline]; [done|].
    destruct (String.eqb_spec
                (escape_tex line (CilkBookFormatter.commandprefix self)) "")
      as [He|]; [|done].
    rewrite EscapeMore.escape_tex_flat_map in He by done.
    destruct line as [|c line]; [done|]. cbn [Py.flat_map] in He.
    destruct (EscapeMore.tex_repl_spec
                (CilkBookFormatter.commandprefix self) c)
      as [[_ Hr]|[_ (z & _ & Hr)]]; by rewrite Hr in He.
Qed.

Lemma tex_token_lines_witness :
  (CilkBookFormatter.step Sample.STANDARD_TYPES Sample.tex
     (CilkBookFormatter.initial Sample.tex)
     (Token.Name, "a_b" +:+ Sample.NL +:+ Sample.NL +:+ "c")).2
  = "\PY{n}{a\PYZus{}b}" +:+ Sample.NL +:+ Sample.NL +:+ "\PY{n}{c}".
Proof.
  apply (tex_token_lines Sample.STANDARD_TYPES Sample.tex
           (CilkBookFormatter.initial Sample.tex) Token.Name
           ("a_b" +:+ Sample.NL +:+ Sample.NL +:+ "c"));
    reflexivity.
Defined.

(** X8. What the RTF formatter writes for a shown token that is not under
    [Comment.Invisible], with [reindent] unset, when the style lookups
    succeed: what [_escape_text] returns for the whole value, that is what
    [outfile.write(self._escape_text(value))] writes, between the style's
    control words and the closing brace when the style has any; of a
    pure-markup token, only its newlines.  The token raises exactly when
    [_escape_text] raises on that text. *)
Theorem rtf_token_text
    (self : CHRtfFormatter.formatter) (color_mapping : gmap string nat)
    (st : CHRtfFormatter.state) (t : Token.ttype) (value start : string)
    (Hre : CHRtfFormatter.reindent self = false)
    (Hshown : CHRtfFormatter.skiptoken st = false)
    (Hend : Token.contains Token.Comment_Invisible_End t = false)
    (Hbegin : Token.contains Token.Comment_Invisible_Begin t = false)
    (Hinvisible : Token.contains Token.Comment_Invisible t = false)
    (Hstyle :
       CHRtfFormatter.style_for_token self
         (CHRtfFormatter.resolve self (length t) t)
       ≫= CHRtfFormatter.control_words color_mapping = Some start) :
  let text :=
    if Token.contains Token.Comment_PureTeX t then Py.only Py.nl value
    else value in
  (∀ escaped,
     CHRtfFormatter._escape_text self text = Some escaped →
     ∃ st',
       CHRtfFormatter.step self color_mapping st (t, value)
       = ((if String.eqb start "" then "" else "{" +:+ start +:+ " ")
            +:+ escaped
            +:+ (if String.eqb start "" then "" else "}"),
          Some st'))
  ∧ (CHRtfFormatter._escape_text self text = None →
     (CHRtfFormatter.step self color_mapping st (t, value)).2 = None).
Proof.
  intros text. unfold CHRtfFormatter.step.
  rewrite Hend, Hbegin, Hshown, Hre, Hinvisible.
  assert (∃ st2,
             (if Token.contains Token.Comment_PureTeX t
              then (CHRtfFormatter.set_newline true st, Py.only Py.nl value)
              else (st, value)) = (st2, text)) as (st2 & ->).
  { unfold text. destruct (Token.contains Token.Comment_PureTeX t); by eauto. }
  rewrite Hstyle.
  pose proof (WriteFacts.rtf_write_lines_text self (Py.split Py.nl text) st2
                Hre (LineFacts.split_nonempty _ _)) as Hw.
  rewrite LineFacts.join_split in Hw.
  destruct (CHRtfFormatter._escape_text self text) as [e|]; split; try done.
  - intros escaped [= <-]. destruct Hw as (st' & ->). exists st'.
    by rewrite PyFacts.app_nil_l.
  - intros _. by destruct (CHRtfFormatter.write_lines _ _ _) as [[?|] ?].
Qed.

Lemma rtf_token_text_witness :
  ∃ st',
    CHRtfFormatter.step Sample.rtf Sample.color_mapping
      (CHRtfFormatter.initial Sample.rtf)
      (Token.Keyword, "a{" +:+ Sample.NL +:+ "b")
    = ("{\cf1\b a\{\par" +:+ Sample.NL +:+ "b}", Some st').
Proof.
  destruct (rtf_token_text Sample.rtf Sample.color_mapping
              (CHRtfFormatter.initial Sample.rtf) Token.Keyword
              ("a{" +:+ Sample.NL +:+ "b") "\cf1\b") as [H _];
    [reflexivity..|].
  apply (H ("a\{\par" +:+ Sample.NL +:+ "b")). reflexivity.
Defined.

(** X9. In both formatters the baseline [initialindent] is, after any
    tokens, a run of [[ \t\f\v]], possibly empty: the pattern
    ['^(' + initialindent + ')'] that the loops build from it holds no
    character that is special in a pattern, so it is a test for a literal
    prefix and cannot fail to compile. *)
Theorem baseline_is_white_space
    (STANDARD_TYPES : gmap Token.ttype string)
    (tex : CilkBookFormatter.formatter) (rtf : CHRtfFormatter.formatter)
    (color_mapping : gmap string nat) (tokensource : list Token.token) :
  Py.all CilkBookFormatter.hspace
    (CilkBookFormatter.initialindent
       (CilkBookFormatter.run STANDARD_TYPES tex
          (CilkBookFormatter.initial tex) tokensource).1) = true
  ∧ ∀ st',
      (CHRtfFormatter.run rtf color_mapping (CHRtfFormatter.initial rtf)
         tokensource).2 = Some st' →
      Py.all CilkBookFormatter.hspace (CHRtfFormatter.initialindent st')
      = true.
Proof.
  split.
  - by apply WriteFacts.tex_run_indent.
  - intros st'. by apply WriteFacts.rtf_run_indent.
Qed.

(** ** Names of token categories *)

Module NameFacts.
Import Token Py PyFacts CilkBookFormatter.

Section names.
Context (ST : gmap ttype string).

Lemma concat_snoc l x : concat (l ++ [x]) = concat l +:+ x.
Proof.
  induction l as [|y l IH]; cbn [app concat].
  - by rewrite app_nil_r.
  - by rewrite IH, app_assoc.
Qed.

Lemma parent_snoc (t : ttype) x : parent (t ++ [x]) = t.
Proof. apply removelast_last. Qed.

(** The loop walks up from [anc ++ rest] to [anc], the first category on
    the way that has a standard name, and puts the names of [rest] behind
    that name. *)
Lemma get_ttype_name_loop_spec anc rest fname aname fuel :
  rest ≠ [] → length rest ≤ fuel →
  standard_type ST anc = Some fname →
  (∀ k, 0 < k < length rest → standard_type ST (anc ++ take k rest) = None) →
  get_ttype_name_loop ST fuel (anc ++ rest) aname
  = fname +:+ concat rest +:+ aname.
Proof.
  revert aname fuel.
  induction rest as [|x rest IH] using rev_ind; intros aname fuel; [done|].
  intros _ Hfuel Hanc Hnone. rewrite length_app in Hfuel. cbn in Hfuel.
  destruct fuel as [|fuel]; [lia|]. cbn [get_ttype_name_loop].
  cbv zeta. rewrite (List.app_assoc anc rest [x]), last_snoc, parent_snoc.
  cbn [default from_option id].
  rewrite concat_snoc, PyFacts.app_assoc.
  destruct rest as [|y rest _] using rev_ind.
  - rewrite (List.app_nil_r anc), Hanc. done.
  - pose proof (Hnone (length (rest ++ [y]))) as Hk.
    rewrite take_app_length in Hk. rewrite Hk
      by (rewrite !length_app; cbn; lia).
    apply IH; [by destruct rest|lia|done|].
    intros k Hlt. specialize (Hnone k).
    rewrite take_app_le in Hnone by lia. apply Hnone.
    rewrite length_app. cbn. lia.
Qed.

Lemma get_ttype_name_spec anc rest fname :
  standard_type ST anc = Some fname →
  (∀ k, 0 < k ≤ length rest → standard_type ST (anc ++ take k rest) = None) →
  _get_ttype_name ST (anc ++ rest) = fname +:+ concat rest.
Proof.
  intros Hanc Hnone. unfold _get_ttype_name.
  destruct (decide (rest = [])) as [->|Hne].
  { rewrite (List.app_nil_r anc), Hanc. cbn. by rewrite PyFacts.app_nil_r. }
  pose proof (Hnone (length rest)) as Hall.
  rewrite firstn_all in Hall. rewrite Hall
    by (destruct rest; [done|cbn; lia]).
  rewrite (get_ttype_name_loop_spec anc rest fname "") ; try done.
  - by rewrite PyFacts.app_nil_r.
  - rewrite length_app. lia.
  - intros k Hk. apply Hnone. lia.
Qed.

End names.
End NameFacts.

(** X10. [_get_ttype_name] of a category: the standard name of its nearest
    ancestor (or of itself) that [STANDARD_TYPES] lists, followed by the
    names of the path from that ancestor down to the category, with nothing
    between them.  [anc] is that ancestor and [rest] the path. *)
Theorem ttype_name_of_unlisted_category
    (STANDARD_TYPES : gmap Token.ttype string)
    (anc rest : Token.ttype) (fname : string)
    (Hanc : CilkBookFormatter.standard_type STANDARD_TYPES anc = Some fname)
    (Hrest : ∀ k, 0 < k ≤ length rest →
                  CilkBookFormatter.standard_type STANDARD_TYPES
                    (anc ++ take k rest) = None) :
  CilkBookFormatter._get_ttype_name STANDARD_TYPES (anc ++ rest)
  = fname +:+ Py.concat rest.
Proof. by apply NameFacts.get_ttype_name_spec. Qed.

Lemma ttype_name_of_unlisted_category_witness :
  CilkBookFormatter._get_ttype_name Sample.STANDARD_TYPES
    Token.Comment_Invisible_Begin = "cInvisibleBegin".
Proof.
  apply (ttype_name_of_unlisted_category Sample.STANDARD_TYPES
           Token.Comment ["Invisible"; "Begin"] "c"); [reflexivity|].
  intros k Hk. cbn in Hk.
  assert (k = 1 ∨ k = 2) as [->| ->] by lia; reflexivity.
Defined.

(** ** The colour table and the styles of the RTF formatter *)

Module ColorFacts.
Import Token Py CHRtfFormatter.

Lemma foldl_add_color_None l : foldl add_color None l = None.
Proof. by induction l. Qed.

Lemma foldl_entries_None l :
  foldl (λ acc (e : ttype * styledef),
           foldl add_color acc [color e.2; bgcolor e.2; border e.2])
    None l = None.
Proof. by induction l. Qed.

(** One colour: the list of numbered colours grows by at most that
    colour, at its end. *)
Lemma add_color_numbered cs acc c0 acc' :
  numbered cs acc → add_color (Some acc) c0 = Some acc' →
  ∃ cs', cs `prefix_of` cs' ∧ numbered cs' acc'
         ∧ (∀ c, used c0 = Some c → c ∈ cs')
         ∧ (∀ c, c ∈ cs' → c ∈ cs ∨ used c0 = Some c).
Proof.
  destruct acc as [[cm offset] out].
  intros Hnum. pose proof Hnum as (Hnd & Hoff & Hcm & es & Hes & Hout).
  cbn in Hoff, Hcm, Hout.
  unfold add_color. cbn [mbind option_bind].
  destruct (used c0) as [c|] eqn:Hused.
  2:{ intros [= <-]. exists cs. split; [done|]. split; [done|].
      split; [done|]. by left. }
  destruct (cm !! c) as [n|] eqn:Hc.
  { intros [= <-]. exists cs. split; [done|]. split; [done|].
    split; [|by left].
    intros c' [= <-]. apply Hcm in Hc as (i & _ & Hi).
    by eapply list_elem_of_lookup_2. }
  destruct (color_entry c) as [e|] eqn:He; [|done].
  cbn. intros [= <-].
  assert (c ∉ cs) as Hnew.
  { intros (i & Hi)%list_elem_of_lookup_1.
    assert (cm !! c = Some (S i)) as Hn by (apply Hcm; eauto).
    congruence. }
  exists (cs ++ [c]). split; [by apply prefix_app_r|]. split.
  2:{ split.
      - intros c' [= <-]. apply elem_of_app. right. by left.
      - intros c' [?| ->%list_elem_of_singleton]%elem_of_app; eauto. }
  split; [|split; [|split]]; cbn.
  - apply NoDup_app. split; [done|]. split; [|apply NoDup_singleton].
    intros x Hx ->%list_elem_of_singleton. done.
  - rewrite length_app. cbn. lia.
  - intros c' n. rewrite lookup_insert_Some. split.
    + intros [[<- <-]|[Hne Hn]].
      * exists (length cs). split; [lia|].
        by rewrite lookup_app_r, Nat.sub_diag by lia.
      * apply Hcm in Hn as (i & -> & Hi). exists i. split; [done|].
        by apply lookup_app_l_Some.
    + intros (i & -> & Hi).
      apply lookup_app_Some in Hi as [Hi|[Hle Hi]].
      * right. split; [|apply Hcm; eauto].
        intros <-. apply Hnew. by eapply list_elem_of_lookup_2.
      * left. apply list_lookup_singleton_Some in Hi as [Hz <-].
        split; [done|]. lia.
  - exists (es ++ [e]). split.
    + apply Forall2_app; [done|]. by constructor.
    + by rewrite NameFacts.concat_snoc, Hout.
Qed.

Lemma add_colors_numbered l cs acc acc' :
  numbered cs acc → foldl add_color (Some acc) l = Some acc' →
  ∃ cs', cs `prefix_of` cs' ∧ numbered cs' acc'
         ∧ (∀ c0 c, c0 ∈ l → used c0 = Some c → c ∈ cs')
         ∧ (∀ c, c ∈ cs' → c ∈ cs ∨ ∃ c0, c0 ∈ l ∧ used c0 = Some c).
Proof.
  revert cs acc. induction l as [|c0 l IH]; intros cs acc Hnum; cbn [foldl].
  { intros [= <-]. exists cs. split; [done|]. split; [done|].
    split; [intros ?? []%elem_of_nil|by left]. }
  destruct (add_color (Some acc) c0) as [acc1|] eqn:H1.
  2:{ by rewrite foldl_add_color_None. }
  intros Hl.
  destruct (add_color_numbered _ _ _ _ Hnum H1)
    as (cs1 & Hp1 & Hn1 & Hin1 & Hout1).
  destruct (IH _ _ Hn1 Hl) as (cs' & Hp & Hn & Hin & Hout).
  exists cs'. split; [by etrans|]. split; [done|]. split.
  - intros c0' c [->|Hc0]%elem_of_cons Hu; [|by eapply Hin].
    destruct Hp as [k ->]. apply elem_of_app. left. by apply Hin1.
  - intros c [Hc|(c0' & Hc0 & Hu)]%Hout.
    + apply Hout1 in Hc as [?|?]; [by left|].
      right. exists c0. split; [by left|done].
    + right. exists c0'. split; [by right|done].
Qed.

Lemma colors_spec sd c :
  c ∈ colors sd
  ↔ ∃ c0, c0 ∈ [color sd; bgcolor sd; border sd] ∧ used c0 = Some c.
Proof. unfold colors. by rewrite list_elem_of_omap. Qed.

Lemma entries_numbered l cs acc acc' :
  numbered cs acc →
  foldl (λ acc (e : ttype * styledef),
           foldl add_color acc [color e.2; bgcolor e.2; border e.2])
    (Some acc) l = Some acc' →
  ∃ cs', cs `prefix_of` cs' ∧ numbered cs' acc'
         ∧ (∀ e c, e ∈ l → c ∈ colors e.2 → c ∈ cs')
         ∧ (∀ c, c ∈ cs' → c ∈ cs ∨ ∃ e, e ∈ l ∧ c ∈ colors e.2).
Proof.
  set (F := λ acc (e : ttype * styledef),
              foldl add_color acc [color e.2; bgcolor e.2; border e.2]).
  revert cs acc. induction l as [|e l IH]; intros cs acc Hnum.
  { intros [= <-]. exists cs. split; [done|]. split; [done|].
    split; [intros ?? []%elem_of_nil|by left]. }
  change (foldl F (Some acc) (e :: l)) with (foldl F (F (Some acc) e) l).
  destruct (F (Some acc) e) as [acc1|] eqn:H1.
  2:{ intros Hl. unfold F in Hl. by rewrite foldl_entries_None in Hl. }
  intros Hl. unfold F in H1.
  destruct (add_colors_numbered _ _ _ _ Hnum H1)
    as (cs1 & Hp1 & Hn1 & Hin1 & Hout1).
  destruct (IH _ _ Hn1 Hl) as (cs' & Hp & Hn & Hin & Hout).
  exists cs'. split; [by etrans|]. split; [done|]. split.
  - intros e' c [->|He]%elem_of_cons Hc; [|by eapply Hin].
    apply colors_spec in Hc as (c0 & Hc0 & Hu).
    destruct Hp as [k ->]. apply elem_of_app. left. by eapply Hin1.
  - intros c [Hc|(e' & He' & Hc)]%Hout.
    + apply Hout1 in Hc as [?|(c0 & Hc0 & Hu)]; [by left|].
      right. exists e. split; [by left|]. apply colors_spec. eauto.
    + right. exists e'. split; [by right|done].
Qed.

Lemma numbered_empty : numbered [] (∅, 1, "").
Proof.
  split; [constructor|]. split; [done|]. split.
  - intros c n. cbn. rewrite lookup_empty. split; [done|].
    by intros (i & _ & ?).
  - exists []. by split; [constructor|].
Qed.

Lemma color_table_numbered self acc :
  color_table self = Some acc →
  ∃ cs, numbered cs acc
        ∧ ∀ c, c ∈ cs ↔ ∃ e, e ∈ style self ∧ c ∈ colors e.2.
Proof.
  intros H. destruct (entries_numbered _ _ _ _ numbered_empty H)
    as (cs & _ & Hn & Hin & Hout).
  exists cs. split; [done|]. intros c. split.
  - by intros [[]%elem_of_nil|?]%Hout.
  - intros (e & He & Hc). by eapply Hin.
Qed.

(** *** When the table can be built *)

Lemma hex_color_entry c : hex_color c = true → is_Some (color_entry c).
Proof.
  unfold hex_color. intros [Hlen Hall]%andb_true_iff.
  apply Nat.eqb_eq in Hlen.
  destruct c as [|c1 [|c2 [|c3 [|c4 [|c5 [|c6 [|]]]]]]]; try done.
  cbn in Hall.
  repeat match type of Hall with
         | _ && _ = true => apply andb_true_iff in Hall as [?%bool_decide_eq_true Hall]
         end.
  repeat match goal with H : is_Some (hexval _) |- _ => destruct H as [? H] end.
  unfold color_entry, slice, int16. cbn [String.substring Nat.sub int16_go].
  repeat match goal with H : hexval _ = Some _ |- _ => rewrite H; clear H end.
  cbn. eauto.
Qed.

Lemma add_color_hex acc c0 :
  (∀ c, used c0 = Some c → hex_color c = true) →
  is_Some (add_color (Some acc) c0).
Proof.
  intros Hhex. destruct acc as [[cm offset] out]. unfold add_color.
  cbn [mbind option_bind].
  destruct (used c0) as [c|]; [|eauto].
  destruct (cm !! c); [eauto|].
  destruct (hex_color_entry c) as [e ->]; [by apply Hhex|]. cbn. eauto.
Qed.

Lemma add_colors_hex l acc :
  (∀ c0 c, c0 ∈ l → used c0 = Some c → hex_color c = true) →
  is_Some (foldl add_color (Some acc) l).
Proof.
  revert acc. induction l as [|c0 l IH]; intros acc Hhex; [by eexists|].
  cbn [foldl]. destruct (add_color_hex acc c0) as [acc1 ->].
  { intros c. apply Hhex. by left. }
  apply IH. intros c0' c Hc0. apply Hhex. by right.
Qed.

Lemma entries_hex (l : list (ttype * styledef)) acc :
  (∀ e c, e ∈ l → c ∈ colors e.2 → hex_color c = true) →
  is_Some (foldl (λ acc (e : ttype * styledef),
                    foldl add_color acc
                      [color e.2; bgcolor e.2; border e.2])
             (Some acc) l).
Proof.
  set (F := λ acc (e : ttype * styledef),
              foldl add_color acc [color e.2; bgcolor e.2; border e.2]).
  revert acc. induction l as [|e l IH]; intros acc Hhex; [by eexists|].
  change (foldl F (Some acc) (e :: l)) with (foldl F (F (Some acc) e) l).
  destruct (add_colors_hex [color e.2; bgcolor e.2; border e.2] acc)
    as [acc1 H1].
  { intros c0 c Hc0 Hu. apply (Hhex e); [by left|].
    apply colors_spec. eauto. }
  unfold F at 2. rewrite H1.
  apply IH. intros e' c He'. apply Hhex. by right.
Qed.

(** *** The category whose style is used *)

Section styles.
Context (self : formatter).

Lemma resolve_styled fuel t :
  styles_token self t = true → resolve self fuel t = t.
Proof. destruct fuel; [done|]. cbn. by intros ->. Qed.

Lemma resolve_nearest t k :
  0 < k ≤ length t →
  styles_token self (take k t) = true →
  (∀ j, k < j ≤ length t → styles_token self (take j t) = false) →
  resolve self (length t) t = take k t.
Proof.
  induction t as [|x t IH] using rev_ind; intros Hk Hs Hnone.
  { cbn in Hk. lia. }
  rewrite length_app in Hk. cbn in Hk.
  destruct (decide (k = S (length t))) as [->|Hne].
  { rewrite firstn_all2 in Hs |- * by (rewrite length_app; cbn; lia).
    by apply resolve_styled. }
  rewrite length_app. cbn [length]. rewrite Nat.add_1_r.
  cbn [resolve].
  pose proof (Hnone (S (length t))) as Hlast.
  rewrite firstn_all2 in Hlast by (rewrite length_app; cbn; lia).
  rewrite Hlast by (rewrite length_app; cbn; lia).
  unfold parent at 1. rewrite removelast_last.
  assert (is_ t Token = false) as ->.
  { apply bool_decide_eq_false. unfold Token. destruct t; [cbn in *; lia|done]. }
  cbn [negb andb]. unfold parent. rewrite removelast_last.
  rewrite take_app_le in Hs |- * by lia.
  apply IH; [lia|done|].
  intros j Hj. specialize (Hnone j). rewrite take_app_le in Hnone by lia.
  apply Hnone. rewrite length_app. cbn. lia.
Qed.

Lemma resolve_unstyled t :
  (∀ j, 0 < j → styles_token self (take j t) = false) →
  resolve self (length t) t = take 1 t.
Proof.
  induction t as [|x t IH] using rev_ind; intros Hnone; [done|].
  rewrite length_app. cbn [length]. rewrite Nat.add_1_r.
  cbn [resolve].
  pose proof (Hnone (S (length t))) as Hlast.
  rewrite firstn_all2 in Hlast by (rewrite length_app; cbn; lia).
  rewrite Hlast by lia.
  unfold parent. rewrite removelast_last. cbn [negb andb].
  destruct t as [|y t]; [done|].
  assert (is_ (y :: t) Token = false) as -> by done.
  cbn [negb]. rewrite IH; [done|].
  intros j Hj.
  destruct (decide (j ≤ length (y :: t))) as [Hle|Hgt].
  - specialize (Hnone j Hj). by rewrite take_app_le in Hnone.
  - specialize (Hnone (length (y :: t))).
    rewrite take_app_length in Hnone. rewrite firstn_all2 by lia.
    apply Hnone. cbn. lia.
Qed.

Lemma take_1_styled_nearest t :
  styles_token self (take 1 t) = true →
  styles_token self (resolve self (length t) t) = true.
Proof.
  induction t as [|x t IH] using rev_ind; intros Hs; [done|].
  rewrite length_app. cbn [length]. rewrite Nat.add_1_r.
  cbn [resolve].
  destruct (styles_token self (t ++ [x])) eqn:Hlast; [done|].
  unfold parent. rewrite removelast_last. cbn [negb andb].
  destruct t as [|y t]; [cbn in Hs, Hlast; congruence|].
  assert (is_ (y :: t) Token = false) as -> by done.
  cbn [negb]. by apply IH.
Qed.

Lemma styles_token_lookup t :
  styles_token self t = true ↔ is_Some (style_for_token self t).
Proof.
  unfold styles_token, style_for_token. rewrite bool_decide_eq_true.
  rewrite fmap_is_Some. split.
  - intros ((t' & sd) & -> & He)%list_elem_of_fmap.
    destruct (find _ _) eqn:Hf; [done|].
    eapply find_none in Hf; [|by apply list_elem_of_In].
    by apply bool_decide_eq_false in Hf.
  - intros [[t' sd] Hf]. apply find_some in Hf as [Hin Heq].
    apply bool_decide_eq_true in Heq. cbn in Heq. subst.
    apply list_elem_of_fmap. exists (t, sd). split; [done|].
    by apply list_elem_of_In.
Qed.

Lemma style_for_token_elem t sd :
  style_for_token self t = Some sd → (t, sd) ∈ style self.
Proof.
  unfold style_for_token. intros ([t' sd'] & Hf & ->)%fmap_Some.
  apply find_some in Hf as [Hin Heq].
  apply bool_decide_eq_true in Heq. cbn in Heq. subst.
  by apply list_elem_of_In.
Qed.

Lemma control_words_Some (cm : gmap string nat) sd :
  (∀ c, c ∈ colors sd → is_Some (cm !! c)) →
  is_Some (control_words cm sd).
Proof.
  intros Hcm. unfold control_words.
  assert (∀ w c0, c0 ∈ [color sd; bgcolor sd; border sd] →
            is_Some (match used c0 with
                     | None => Some ""
                     | Some c => n ← cm !! c; Some (w +:+ pretty n)
                     end)) as Hw.
  { intros w c0 Hc0. destruct (used c0) as [c|] eqn:Hu; [|eauto].
    destruct (Hcm c) as [n ->]; [|cbn; eauto].
    apply colors_spec. eauto. }
  destruct (Hw "\cb" (bgcolor sd)) as [cb ->]; [set_solver|].
  destruct (Hw "\cf" (color sd)) as [cf ->]; [set_solver|].
  destruct (Hw "\chbrdr\chcfpat" (border sd)) as [br ->]; [set_solver|].
  cbn. eauto.
Qed.

End styles.
End ColorFacts.

(** X11. The colour table of the RTF header numbers the colours of the
    style.  When the table is built there is a list [cs] of colours,
    without repetition, that holds exactly the colours that some entry of
    the style uses: the text of the table is the entries
    [\redR\greenG\blueB;] of [cs], in order, [color_mapping] gives the
    colour at position [i] of [cs] the number [i + 1] and no other colour
    any number, and [offset] is one more than the last number.  So a
    control word [\cfN] written later refers to the entry of the very
    colour it was looked up for. *)
Theorem color_table_numbers_colors
    (self : CHRtfFormatter.formatter)
    (color_mapping : gmap string nat) (offset : nat) (table : string)
    (Htable : CHRtfFormatter.color_table self
              = Some (color_mapping, offset, table)) :
  ∃ cs : list string,
    NoDup cs
    ∧ (∀ c, c ∈ cs ↔ ∃ e, e ∈ CHRtfFormatter.style self ∧ c ∈ colors e.2)
    ∧ (∀ c n, color_mapping !! c = Some n ↔ ∃ i, n = S i ∧ cs !! i = Some c)
    ∧ offset = S (length cs)
    ∧ ∃ es, Forall2 (λ c e, CHRtfFormatter.color_entry c = Some e) cs es
            ∧ table = Py.concat es.
Proof.
  destruct (ColorFacts.color_table_numbered _ _ Htable)
    as (cs & (Hnd & Hoff & Hcm & Hes) & Hin).
  cbn in Hoff, Hcm, Hes. exists cs.
  split; [exact Hnd|]. split; [exact Hin|]. split; [exact Hcm|].
  split; [exact Hoff|exact Hes].
Qed.

Lemma color_table_numbers_colors_witness :
  ∃ cs : list string,
    NoDup cs
    ∧ (∀ c, c ∈ cs ↔ ∃ e, e ∈ Sample.style ∧ c ∈ colors e.2)
    ∧ (∀ c n, ({[ "ff0000" := 1 ]} : gmap string nat) !! c = Some n
              ↔ ∃ i, n = S i ∧ cs !! i = Some c)
    ∧ 2 = S (length cs)
    ∧ ∃ es, Forall2 (λ c e, CHRtfFormatter.color_entry c = Some e) cs es
            ∧ "\red255\green0\blue0;" = Py.concat es.
Proof.
  apply (color_table_numbers_colors Sample.rtf). reflexivity.
Defined.

(** X12. The style used for a token is that of its nearest ancestor in the
    style table, itself included: when the category's prefix of length
    [k > 0] is in the table and no longer prefix is, the loop [while not
    self.style.styles_token(ttype) and ttype.parent] ends at that prefix,
    and [style_for_token] finds it. *)
Theorem rtf_style_of_nearest_ancestor
    (self : CHRtfFormatter.formatter) (t : Token.ttype) (k : nat)
    (Hk : 0 < k ≤ length t)
    (Hstyled : CHRtfFormatter.styles_token self (take k t) = true)
    (Hnearest : ∀ j, k < j ≤ length t →
                     CHRtfFormatter.styles_token self (take j t) = false) :
  CHRtfFormatter.resolve self (length t) t = take k t
  ∧ is_Some (CHRtfFormatter.style_for_token self (take k t)).
Proof.
  split; [by apply ColorFacts.resolve_nearest|].
  by apply ColorFacts.styles_token_lookup.
Qed.

Lemma rtf_style_of_nearest_ancestor_witness :
  CHRtfFormatter.resolve Sample.rtf 3 Token.Comment_Invisible_Begin
  = Token.Comment
  ∧ is_Some (CHRtfFormatter.style_for_token Sample.rtf Token.Comment).
Proof.
  apply (rtf_style_of_nearest_ancestor Sample.rtf
           Token.Comment_Invisible_Begin 1); [cbn; lia|reflexivity|].
  intros j Hj. cbn in Hj.
  assert (j = 2 ∨ j = 3) as [->| ->] by lia; reflexivity.
Defined.

(** X13. The walk to the parent stops one step below the root.  A shown
    token none of whose ancestors below the root is in the style table,
    nor the category itself, makes [style_for_token] raise [KeyError],
    also when the root [Token] is in the table; a call of
    [format_unencoded] whose first token is such a token does not
    return. *)
Theorem rtf_unstyled_category_raises
    (self : CHRtfFormatter.formatter) (color_mapping : gmap string nat)
    (t : Token.ttype) (value : string) (rest : list Token.token)
    (Hnonroot : t ≠ Token.Token)
    (Hunstyled : ∀ j, 0 < j ≤ length t →
                      CHRtfFormatter.styles_token self (take j t) = false) :
  (∀ st, CHRtfFormatter.skiptoken st = false →
         Token.contains Token.Comment_Invisible t = false →
         (CHRtfFormatter.step self color_mapping st (t, value)).2 = None)
  ∧ (CHRtfFormatter.hidebydefault self = false →
     Token.contains Token.Comment_Invisible t = false →
     CHRtfFormatter.format_unencoded self ((t, value) :: rest) = None).
Proof.
  assert (CHRtfFormatter.style_for_token self
            (CHRtfFormatter.resolve self (length t) t) = None) as Hnone.
  { rewrite ColorFacts.resolve_unstyled.
    - apply eq_None_not_Some. rewrite <-ColorFacts.styles_token_lookup.
      rewrite Hunstyled; [done|]. destruct t; [done|cbn; lia].
    - intros j Hj. destruct (decide (j ≤ length t)) as [?|?].
      + apply Hunstyled. lia.
      + rewrite firstn_all2 by lia. rewrite <-(firstn_all t).
        apply Hunstyled. destruct t; [done|cbn; lia]. }
  assert (∀ cm st, CHRtfFormatter.skiptoken st = false →
                   Token.contains Token.Comment_Invisible t = false →
                   (CHRtfFormatter.step self cm st (t, value)).2 = None)
    as Hstep.
  { intros cm st Hshown Hinv. unfold CHRtfFormatter.step.
    assert (Token.contains Token.Comment_Invisible_End t = false) as ->.
    { destruct (Token.contains Token.Comment_Invisible_End t) eqn:He; [|done].
      rewrite <-Hinv. symmetry.
      by apply (TokenFacts.contains_trans _ Token.Comment_Invisible_End). }
    assert (Token.contains Token.Comment_Invisible_Begin t = false) as ->.
    { destruct (Token.contains Token.Comment_Invisible_Begin t) eqn:He;
        [|done].
      rewrite <-Hinv. symmetry.
      by apply (TokenFacts.contains_trans _ Token.Comment_Invisible_Begin). }
    rewrite Hshown.
    destruct (if CHRtfFormatter.reindent self
              then CHRtfFormatter.reindent_head self st t value
              else (st, value, Some "")) as [[st1 value1] [head|]]; [|done].
    rewrite Hinv.
    destruct (if Token.contains Token.Comment_PureTeX t
              then (CHRtfFormatter.set_newline true st1,
                    Py.only Py.nl value1)
              else (st1, value1)) as [st2 value2].
    by rewrite Hnone. }
  split; [by apply Hstep|].
  intros Hhide Hinv. unfold CHRtfFormatter.format_unencoded.
  destruct (CHRtfFormatter.color_table self) as [[[cm offset] table]|];
    [|done].
  cbn [mbind option_bind CHRtfFormatter.run].
  specialize (Hstep cm (CHRtfFormatter.initial self) Hhide Hinv).
  destruct (CHRtfFormatter.step self cm _ _) as [out [st1|]]; done.
Qed.

Lemma rtf_unstyled_category_raises_witness :
  CHRtfFormatter.format_unencoded Sample.rtf
    [(["Generic"; "Output"], "x")] = None.
Proof.
  destruct (rtf_unstyled_category_raises Sample.rtf ∅
              ["Generic"; "Output"] "x" []) as [_ H]; [done| |].
  - intros j Hj. cbn in Hj.
    assert (j = 1 ∨ j = 2) as [->| ->] by lia; reflexivity.
  - apply H; reflexivity.
Defined.

Module ReturnFacts.
Import Token Py CHRtfFormatter.

Section pieces.
Context (p : ascii → bool).

Lemma all_drop n s : all p s = true → all p (drop n s) = true.
Proof.
  revert s. induction n as [|n IH]; intros [|c s]; try done.
  cbn [all drop]. intros [_ Hs]%andb_true_iff. by apply IH.
Qed.

Lemma all_strip_indent ind s :
  all p s = true → all p (strip_indent ind s) = true.
Proof.
  intros Hs. unfold strip_indent, CilkBookFormatter.strip_indent.
  destruct (startswith ind s); [by apply all_drop|done].
Qed.

Lemma all_span_rest q s : all p s = true → all p (span q s).2 = true.
Proof.
  induction s as [|c s IH]; [done|]. cbn [all span].
  intros Hcs. destruct (q c); [|done].
  apply andb_true_iff in Hcs as [_ Hs].
  destruct (span q s) as [a b]. by apply IH.
Qed.

Lemma all_only c s : p c = true → all p (only c s) = true.
Proof.
  intros Hc. induction s as [|d s IH]; [done|]. cbn [only].
  destruct (Ascii.eqb d c) eqn:Hd; [|done].
  apply Ascii.eqb_eq in Hd as ->. cbn [all]. by rewrite Hc, IH.
Qed.

Lemma all_split sep s :
  all p s = true → Forall (λ line, all p line = true) (split sep s).
Proof.
  induction s as [|c s IH]; [by repeat constructor|]. cbn [all split].
  intros [Hc Hs]%andb_true_iff. specialize (IH Hs).
  destruct (Ascii.eqb c sep); [by constructor|].
  destruct (split sep s) as [|w ws]; [by repeat constructor; cbn; rewrite Hc|].
  inversion_clear IH as [|? ? Hw Hws]. constructor; [|done].
  cbn [all]. by rewrite Hc, Hw.
Qed.

End pieces.

Section returns.
Context (self : formatter) (cm : gmap string nat).
Context (Hcm : ∀ e c, e ∈ style self → c ∈ colors e.2 → is_Some (cm !! c)).

Lemma rtf_lookup_succeeds t :
  styles_token self (take 1 t) = true →
  is_Some (style_for_token self (resolve self (length t) t)
           ≫= control_words cm).
Proof.
  intros Hs. apply ColorFacts.take_1_styled_nearest in Hs.
  apply ColorFacts.styles_token_lookup in Hs as [sd Hsd].
  rewrite Hsd. cbn [mbind option_bind].
  apply ColorFacts.control_words_Some. intros c Hc.
  apply (Hcm (resolve self (length t) t, sd)); [|done].
  by apply ColorFacts.style_for_token_elem.
Qed.

(** The head of the iteration writes only newlines, and what it leaves
    of a writable text is writable. *)
Lemma reindent_head_writable st t value :
  all (writable self) value = true →
  is_Some (reindent_head self st t value).2
  ∧ all (writable self) (reindent_head self st t value).1.2 = true.
Proof.
  intros Hv. unfold reindent_head.
  set (sv := if find_next_indent st then _ else _).
  assert (all (writable self) sv.2 = true) as Hsv.
  { subst sv. destruct (find_next_indent st); [|done].
    destruct (is_ t Text); [|done].
    unfold match_indent, CilkBookFormatter.match_indent.
    pose proof (all_span_rest (writable self) CilkBookFormatter.hspace
                  value Hv) as Hrest.
    destruct (span CilkBookFormatter.hspace value) as [a b].
    by destruct (String.eqb a ""). }
  destruct sv as [st1 value1]. cbn [snd] in Hsv.
  unfold match_newlines, CilkBookFormatter.match_newlines.
  pose proof (all_span_rest (writable self) (Ascii.eqb nl) value1 Hsv)
    as Hrest.
  pose proof (RtfEscape.escape_text_leading_newlines self value1) as Hnls.
  unfold CilkBookFormatter.leading_newlines in Hnls.
  destruct (span (Ascii.eqb nl) value1) as [a b]. cbn [fst snd] in *.
  destruct (String.eqb a "").
  - destruct (newline st1); [|by split; [eexists|]].
    split; [by eexists|]. cbn [fst snd].
    destruct (is_ t Text); [by apply all_strip_indent|done].
  - cbn [fst snd]. rewrite Hnls. by split; [eexists|].
Qed.

Lemma write_lines_writable spl st :
  Forall (λ line, all (writable self) line = true) spl →
  is_Some (write_lines self spl st).1.
Proof.
  revert st. induction spl as [|line [|line' spl] IH]; intros st Hspl.
  - by eexists.
  - cbn [write_lines]. destruct (String.eqb line ""); [by eexists|].
    inversion_clear Hspl as [|? ? Hline _].
    destruct (proj2 (EscapeMore.escape_text_writable self
      (if reindent self && newline st
       then strip_indent (initialindent st) line else line))) as [out ->].
    { destruct (reindent self && newline st); [|done].
      by apply all_strip_indent. }
    by eexists.
  - inversion_clear Hspl as [|? ? Hline Hrest].
    change (write_lines self (line :: line' :: spl) st)
      with (match (if String.eqb line "" then Some ""
                   else _escape_text self
                          (if reindent self && newline st
                           then strip_indent (initialindent st) line
                           else line)) with
            | None => (None, "")
            | Some out =>
                match _escape_text self (String nl "") with
                | None => (None, out)
                | Some par =>
                    let '(r, out') :=
                      write_lines self (line' :: spl) (set_newline true st) in
                    (r, (out +:+ par) +:+ out')
                end
            end).
    assert (is_Some (if String.eqb line "" then Some ""
                     else _escape_text self
                            (if reindent self && newline st
                             then strip_indent (initialindent st) line
                             else line))) as [out ->].
    { destruct (String.eqb line ""); [by eexists|].
      apply EscapeMore.escape_text_writable.
      destruct (reindent self && newline st); [|done].
      by apply all_strip_indent. }
    rewrite RtfEscape.escape_text_newline.
    specialize (IH (set_newline true st) Hrest).
    by destruct (write_lines self (line' :: spl) (set_newline true st)).
Qed.

Lemma rtf_step_returns st tok :
  styles_token self (take 1 tok.1) = true →
  all (writable self) tok.2 = true →
  is_Some (step self cm st tok).2.
Proof.
  destruct tok as [t value]. cbn [fst snd]. intros Hs Hv. unfold step.
  destruct (contains Comment_Invisible_End t); [by eexists|].
  destruct (contains Comment_Invisible_Begin t); [by eexists|].
  destruct (skiptoken st); [by eexists|].
  assert (∃ st1 value1 head,
    (if reindent self then reindent_head self st t value
     else (st, value, Some "")) = (st1, value1, Some head)
    ∧ all (writable self) value1 = true) as (st1 & value1 & head & -> & Hv1).
  { destruct (reindent self); [|by eauto].
    destruct (reindent_head_writable st t value Hv) as [[head Hh] Hv1].
    destruct (reindent_head self st t value) as [[st1 value1] h].
    cbn [fst snd] in *. subst h. eauto. }
  destruct (contains Comment_Invisible t); [by eexists|].
  assert (∃ st2 value2,
    (if contains Comment_PureTeX t
     then (set_newline true st1, only nl value1)
     else (st1, value1)) = (st2, value2)
    ∧ all (writable self) value2 = true) as (st2 & value2 & -> & Hv2).
  { destruct (contains Comment_PureTeX t); [|by eauto].
    eexists _, _. split; [done|]. by apply all_only. }
  destruct (rtf_lookup_succeeds t Hs) as [start ->].
  destruct (write_lines_writable (split nl value2) st2) as [st3 H3].
  { by apply all_split. }
  destruct (write_lines self (split nl value2) st2) as [r body].
  cbn [fst] in H3. subst r. by eexists.
Qed.

Lemma rtf_run_returns tokensource st :
  (∀ tok, tok ∈ tokensource → styles_token self (take 1 tok.1) = true) →
  (∀ tok, tok ∈ tokensource → all (writable self) tok.2 = true) →
  ∃ outs st', run self cm st tokensource = (outs, Some st')
              ∧ length outs = length tokensource.
Proof.
  revert st. induction tokensource as [|tok l IH]; intros st Htop Hw.
  { by exists [], st. }
  cbn [run].
  destruct (rtf_step_returns st tok) as [st1 H1];
    [apply Htop; by left|apply Hw; by left|].
  destruct (step self cm st tok) as [out r]. cbn in H1. subst r.
  destruct (IH st1) as (outs & st' & -> & Hlen).
  { intros tok' ?. apply Htop. by right. }
  { intros tok' ?. apply Hw. by right. }
  exists (out :: outs), st'. cbn. by rewrite Hlen.
Qed.

End returns.
End ReturnFacts.

(** X14. [format_unencoded] of the RTF formatter returns, raising neither
    [ValueError] nor [KeyError] nor an encoding error, when every colour
    of the style is six hexadecimal digits, the top category of every
    token (the root for the token [Token]) is in the style table, as the
    top categories of the standard tokens are in every style, and every
    character of every token's text is one that [_escape_text] can write.
    The colour table is then built, the loop over the tokens reaches its
    end having written one chunk for each token, and the document is the
    header with that colour table, the chunks of the loop in order, and
    the closing brace. *)
Theorem rtf_format_returns
    (self : CHRtfFormatter.formatter) (tokensource : list Token.token)
    (Hcolors : ∀ e c, e ∈ CHRtfFormatter.style self → c ∈ colors e.2 →
                      hex_color c = true)
    (Htop : ∀ tok, tok ∈ tokensource →
                   CHRtfFormatter.styles_token self (take 1 tok.1) = true)
    (Hwritable : ∀ tok, tok ∈ tokensource →
                        Py.all (writable self) tok.2 = true) :
  ∃ (cm : gmap string nat) (offset : nat) (table : string)
    (outs : list string) (st' : CHRtfFormatter.state),
    CHRtfFormatter.color_table self = Some (cm, offset, table)
    ∧ CHRtfFormatter.run self cm (CHRtfFormatter.initial self) tokensource
      = (outs, Some st')
    ∧ length outs = length tokensource
    ∧ CHRtfFormatter.format_unencoded self tokensource
      = Some (CHRtfFormatter.header self table +:+ Py.concat outs +:+ "}").
Proof.
  destruct (ColorFacts.entries_hex (CHRtfFormatter.style self) (∅, 1, ""))
    as [[[cm offset] table] Htable]; [done|].
  fold (CHRtfFormatter.color_table self) in Htable.
  destruct (ColorFacts.color_table_numbered _ _ Htable)
    as (cs & (_ & _ & Hcm & _) & Hin).
  cbn in Hcm.
  destruct (ReturnFacts.rtf_run_returns self cm) with
    (tokensource := tokensource) (st := CHRtfFormatter.initial self)
    as (outs & st' & Hrun & Hlen); [|done|done|].
  { intros e c He Hc.
    assert (c ∈ cs) as (i & Hi)%list_elem_of_lookup_1 by (apply Hin; eauto).
    exists (S i). apply Hcm. eauto. }
  exists cm, offset, table, outs, st'. do 3 (split; [done|]).
  unfold CHRtfFormatter.format_unencoded. rewrite Htable.
  cbn [mbind option_bind]. by rewrite Hrun.
Qed.

Lemma rtf_format_returns_witness :
  ∃ (cm : gmap string nat) (offset : nat) (table : string)
    (outs : list string) (st' : CHRtfFormatter.state),
    CHRtfFormatter.color_table Sample.rtf_reindent = Some (cm, offset, table)
    ∧ CHRtfFormatter.run Sample.rtf_reindent cm
        (CHRtfFormatter.initial Sample.rtf_reindent) Sample.two_regions
      = (outs, Some st')
    ∧ length outs = length Sample.two_regions
    ∧ CHRtfFormatter.format_unencoded Sample.rtf_reindent Sample.two_regions
      = Some (CHRtfFormatter.header Sample.rtf_reindent table
                +:+ Py.concat outs +:+ "}").
Proof.
  apply (rtf_format_returns Sample.rtf_reindent Sample.two_regions).
  - intros e c He Hc. cbn in He.
    repeat (apply elem_of_cons in He as [->|He]);
      try (by apply elem_of_nil in Hc);
      try (by apply elem_of_nil in He).
    apply list_elem_of_singleton in Hc as ->. reflexivity.
  - intros tok Htok. cbn in Htok.
    repeat (apply elem_of_cons in Htok as [->|Htok]); try reflexivity.
    by apply elem_of_nil in Htok.
  - intros tok Htok. cbn in Htok.
    repeat (apply elem_of_cons in Htok as [->|Htok]); try reflexivity.
    by apply elem_of_nil in Htok.
Defined.

(** ** Registration of names *)

Module RegisterFacts.
Import Token Re CilkLexer.

Section register.
Context (lexer : instance) (name : string) (l : nat).

Lemma getlist_lookup h xs :
  getlist lexer name h = Some (l, xs) → h !! l = Some xs.
Proof.
  unfold getlist. destruct (getattr lexer name) as [l'|]; [|done].
  cbn [mbind option_bind]. destruct (h !! l') as [ys|] eqn:Hl'; [|done].
  cbn. by intros [= <- <-].
Qed.

Lemma getlist_insert h xs ys :
  getlist lexer name h = Some (l, xs) →
  getlist lexer name (<[l := ys]> h) = Some (l, ys).
Proof.
  unfold getlist. destruct (getattr lexer name) as [l'|]; [|done].
  cbn [mbind option_bind]. destruct (h !! l') as [zs|] eqn:Hl'; [|done].
  cbn. intros [= <- <-]. by rewrite lookup_insert_eq.
Qed.

Lemma add_new_spec h xs x :
  getlist lexer name h = Some (l, xs) →
  add_new lexer name x h
  = Some (if bool_decide (x ∈ xs) then h else <[l := xs ++ [x]]> h).
Proof.
  intros Hl. unfold add_new. rewrite Hl. cbn [mbind option_bind].
  by case_bool_decide.
Qed.

(** The registration loop, for any list of pieces. *)
Lemma add_pieces pieces h xs :
  getlist lexer name h = Some (l, xs) →
  ∃ added,
    foldl (λ acc new_name,
             h ← acc;
             if String.eqb (Py.strip new_name) "" then Some h
             else add_new lexer name (Py.strip new_name) h)
      (Some h) pieces = Some (<[l := xs ++ added]> h)
    ∧ NoDup added
    ∧ ∀ y, y ∈ added
           ↔ ((y ∉ xs) ∧ y ≠ ""
              ∧ ∃ piece, piece ∈ pieces ∧ Py.strip piece = y).
Proof.
  set (F := λ (acc : option (gmap nat (list string))) new_name,
              h ← acc;
              if String.eqb (Py.strip new_name) "" then Some h
              else add_new lexer name (Py.strip new_name) h).
  revert h xs. induction pieces as [|p pieces IH]; intros h xs Hl.
  { exists []. split; [|split; [constructor|]].
    - cbn. rewrite app_nil_r. symmetry. f_equal.
      apply insert_id. by apply getlist_lookup.
    - intros y. split; [by intros ?%elem_of_nil|].
      by intros (_ & _ & ? & ?%elem_of_nil & _). }
  change (foldl F (Some h) (p :: pieces)) with (foldl F (F (Some h) p) pieces).
  unfold F at 2. cbn [mbind option_bind].
  destruct (String.eqb_spec (Py.strip p) "") as [Hp|Hp].
  { destruct (IH h xs Hl) as (added & -> & Hnd & Hin).
    exists added. split; [done|]. split; [done|].
    intros y. rewrite Hin. split.
    - intros (? & ? & piece & ? & ?). split_and!; [done..|].
      exists piece. split; [by right|done].
    - intros (? & ? & piece & [->|?]%elem_of_cons & ?); [congruence|].
      split_and!; [done..|]. by exists piece. }
  rewrite (add_new_spec h xs) by done.
  case_bool_decide as Hold.
  { destruct (IH h xs Hl) as (added & -> & Hnd & Hin).
    exists added. split; [done|]. split; [done|].
    intros y. rewrite Hin. split.
    - intros (? & ? & piece & ? & ?). split_and!; [done..|].
      exists piece. split; [by right|done].
    - intros (? & ? & piece & [->|?]%elem_of_cons & ?); [congruence|].
      split_and!; [done..|]. by exists piece. }
  destruct (IH (<[l := xs ++ [Py.strip p]]> h) (xs ++ [Py.strip p]))
    as (added & -> & Hnd & Hin); [by eapply getlist_insert|].
  exists (Py.strip p :: added). split; [|split].
  - by rewrite insert_insert_eq, <-List.app_assoc.
  - constructor; [|done]. rewrite Hin. intros (Hn & _). apply Hn.
    apply elem_of_app. right. by left.
  - intros y. rewrite elem_of_cons, Hin. split.
    + intros [->|(Hn & ? & piece & ? & ?)].
      * split_and!; [done..|]. exists p. split; [by left|done].
      * split_and!; [|done|].
        -- intros ?. apply Hn. apply elem_of_app. by left.
        -- exists piece. split; [by right|done].
    + intros (Hn & ? & piece & Hpiece & Hy).
      destruct (decide (y = Py.strip p)) as [?|Hne]; [by left|]. right.
      split_and!; [|done|].
      * intros [?|?%list_elem_of_singleton]%elem_of_app; done.
      * apply elem_of_cons in Hpiece as [->|?]; [done|]. by exists piece.
Qed.

(** A second pass over names that are all registered changes nothing. *)
Lemma add_pieces_present pieces h xs :
  getlist lexer name h = Some (l, xs) →
  (∀ piece, piece ∈ pieces → Py.strip piece ≠ "" → Py.strip piece ∈ xs) →
  foldl (λ acc new_name,
           h ← acc;
           if String.eqb (Py.strip new_name) "" then Some h
           else add_new lexer name (Py.strip new_name) h)
    (Some h) pieces = Some h.
Proof.
  set (F := λ (acc : option (gmap nat (list string))) new_name,
              h ← acc;
              if String.eqb (Py.strip new_name) "" then Some h
              else add_new lexer name (Py.strip new_name) h).
  intros Hl. induction pieces as [|p pieces IH]; intros Hin; [done|].
  change (foldl F (Some h) (p :: pieces)) with (foldl F (F (Some h) p) pieces).
  assert (F (Some h) p = Some h) as ->.
  { unfold F. cbn [mbind option_bind].
    destruct (String.eqb_spec (Py.strip p) "") as [Hp|Hp]; [done|].
    rewrite (add_new_spec h xs) by done.
    rewrite bool_decide_eq_true_2; [done|]. apply Hin; [by left|done]. }
  apply IH. intros piece ?. apply Hin. by right.
Qed.

End register.
End RegisterFacts.

(** X15. The loop that registers the names of a [Types:] or [Keywords:]
    comment only appends to the list it is given: the list afterwards is
    the list before followed by [added], which holds, once each, exactly
    the trimmed names of the comment that are not empty and were not in
    the list; no other object is changed.  Registering the same comment
    again changes nothing. *)
Theorem registration_appends_new_names
    (lexer : CilkLexer.instance) (name names : string)
    (h : gmap nat (list string)) (l : nat) (xs : list string)
    (Hlist : CilkLexer.getlist lexer name h = Some (l, xs)) :
  ∃ added : list string,
    CilkLexer.add_names lexer name names h = Some (<[l := xs ++ added]> h)
    ∧ NoDup added
    ∧ (∀ y, y ∈ added
            ↔ ((y ∉ xs) ∧ y ≠ ""
               ∧ ∃ piece, piece ∈ Py.split " " (Py.strip names)
                          ∧ Py.strip piece = y))
    ∧ CilkLexer.add_names lexer name names (<[l := xs ++ added]> h)
      = Some (<[l := xs ++ added]> h).
Proof.
  destruct (RegisterFacts.add_pieces lexer name l
              (Py.split " " (Py.strip names)) h xs Hlist)
    as (added & Hfold & Hnd & Hin).
  exists added. split; [exact Hfold|]. split; [exact Hnd|].
  split; [exact Hin|].
  apply (RegisterFacts.add_pieces_present lexer name l _ _ (xs ++ added)).
  - by eapply RegisterFacts.getlist_insert.
  - intros piece Hpiece Hne.
    destruct (decide (Py.strip piece ∈ xs)) as [?|Hnew];
      apply elem_of_app; [by left|right].
    apply Hin. split_and!; [done..|]. by exists piece.
Qed.

Lemma registration_appends_new_names_witness :
  ∃ added : list string,
    CilkLexer.add_names (CilkLexer.new 0) "_custom_types"
      (" Foo Bar  Foo" +:+ Sample.NL) {[ 0 := ["Bar"]; 1 := [] ]}
    = Some (<[0 := ["Bar"] ++ added]> {[ 0 := ["Bar"]; 1 := [] ]})
    ∧ NoDup added
    ∧ (∀ y, y ∈ added
            ↔ ((y ∉ ["Bar"]) ∧ y ≠ ""
               ∧ ∃ piece,
                   piece ∈ Py.split " "
                             (Py.strip (" Foo Bar  Foo" +:+ Sample.NL))
                   ∧ Py.strip piece = y))
    ∧ CilkLexer.add_names (CilkLexer.new 0) "_custom_types"
        (" Foo Bar  Foo" +:+ Sample.NL)
        (<[0 := ["Bar"] ++ added]> {[ 0 := ["Bar"]; 1 := [] ]})
      = Some (<[0 := ["Bar"] ++ added]> {[ 0 := ["Bar"]; 1 := [] ]}).
Proof.
  apply (registration_appends_new_names (CilkLexer.new 0) "_custom_types"
           (" Foo Bar  Foo" +:+ Sample.NL) {[ 0 := ["Bar"]; 1 := [] ]}
           0 ["Bar"]).
  reflexivity.
Defined.

(** X16. [typedef_callback] and [classname_callback] yield the matched
    name, as [Keyword.Type] and as [Name.Class], and append its trimmed
    form to [_custom_types] unless it is there; from then on each of the
    four classification callbacks yields a name with that trimmed form as
    [Keyword.Type], whether or not it is also a registered keyword. *)
Theorem typedef_name_becomes_type
    (lexer : CilkLexer.instance) (m m2 : Re.rematch)
    (h : gmap nat (list string)) (lt : nat) (types : list string)
    (otherwise : Token.ttype)
    (Htypes : CilkLexer.getlist lexer "_custom_types" h = Some (lt, types))
    (Hsame : Py.strip (Re.group m2 1) = Py.strip (Re.group m 1)) :
  let h1 :=
    if bool_decide (Py.strip (Re.group m 1) ∈ types) then h
    else <[lt := types ++ [Py.strip (Re.group m 1)]]> h in
  CilkLexer.typedef_callback lexer m h
  = Some ([(Token.Keyword_Type, Re.group m 1)], h1)
  ∧ CilkLexer.classname_callback lexer m h
    = Some ([(Token.Name_Class, Re.group m 1)], h1)
  ∧ CilkLexer.classify otherwise lexer m2 h1
    = Some ([(Token.Keyword_Type, Re.group m2 1)], h1).
Proof.
  intros h1.
  unfold CilkLexer.typedef_callback, CilkLexer.classname_callback.
  rewrite (RegisterFacts.add_new_spec lexer _ lt h types) by done.
  fold h1. split; [done|]. split; [done|].
  assert (∃ types1, CilkLexer.getlist lexer "_custom_types" h1
                    = Some (lt, types1)
                    ∧ Py.strip (Re.group m 1) ∈ types1)
    as (types1 & Hl1 & Hin1).
  { unfold h1. case_bool_decide as Hin; [by eauto|].
    eexists. split; [by eapply RegisterFacts.getlist_insert|].
    apply elem_of_app. right. by left. }
  unfold CilkLexer.classify, CilkLexer.member. rewrite Hl1.
  cbn [mbind option_bind]. rewrite Hsame.
  by rewrite (bool_decide_eq_true_2 _ Hin1).
Qed.

Lemma typedef_name_becomes_type_witness :
  CilkLexer.typedef_callback (CilkLexer.new 0) Sample.foo_match
    {[ 0 := []; 1 := ["Foo"] ]}
  = Some ([(Token.Keyword_Type, "Foo")], {[ 0 := ["Foo"]; 1 := ["Foo"] ]})
  ∧ CilkLexer.classname_callback (CilkLexer.new 0) Sample.foo_match
      {[ 0 := []; 1 := ["Foo"] ]}
    = Some ([(Token.Name_Class, "Foo")], {[ 0 := ["Foo"]; 1 := ["Foo"] ]})
  ∧ CilkLexer.classify Token.Name_Variable (CilkLexer.new 0)
      Sample.foo_match {[ 0 := ["Foo"]; 1 := ["Foo"] ]}
    = Some ([(Token.Keyword_Type, "Foo")],
            {[ 0 := ["Foo"]; 1 := ["Foo"] ]}).
Proof.
  assert (CilkLexer.getlist (CilkLexer.new 0) "_custom_types"
            {[ 0 := []; 1 := ["Foo"] ]} = Some (0, [])) as Htypes
    by reflexivity.
  assert (Py.strip (Re.group Sample.foo_match 1)
          = Py.strip (Re.group Sample.foo_match 1)) as Hsame by reflexivity.
  exact (typedef_name_becomes_type (CilkLexer.new 0) Sample.foo_match
           Sample.foo_match {[ 0 := []; 1 := ["Foo"] ]} 0 []
           Token.Name_Variable Htypes Hsame).
Defined.

(** ** More on matching *)

Module MatchFacts.
Import Re ReFacts PyFacts.

Lemma star_consumes greedy body fuel st c st' :
  (∀ st c st', (c, st') ∈ body st → rest st = c +:+ rest st') →
  (c, st') ∈ star greedy body fuel st → rest st = c +:+ rest st'.
Proof.
  intros Hbody. revert st c st'.
  induction fuel as [|fuel IH]; intros st c st'.
  { by intros [= -> ->]%list_elem_of_singleton. }
  cbn [star].
  set (more := body st ≫= _).
  assert ((c, st') ∈ more → rest st = c +:+ rest st') as Hmore.
  { intros ([c1 st1] & H & H1)%list_elem_of_bind.
    destruct (String.eqb c1 ""); [by apply elem_of_nil in H|].
    apply list_elem_of_bind in H as ([c2 st2] & H & H2).
    apply list_elem_of_singleton in H. injection H as -> ->.
    by rewrite (Hbody _ _ _ H1), (IH _ _ _ H2), app_assoc. }
  destruct greedy.
  - intros [H|[= -> ->]%list_elem_of_singleton]%elem_of_app; auto.
  - intros [[= -> ->]|H]%elem_of_cons; auto.
Qed.

(** What a pattern matches is the start of the text it is matched
    against. *)
Lemma exec_consumes r st c st' :
  (c, st') ∈ exec r st → rest st = c +:+ rest st'.
Proof.
  revert st c st'.
  induction r as [| |p|r1 IH1 r2 IH2|r1 IH1 r2 IH2|greedy r IH|n r IH];
    intros st c st'.
  - by intros [= -> ->]%list_elem_of_singleton.
  - cbn [exec]. destruct (prev st) as [ch|];
      [destruct (Ascii.eqb ch Py.nl)|];
      by (intros ?%elem_of_nil || intros [= -> ->]%list_elem_of_singleton).
  - cbn [exec]. destruct (rest st) as [|ch s']; [by intros ?%elem_of_nil|].
    destruct (p ch); [|by intros ?%elem_of_nil].
    by intros [= -> ->]%list_elem_of_singleton.
  - intros (c1 & st1 & c2 & H1 & H2 & ->)%exec_Seq_inv.
    by rewrite (IH1 _ _ _ H1), (IH2 _ _ _ H2), app_assoc.
  - cbn [exec]. intros [H|H]%elem_of_app; eauto.
  - cbn [exec]. apply star_consumes. intros ???. by apply IH.
  - cbn [exec]. intros ([c1 st1] & H & H1)%list_elem_of_fmap.
    injection H as -> ->. cbn [rest]. by apply IH.
Qed.

End MatchFacts.

(** ** The rules of the comments that start with three slashes *)

Module RuleFacts.
Import Token Re ReFacts MatchFacts PyFacts CilkLexer CilkRules.

Lemma match_prefix r before text m :
  match_ r before text = Some m → ∃ rest', text = group m 0 +:+ rest'.
Proof.
  intros (c & st & Hin & ->)%match_elem. apply exec_consumes in Hin.
  cbn [rest] in Hin. exists (rest st). unfold group.
  by rewrite lookup_insert_eq.
Qed.

Lemma exec_newline_inv st c st' :
  (c, st') ∈ exec (Class (Ascii.eqb Py.nl)) st → c = String Py.nl "".
Proof.
  intros (ch & -> & Hnl & _)%exec_Class_inv.
  apply Ascii.eqb_eq in Hnl. by subst.
Qed.

Lemma to_eol_newline st c st' :
  (c, st') ∈ exec to_eol st → ∃ line, c = line +:+ String Py.nl "".
Proof.
  intros (c1 & st1 & c2 & _ & H & ->)%exec_Seq_inv.
  apply exec_Seq_inv in H as (c3 & st3 & c4 & H3 & H4 & ->).
  apply exec_Class_inv in H3 as (ch & -> & _).
  apply exec_newline_inv in H4 as ->.
  exists (c1 +:+ String ch ""). by rewrite app_assoc.
Qed.

Lemma slashes_not_empty n st c st' :
  (c, st') ∈ exec (slashes n) st → c ≠ "".
Proof.
  intros (c1 & st1 & c2 & H1 & _ & ->)%exec_Seq_inv.
  by eapply app_not_empty_l, LexerFacts.exec_Lit_not_empty.
Qed.

Lemma star_class_all greedy p fuel st c st' :
  (c, st') ∈ star greedy (exec (Class p)) fuel st → Py.all p c = true.
Proof.
  revert st c st'. induction fuel as [|fuel IH]; intros st c st'.
  { by intros [= -> ->]%list_elem_of_singleton. }
  cbn [star].
  set (more := exec (Class p) st ≫= _).
  assert ((c, st') ∈ more → Py.all p c = true) as Hmore.
  { intros ([c1 st1] & H & H1)%list_elem_of_bind.
    destruct (String.eqb c1 ""); [by apply elem_of_nil in H|].
    apply list_elem_of_bind in H as ([c2 st2] & H & H2).
    apply list_elem_of_singleton in H. injection H as -> ->.
    apply exec_Class_inv in H1 as (ch & -> & Hp & _).
    change (String ch "" +:+ c2) with (String ch c2). cbn [Py.all].
    by rewrite Hp, (IH _ _ _ H2). }
  destruct greedy.
  - intros [H|[= -> ->]%list_elem_of_singleton]%elem_of_app; auto.
  - intros [[= -> ->]|H]%elem_of_cons; auto.
Qed.

(** A match of the pattern of a [Types:] or [Keywords:] comment: its two
    outer groups make up the whole match, which ends in a newline. *)
Lemma names_match word before text m :
  match_ (names_regex word) before text = Some m →
  group m 1 +:+ group m 5 = group m 0
  ∧ ∃ line, group m 0 = line +:+ String Py.nl "".
Proof.
  intros (c & st & Hin & ->)%match_elem.
  apply exec_Seq_inv in Hin as (c1 & st1 & c5 & H1 & H5 & ->).
  apply exec_Group_inv in H1 as (st1' & H1 & Hg1).
  apply exec_Group_inv in H5 as (st5' & H5 & Hg5).
  pose proof (exec_groupless to_eol _ _ _ eq_refl H5) as Hgl.
  apply to_eol_newline in H5 as (line & ->).
  unfold group. rewrite Hg5, Hgl, Hg1.
  rewrite (lookup_insert_ne _ 0 1), (lookup_insert_ne _ 5 1),
    lookup_insert_eq by done.
  rewrite (lookup_insert_ne _ 0 5), !lookup_insert_eq by done.
  cbn [from_option id]. split; [done|].
  exists (c1 +:+ line). by rewrite app_assoc.
Qed.

Lemma exec_Lit_inv s st c st' : (c, st') ∈ exec (Lit s) st → c = s.
Proof.
  revert st c. induction s as [|a s IH]; intros st c; cbn [Lit].
  { by intros [= -> ->]%list_elem_of_singleton. }
  intros (c1 & st1 & c2 & H1 & H2 & ->)%exec_Seq_inv.
  apply exec_Class_inv in H1 as (ch & -> & <-%Ascii.eqb_eq & _).
  by rewrite (IH _ _ H2).
Qed.

Lemma continuation_inv n st c st' :
  (c, st') ∈ exec (Opt (Group n continuation)) st →
  c = "" ∨ c = "\" +:+ String Py.nl "".
Proof.
  unfold Opt. cbn [exec].
  intros [H|[= -> ->]%list_elem_of_singleton]%elem_of_app; [|by left].
  right. apply list_elem_of_fmap in H as ([c1 st1] & [= -> ->] & H).
  apply exec_Seq_inv in H as (x & st2 & y & Hx & Hy & ->).
  apply exec_Class_inv in Hx as (ch & -> & <-%Ascii.eqb_eq & _).
  by apply exec_newline_inv in Hy as ->.
Qed.

(** What [/(\\\n)?/(\\\n)?/] matches. *)
Lemma slashes_shape n st c st' :
  (c, st') ∈ exec (slashes n) st →
  ∃ c1 c2,
    (c1 = "" ∨ c1 = "\" +:+ String Py.nl "")
    ∧ (c2 = "" ∨ c2 = "\" +:+ String Py.nl "")
    ∧ c = "/" +:+ c1 +:+ "/" +:+ c2 +:+ "/".
Proof.
  intros (s1 & st1 & r1 & H1 & H & ->)%exec_Seq_inv.
  apply exec_Seq_inv in H as (c1 & st2 & r2 & Hc1 & H & ->).
  apply exec_Seq_inv in H as (s2 & st3 & r3 & H2 & H & ->).
  apply exec_Seq_inv in H as (c2 & st4 & s3 & Hc2 & H3 & ->).
  apply exec_Lit_inv in H1 as ->. apply exec_Lit_inv in H2 as ->.
  apply exec_Lit_inv in H3 as ->.
  apply continuation_inv in Hc1. apply continuation_inv in Hc2.
  by exists c1, c2.
Qed.

(** What [.*?[^\\]\n] matches. *)
Lemma to_eol_shape st c st' :
  (c, st') ∈ exec to_eol st →
  ∃ body last,
    Py.all dot body = true ∧ last ≠ "\"%char
    ∧ c = body +:+ String last "" +:+ String Py.nl "".
Proof.
  intros (c1 & st1 & c2 & H1 & H & ->)%exec_Seq_inv.
  apply exec_Seq_inv in H as (c3 & st3 & c4 & H3 & H4 & ->).
  apply exec_Class_inv in H3 as (ch & -> & Hch & _).
  apply exec_newline_inv in H4 as ->.
  apply star_class_all in H1.
  exists c1, ch. split; [done|]. split; [|done].
  intros ->. discriminate Hch.
Qed.

Lemma puretex_rule_tokens before text toks :
  puretex_rule before text = Some toks →
  ∃ c1 c2 body last rest',
    let ind := (Py.span CilkBookFormatter.hspace text).1 in
    let g1 := "/" +:+ c1 +:+ "/" +:+ c2 +:+ "/" in
    let g4 := body +:+ String last "" +:+ String Py.nl "" in
    (c1 = "" ∨ c1 = "\" +:+ String Py.nl "")
    ∧ (c2 = "" ∨ c2 = "\" +:+ String Py.nl "")
    ∧ Py.all dot body = true
    ∧ last ≠ "\"%char
    ∧ text = ind +:+ g1 +:+ g4 +:+ rest'
    ∧ toks = [(Comment_Invisible, g1); (Comment_PureTeX, g4)].
Proof.
  unfold puretex_rule.
  destruct (match_ puretex_regex before text) as [m|] eqn:Hm; [|done].
  intros [= <-]. apply match_elem in Hm as (c & st & Hin & ->).
  pose proof (exec_consumes _ _ _ _ Hin) as Htext. cbn [rest] in Htext.
  apply exec_Seq_inv in Hin as (ind & st0 & c' & Hind & Hin & ->).
  apply exec_Seq_inv in Hin as (g1 & st1 & g4 & H1 & H4 & ->).
  apply exec_Group_inv in H1 as (st1' & H1 & Hg1).
  apply exec_Group_inv in H4 as (st4' & H4 & Hg4).
  pose proof (exec_groupless to_eol _ _ _ eq_refl H4) as Hgl.
  apply to_eol_shape in H4 as (body & last & Hbody & Hlast & ->).
  pose proof (slashes_not_empty _ _ _ _ H1) as Hne.
  apply slashes_shape in H1 as (c1 & c2 & Hc1 & Hc2 & ->).
  apply star_class_all in Hind.
  exists c1, c2, body, last, (rest st). cbv zeta.
  do 4 (split; [done|]).
  assert (text = ind +:+ ("/" +:+ c1 +:+ "/" +:+ c2 +:+ "/")
                   +:+ (body +:+ String last "" +:+ String Py.nl "")
                   +:+ rest st) as Hsplit.
  { by rewrite Htext, !app_assoc. }
  assert ((Py.span CilkBookFormatter.hspace text).1 = ind) as ->.
  { rewrite Hsplit. by rewrite WriteFacts.span_decompose. }
  split; [done|].
  unfold bygroups, group. cbn [imap flat_map app compose].
  rewrite Hg4, Hgl, Hg1.
  rewrite (lookup_insert_ne _ 0 1), (lookup_insert_ne _ 4 1),
    lookup_insert_eq by done.
  rewrite (lookup_insert_ne _ 0 4), lookup_insert_eq by done.
  cbn [from_option id].
  apply String.eqb_neq in Hne. rewrite Hne.
  assert (body +:+ String last "" +:+ String Py.nl "" ≠ "")
    as Hl%String.eqb_neq
    by by apply app_not_empty_r, app_not_empty_r.
  by rewrite Hl.
Qed.

Lemma marker_rule_tokens mark t before text toks :
  token_rule (marker_regex mark) t before text = Some toks →
  ∃ line rest',
    text = line +:+ String Py.nl "" +:+ rest'
    ∧ toks = [(t, line +:+ String Py.nl "")].
Proof.
  unfold token_rule.
  destruct (match_ (marker_regex mark) before text) as [m|] eqn:Hm; [|done].
  intros [= <-]. apply match_elem in Hm as (c & st & Hin & ->).
  pose proof (exec_consumes _ _ _ _ Hin) as Htext. cbn [rest] in Htext.
  unfold group. rewrite lookup_insert_eq. cbn [from_option id].
  assert (∃ line, c = line +:+ String Py.nl "") as (line & ->).
  { apply exec_Seq_inv in Hin as (ind & st0 & c' & _ & Hin & ->).
    apply exec_Seq_inv in Hin as (sl & st1 & c'' & _ & Hin & ->).
    apply exec_Seq_inv in Hin as (g3 & st3 & g4 & _ & H4 & ->).
    apply exec_Group_inv in H4 as (st4' & H4 & _).
    cbn [exec] in H4. apply elem_of_app in H4 as [H4|H4].
    - assert (g4 = String Py.nl "") as ->.
      { by eapply (exec_newline_inv st3 g4 st4'). }
      exists (ind +:+ sl +:+ g3). by rewrite !app_assoc.
    - change (star false _ _ st3 ≫= _)
        with (exec
                (Seq (Star false
                        (Group 5 (Alt (Class dot)
                                    (Class (Ascii.eqb Py.nl)))))
                   (Seq (Class not_backslash)
                      (Class (Ascii.eqb Py.nl)))) st3) in H4.
      apply exec_Seq_inv in H4 as (x & stx & y & _ & H4 & ->).
      apply exec_Seq_inv in H4 as (y1 & sty & y2 & Hy1 & Hy2 & ->).
      apply exec_Class_inv in Hy1 as (ch & -> & _).
      apply exec_newline_inv in Hy2 as ->.
      exists (ind +:+ sl +:+ g3 +:+ x +:+ String ch "").
      by rewrite !app_assoc. }
  exists line, (rest st). split; [|done]. by rewrite Htext, app_assoc.
Qed.

(** *** Lines that the rules recognise *)

Lemma string_length_app s t :
  String.length (s +:+ t) = String.length s + String.length t.
Proof.
  induction s as [|c s IH]; [done|].
  rewrite app_cons. cbn [String.length]. by rewrite IH.
Qed.

Lemma head_exec_Seq r1 r2 st c1 st1 c2 st2 :
  head (exec r1 st) = Some (c1, st1) →
  head (exec r2 st1) = Some (c2, st2) →
  head (exec (Seq r1 r2) st) = Some (c1 +:+ c2, st2).
Proof.
  cbn [exec]. destruct (exec r1 st) as [|[c1' st1'] l1]; [done|].
  intros [= -> ->].
  destruct (exec r2 st1) as [|[c2' st2'] l2] eqn:H2; [done|].
  intros [= -> ->]. cbn. by rewrite H2.
Qed.

(** The greedy loop over a class takes first all the characters of the
    class that the text starts with. *)
Lemma star_greedy_head p ind tail pv gs fuel :
  Py.all p ind = true →
  match tail with "" => true | String ch _ => negb (p ch) end = true →
  String.length ind ≤ fuel →
  ∃ pv',
    head (star true (exec (Class p)) fuel
            {| prev := pv; rest := ind +:+ tail; groups := gs |})
    = Some (ind, {| prev := pv'; rest := tail; groups := gs |}).
Proof.
  intros Hall Htail. revert pv fuel Hall.
  induction ind as [|ch ind IH]; intros pv fuel Hall Hfuel.
  { exists pv. change ("" +:+ tail) with tail.
    destruct fuel as [|fuel]; [done|]. cbn [star exec rest].
    destruct tail as [|ch s]; [done|].
    apply negb_true_iff in Htail. by rewrite Htail. }
  cbn in Hall. apply andb_true_iff in Hall as [Hch Hall].
  cbn in Hfuel. destruct fuel as [|fuel]; [lia|].
  destruct (IH (Some ch) fuel Hall) as (pv' & Hhead); [lia|].
  exists pv'.
  change (String ch ind +:+ tail) with (String ch (ind +:+ tail)).
  cbn [star exec rest]. rewrite Hch. cbn [mbind list_bind flat_map app String.eqb].
  destruct (star true _ fuel _) as [|[c2 st2] l]; [done|].
  injection Hhead as -> ->. done.
Qed.

Lemma indentation_head ind tail pv :
  Py.all CilkBookFormatter.hspace ind = true →
  match tail with
  | "" => true
  | String ch _ => negb (CilkBookFormatter.hspace ch)
  end = true →
  ∃ pv',
    head (exec indentation {| prev := pv; rest := ind +:+ tail; groups := ∅ |})
    = Some (ind, {| prev := pv'; rest := tail; groups := ∅ |}).
Proof.
  intros Hall Htail. unfold indentation. cbn [exec rest].
  apply star_greedy_head; [done..|]. rewrite string_length_app. lia.
Qed.

Lemma token_rule_head r t before text c st :
  head (exec r {| prev := before; rest := text; groups := ∅ |})
  = Some (c, st) →
  token_rule r t before text = Some [(t, c)].
Proof.
  intros H. unfold token_rule, match_. rewrite H. cbn.
  unfold group. by rewrite lookup_insert_eq.
Qed.

End RuleFacts.

(** X17. The rules of the comments [Types:] and [Keywords:] turn what
    they match into one [Comment.Invisible] token.  Its text is the whole
    match, which starts the text where the rule is tried and ends in a
    newline: [customkeywords_callback], which yields the first group
    followed by the fifth instead of the match, loses no text. *)
Theorem names_comment_is_one_token
    (lexer : CilkLexer.instance) (before : option ascii) (text : string)
    (h h1 : gmap nat (list string)) (toks : list Token.token)
    (Hrule : CilkRules.keywords_rule lexer before text h = Some (toks, h1)
             ∨ CilkRules.types_rule lexer before text h = Some (toks, h1)) :
  ∃ line rest : string,
    text = line +:+ Sample.NL +:+ rest
    ∧ toks = [(Token.Comment_Invisible, line +:+ Sample.NL)].
Proof.
  assert (∃ word m,
            Re.match_ (CilkRules.names_regex word) before text = Some m
            ∧ toks = [(Token.Comment_Invisible, Re.group m 0)])
    as (word & m & Hm & ->).
  { destruct Hrule as [Hrule|Hrule];
      unfold CilkRules.keywords_rule, CilkRules.types_rule,
        CilkRules.callback_rule in Hrule;
      destruct (Re.match_ _ before text) as [m|] eqn:Hm; try done;
      cbn [mbind option_bind] in Hrule.
    - exists "Keywords:", m. split; [done|].
      unfold CilkLexer.customkeywords_callback in Hrule.
      destruct (CilkLexer.add_names _ _ _ _); [|done].
      cbn [mbind option_bind] in Hrule. injection Hrule as <- _.
      by destruct (RuleFacts.names_match _ _ _ _ Hm) as [-> _].
    - exists "Types:", m. split; [done|].
      unfold CilkLexer.customtypes_callback in Hrule.
      destruct (CilkLexer.add_names _ _ _ _); [|done].
      cbn [mbind option_bind] in Hrule. by injection Hrule as <- _. }
  destruct (RuleFacts.names_match _ _ _ _ Hm) as [_ (line & Hline)].
  destruct (RuleFacts.match_prefix _ _ _ _ Hm) as (rest & ->).
  exists line, rest. rewrite Hline. split; [|done].
  by rewrite PyFacts.app_assoc.
Qed.

Lemma names_comment_is_one_token_witness :
  ∃ line rest : string,
    "/// Keywords: spawn  sync" +:+ Sample.NL +:+ "int x;"
    = line +:+ Sample.NL +:+ rest
    ∧ [(Token.Comment_Invisible, "/// Keywords: spawn  sync" +:+ Sample.NL)]
      = [(Token.Comment_Invisible, line +:+ Sample.NL)].
Proof.
  apply (names_comment_is_one_token (CilkLexer.new 0) None
           ("/// Keywords: spawn  sync" +:+ Sample.NL +:+ "int x;")
           CilkLexer.class_heap {[ 0 := []; 1 := ["spawn"; "sync"] ]}).
  left. vm_compute. reflexivity.
Defined.

(** X18. The rule of the other comments that start with three slashes
    yields two tokens.  The first, [Comment.Invisible], is the three
    slashes, each of the first two possibly followed by a backslash and a
    newline: it starts at the first slash.  The second,
    [Comment.PureTeX], is the rest of the line with its newline, the
    character before that newline being no backslash.  The white space
    [[ \t\f\v]*] that the rule matches before the slashes, which is all
    the white space that the text starts with, is in no group, so it is
    in neither token: the indentation of such a comment is not in the
    token stream. *)
Theorem puretex_rule_drops_indentation
    (before : option ascii) (text : string) (toks : list Token.token)
    (Hrule : CilkRules.puretex_rule before text = Some toks) :
  ∃ (c1 c2 body : string) (last : ascii) (rest : string),
    let ind := (Py.span CilkBookFormatter.hspace text).1 in
    let slashes := "/" +:+ c1 +:+ "/" +:+ c2 +:+ "/" in
    let line := body +:+ String last "" +:+ Sample.NL in
    (c1 = "" ∨ c1 = "\" +:+ Sample.NL)
    ∧ (c2 = "" ∨ c2 = "\" +:+ Sample.NL)
    ∧ Py.all Re.dot body = true
    ∧ last ≠ "\"%char
    ∧ text = ind +:+ slashes +:+ line +:+ rest
    ∧ toks = [(Token.Comment_Invisible, slashes);
              (Token.Comment_PureTeX, line)].
Proof. exact (RuleFacts.puretex_rule_tokens before text toks Hrule). Qed.

Lemma puretex_rule_drops_indentation_witness :
  ∃ (c1 c2 body : string) (last : ascii) (rest : string),
    let ind :=
      (Py.span CilkBookFormatter.hspace
         ("  /// \label{a}" +:+ Sample.NL +:+ "int x;")).1 in
    let slashes := "/" +:+ c1 +:+ "/" +:+ c2 +:+ "/" in
    let line := body +:+ String last "" +:+ Sample.NL in
    (c1 = "" ∨ c1 = "\" +:+ Sample.NL)
    ∧ (c2 = "" ∨ c2 = "\" +:+ Sample.NL)
    ∧ Py.all Re.dot body = true
    ∧ last ≠ "\"%char
    ∧ "  /// \label{a}" +:+ Sample.NL +:+ "int x;"
      = ind +:+ slashes +:+ line +:+ rest
    ∧ [(Token.Comment_Invisible, "///");
       (Token.Comment_PureTeX, " \label{a}" +:+ Sample.NL)]
      = [(Token.Comment_Invisible, slashes);
         (Token.Comment_PureTeX, line)].
Proof.
  apply (puretex_rule_drops_indentation None
           ("  /// \label{a}" +:+ Sample.NL +:+ "int x;")).
  vm_compute. reflexivity.
Defined.

(** X19. When the rule of the marker [>>] or of the marker [<<] matches,
    it yields one token, a begin marker or an end marker, whose text is
    all that was matched, up to and with a newline.  On that token both
    formatters write nothing, so the marker's line leaves no trace, not
    even its newline; afterwards [skiptoken] is set for [>>] and unset
    for [<<], whatever it was, and the rest of the state is as it was. *)
Theorem visibility_marker_is_one_token
    (STANDARD_TYPES : gmap Token.ttype string)
    (tex : CilkBookFormatter.formatter) (st_tex : CilkBookFormatter.state)
    (rtf : CHRtfFormatter.formatter) (color_mapping : gmap string nat)
    (st_rtf : CHRtfFormatter.state)
    (hide : bool) (before : option ascii) (text : string)
    (toks : list Token.token)
    (Hrule : (if hide then CilkRules.hide_rule else CilkRules.show_rule)
               before text = Some toks) :
  (∃ line rest : string,
     text = line +:+ Sample.NL +:+ rest
     ∧ toks = [(if hide then Token.Comment_Invisible_Begin
                else Token.Comment_Invisible_End, line +:+ Sample.NL)])
  ∧ CilkBookFormatter.run STANDARD_TYPES tex st_tex toks
    = (CilkBookFormatter.set_skiptoken hide st_tex, [""])
  ∧ CHRtfFormatter.run rtf color_mapping st_rtf toks
    = ([""], Some (CHRtfFormatter.set_skiptoken hide st_rtf))
  ∧ (∃ st',
       CilkBookFormatter.run STANDARD_TYPES tex st_tex toks = (st', [""])
       ∧ CilkBookFormatter.skiptoken st' = hide
       ∧ CilkBookFormatter.initialindent st'
         = CilkBookFormatter.initialindent st_tex
       ∧ CilkBookFormatter.find_next_indent st'
         = CilkBookFormatter.find_next_indent st_tex
       ∧ CilkBookFormatter.newline st' = CilkBookFormatter.newline st_tex
       ∧ CilkBookFormatter.wrotelines st'
         = CilkBookFormatter.wrotelines st_tex)
  ∧ (∃ st',
       CHRtfFormatter.run rtf color_mapping st_rtf toks = ([""], Some st')
       ∧ CHRtfFormatter.skiptoken st' = hide
       ∧ CHRtfFormatter.initialindent st'
         = CHRtfFormatter.initialindent st_rtf
       ∧ CHRtfFormatter.find_next_indent st'
         = CHRtfFormatter.find_next_indent st_rtf
       ∧ CHRtfFormatter.newline st' = CHRtfFormatter.newline st_rtf).
Proof.
  assert (∃ line rest : string,
     text = line +:+ Sample.NL +:+ rest
     ∧ toks = [(if hide then Token.Comment_Invisible_Begin
                else Token.Comment_Invisible_End, line +:+ Sample.NL)])
    as (line & rest & -> & ->).
  { destruct hide;
      by apply RuleFacts.marker_rule_tokens in Hrule
        as (line & rest & -> & ->); eauto. }
  assert (CilkBookFormatter.run STANDARD_TYPES tex st_tex
            [(if hide then Token.Comment_Invisible_Begin
              else Token.Comment_Invisible_End, line +:+ Sample.NL)]
          = (CilkBookFormatter.set_skiptoken hide st_tex, [""])) as Htex.
  { destruct hide; cbn [CilkBookFormatter.run]; by step_markers. }
  assert (CHRtfFormatter.run rtf color_mapping st_rtf
            [(if hide then Token.Comment_Invisible_Begin
              else Token.Comment_Invisible_End, line +:+ Sample.NL)]
          = ([""], Some (CHRtfFormatter.set_skiptoken hide st_rtf))) as Hrtf.
  { destruct hide; cbn [CHRtfFormatter.run]; by step_markers. }
  split_and!; [by eauto|done|done|..].
  - exists (CilkBookFormatter.set_skiptoken hide st_tex). by split_and!.
  - exists (CHRtfFormatter.set_skiptoken hide st_rtf). by split_and!.
Qed.

Lemma visibility_marker_is_one_token_witness :
  let shown_tex :=
    {| CilkBookFormatter.skiptoken := false;
       CilkBookFormatter.initialindent := "  ";
       CilkBookFormatter.find_next_indent := false;
       CilkBookFormatter.newline := true;
       CilkBookFormatter.wrotelines := true |} in
  let shown_rtf :=
    {| CHRtfFormatter.skiptoken := false;
       CHRtfFormatter.initialindent := "  ";
       CHRtfFormatter.find_next_indent := false;
       CHRtfFormatter.newline := true |} in
  let text := "///>> the rest \" +:+ Sample.NL +:+ "is hidden" +:+ Sample.NL
                +:+ "int x;" in
  let toks := [(Token.Comment_Invisible_Begin,
                "///>> the rest \" +:+ Sample.NL +:+ "is hidden"
                  +:+ Sample.NL)] in
  CilkRules.hide_rule None text = Some toks
  ∧ CilkBookFormatter.run Sample.STANDARD_TYPES Sample.tex shown_tex toks
    = ({| CilkBookFormatter.skiptoken := true;
          CilkBookFormatter.initialindent := "  ";
          CilkBookFormatter.find_next_indent := false;
          CilkBookFormatter.newline := true;
          CilkBookFormatter.wrotelines := true |}, [""])
  ∧ CHRtfFormatter.run Sample.rtf Sample.color_mapping shown_rtf toks
    = ([""],
       Some {| CHRtfFormatter.skiptoken := true;
               CHRtfFormatter.initialindent := "  ";
               CHRtfFormatter.find_next_indent := false;
               CHRtfFormatter.newline := true |}).
Proof.
  intros shown_tex shown_rtf text toks.
  assert (CilkRules.hide_rule None text = Some toks) as Hrule
    by by vm_compute.
  destruct (visibility_marker_is_one_token Sample.STANDARD_TYPES
              Sample.tex shown_tex Sample.rtf Sample.color_mapping
              shown_rtf true None text toks Hrule)
    as (_ & _ & _ & (st1 & -> & Hs1 & Hi1 & Hf1 & Hn1 & Hw1)
          & (st2 & -> & Hs2 & Hi2 & Hf2 & Hn2)).
  destruct st1, st2. cbn in *. subst. by split_and!.
Defined.

(** X20. A line made of any indentation by spaces, tabs, form feeds and
    vertical tabs, three slashes, the marker and the newline is matched
    as a whole by the marker's rule, wherever it stands and whatever
    follows it: the token holds the indentation and the newline. *)
Theorem marker_lines_are_recognised
    (ind rest : string) (before : option ascii)
    (Hind : Py.all CilkBookFormatter.hspace ind = true) :
  CilkRules.hide_rule before (ind +:+ "///>>" +:+ Sample.NL +:+ rest)
  = Some [(Token.Comment_Invisible_Begin, ind +:+ "///>>" +:+ Sample.NL)]
  ∧ CilkRules.show_rule before (ind +:+ "///<<" +:+ Sample.NL +:+ rest)
    = Some [(Token.Comment_Invisible_End, ind +:+ "///<<" +:+ Sample.NL)].
Proof.
  split.
  - destruct (RuleFacts.indentation_head ind
                ("///>>" +:+ Sample.NL +:+ rest) before Hind)
      as (pv' & Hh); [reflexivity|].
    unfold CilkRules.hide_rule, CilkRules.marker_regex.
    eapply RuleFacts.token_rule_head, RuleFacts.head_exec_Seq;
      [exact Hh|reflexivity].
  - destruct (RuleFacts.indentation_head ind
                ("///<<" +:+ Sample.NL +:+ rest) before Hind)
      as (pv' & Hh); [reflexivity|].
    unfold CilkRules.show_rule, CilkRules.marker_regex.
    eapply RuleFacts.token_rule_head, RuleFacts.head_exec_Seq;
      [exact Hh|reflexivity].
Qed.

Lemma marker_lines_are_recognised_witness :
  CilkRules.hide_rule (Some ";"%char)
    ("    ///>>" +:+ Sample.NL +:+ "int x;")
  = Some [(Token.Comment_Invisible_Begin, "    ///>>" +:+ Sample.NL)]
  ∧ CilkRules.show_rule (Some ";"%char)
      ("    ///<<" +:+ Sample.NL +:+ "int x;")
    = Some [(Token.Comment_Invisible_End, "    ///<<" +:+ Sample.NL)].
Proof.
  apply (marker_lines_are_recognised "    " "int x;" (Some ";"%char)).
  reflexivity.
Defined.

(** ** Comments in the LaTeX formatter *)

Module CommentFacts.
Import Token Py PyFacts LineFacts CilkBookFormatter.

Lemma split_absent sep a : occurs sep a = false → split sep a = [a].
Proof.
  intros Ha. rewrite <-(app_nil_r a) at 1.
  rewrite split_app_absent by done. cbn. by rewrite app_nil_r.
Qed.

(** Joining pieces that do not hold the separator and splitting again
    gives the pieces back. *)
Lemma split_join sep parts :
  parts ≠ [] → Forall (λ w, occurs sep w = false) parts →
  split sep (join (String sep "") parts) = parts.
Proof.
  induction parts as [|x [|y parts] IH]; intros Hne Hall; [done|..].
  - cbn [join]. apply split_absent. by apply Forall_inv in Hall.
  - change (join (String sep "") (x :: y :: parts))
      with (x +:+ String sep "" +:+ join (String sep "") (y :: parts)).
    change (String sep "" +:+ join (String sep "") (y :: parts))
      with (String sep (join (String sep "") (y :: parts))).
    rewrite split_app_absent by by apply Forall_inv in Hall.
    rewrite split_sep, app_nil_r, IH; [done|done|].
    by apply Forall_inv_tail in Hall.
Qed.

Section comments.
Context (self : formatter).

Lemma escape_parts_length in_math parts :
  length (escape_parts self in_math parts) = length parts.
Proof.
  revert in_math. induction parts as [|p parts IH]; intros b; [done|].
  cbn. by rewrite IH.
Qed.

Lemma escape_parts_lookup in_math parts i :
  escape_parts self in_math parts !! i
  = (λ part, if xorb in_math (Nat.odd i) then part else escape self part)
      <$> parts !! i.
Proof.
  revert in_math i. induction parts as [|p parts IH]; intros b i; [done|].
  destruct i as [|i]; cbn [escape_parts lookup list_lookup].
  - cbn. by destruct b.
  - rewrite IH. rewrite Nat.odd_succ, <-Nat.negb_odd.
    by destruct b, (Nat.odd i).
Qed.

Lemma escape_parts_no_dollar in_math parts :
  all isletter (commandprefix self) = true →
  Forall (λ w, occurs "$" w = false) parts →
  Forall (λ w, occurs "$" w = false) (escape_parts self in_math parts).
Proof.
  intros Hcp. revert in_math.
  induction parts as [|p parts IH]; intros b Hall; [constructor|].
  apply Forall_cons in Hall as [Hp Hall]. cbn [escape_parts].
  constructor; [|by apply IH].
  destruct b; [done|]. unfold escape.
  rewrite EscapeMore.escape_tex_flat_map by done.
  apply occurs_flat_map. intros d. by apply EscapeMore.tex_repl_gone.
Qed.

(** The style classes of a category under [Comment.PureTeX] are never
    empty: there are at least two names, so at least one [+]. *)
Lemma join_two_not_empty sep x y l : join (String sep "") (x :: y :: l) ≠ "".
Proof.
  change (join (String sep "") (x :: y :: l))
    with (x +:+ String sep "" +:+ join (String sep "") (y :: l)).
  apply ReFacts.app_not_empty_r. done.
Qed.

Lemma styleval_puretex ST t :
  t ∈t Comment_PureTeX → styleval ST self t ≠ "".
Proof.
  intros [k ->]%TokenFacts.contains_prefix. unfold styleval.
  cbn [Comment_PureTeX Comment app lineage map fmap list_fmap].
  apply join_two_not_empty.
Qed.

End comments.
End CommentFacts.

(** X21. A shown token under [Comment.PureTeX] reaches the LaTeX output
    unescaped: with [reindent] unset the formatter writes the lines of
    the value, as they are, each in a [\PY{classes}{...}] call unless it
    is empty, with the newlines between them.  The classes are never
    empty for such a token, so the branch that writes without a call is
    not taken. *)
Theorem puretex_is_written_raw
    (STANDARD_TYPES : gmap Token.ttype string)
    (self : CilkBookFormatter.formatter) (st : CilkBookFormatter.state)
    (t : Token.ttype) (value : string)
    (Hre : CilkBookFormatter.reindent self = false)
    (Hshown : CilkBookFormatter.skiptoken st = false)
    (Hpure : Token.contains Token.Comment_PureTeX t = true) :
  let sv := CilkBookFormatter.styleval STANDARD_TYPES self t in
  sv ≠ ""
  ∧ (CilkBookFormatter.step STANDARD_TYPES self st (t, value)).2
    = Py.join Sample.NL
        ((λ line, if String.eqb line "" then ""
                  else CilkBookFormatter.styled self sv line)
           <$> Py.split Py.nl value).
Proof.
  intros sv.
  assert (sv ≠ "") as Hsv by by apply CommentFacts.styleval_puretex.
  split; [done|].
  assert (Token.contains Token.Comment_Invisible_End t = false) as He.
  { apply TokenFacts.contains_prefix in Hpure as [k ->].
    apply bool_decide_eq_false. by intros [k' Hk']. }
  assert (Token.contains Token.Comment_Invisible_Begin t = false) as Hb.
  { apply TokenFacts.contains_prefix in Hpure as [k ->].
    apply bool_decide_eq_false. by intros [k' Hk']. }
  unfold CilkBookFormatter.step. rewrite He, Hb, Hshown, Hre, Hpure.
  cbn [andb negb]. rewrite andb_false_r. cbn [andb]. fold sv.
  apply String.eqb_neq in Hsv. rewrite Hsv.
  pose proof (WriteFacts.tex_write_styled_text self sv
                (Py.split Py.nl value) st
                (LineFacts.split_nonempty _ _)) as Hw.
  destruct (CilkBookFormatter.write_styled _ _ _ _) as [st' out].
  cbn [snd] in *. by rewrite PyFacts.app_nil_l, Hw.
Qed.

Lemma puretex_is_written_raw_witness :
  let sv := CilkBookFormatter.styleval Sample.STANDARD_TYPES Sample.tex
              Token.Comment_PureTeX in
  sv ≠ ""
  ∧ (CilkBookFormatter.step Sample.STANDARD_TYPES Sample.tex
       (CilkBookFormatter.initial Sample.tex)
       (Token.Comment_PureTeX, " \label{a_1}" +:+ Sample.NL)).2
    = Py.join Sample.NL
        ((λ line, if String.eqb line "" then ""
                  else CilkBookFormatter.styled Sample.tex sv line)
           <$> Py.split Py.nl (" \label{a_1}" +:+ Sample.NL)).
Proof.
  apply (puretex_is_written_raw Sample.STANDARD_TYPES Sample.tex
           (CilkBookFormatter.initial Sample.tex) Token.Comment_PureTeX
           (" \label{a_1}" +:+ Sample.NL)); reflexivity.
Defined.

(** X22. The [mathescape] branch keeps the math of a comment: for a
    command prefix made of letters, what it returns has as many [$] as
    the comment, the segments between them at odd positions, the math,
    are the comment's, unchanged, and those at even positions are the
    comment's, escaped. *)
Theorem mathescape_keeps_math_segments
    (self : CilkBookFormatter.formatter) (value : string)
    (Hcp : Py.all Py.isletter (CilkBookFormatter.commandprefix self) = true) :
  let out := CilkBookFormatter.escape_mathcomment self value in
  length (Py.split "$" out) = length (Py.split "$" value)
  ∧ ∀ (i : nat) (part : string),
      Py.split "$" value !! i = Some part →
      Py.split "$" out !! i
      = Some (if Nat.even i
              then escape_tex part (CilkBookFormatter.commandprefix self)
              else part).
Proof.
  intros out.
  assert (Py.split "$" out
          = CilkBookFormatter.escape_parts self false (Py.split "$" value))
    as ->.
  { unfold out, CilkBookFormatter.escape_mathcomment.
    apply CommentFacts.split_join.
    - pose proof (LineFacts.split_nonempty "$" value) as Hne.
      by destruct (Py.split "$" value).
    - apply CommentFacts.escape_parts_no_dollar; [done|].
      apply LineFacts.split_pieces. }
  split; [apply CommentFacts.escape_parts_length|].
  intros i part Hi. rewrite CommentFacts.escape_parts_lookup, Hi.
  cbn. rewrite <-Nat.negb_odd. by destruct (Nat.odd i).
Qed.

Lemma mathescape_keeps_math_segments_witness :
  let out := CilkBookFormatter.escape_mathcomment Sample.tex
               "// a_b is $x_1 + y$ here" in
  length (Py.split "$" out) = 3
  ∧ ∀ (i : nat) (part : string),
      Py.split "$" "// a_b is $x_1 + y$ here" !! i = Some part →
      Py.split "$" out !! i
      = Some (if Nat.even i then escape_tex part "PY" else part).
Proof.
  apply (mathescape_keeps_math_segments Sample.tex
           "// a_b is $x_1 + y$ here").
  reflexivity.
Defined.

(** ** Reindenting *)

Module ReindentFacts.
Import Token Py PyFacts LineFacts.
Import CilkBookFormatter.

(** *** Prefixes *)

Lemma startswith_app p s : startswith p (p +:+ s) = true.
Proof.
  induction p as [|a p IH]; [done|]. rewrite app_cons. cbn [startswith].
  by rewrite Ascii.eqb_refl.
Qed.

Lemma drop_app p s : drop (String.length p) (p +:+ s) = s.
Proof. induction p as [|a p IH]; [done|]. by rewrite app_cons. Qed.

Lemma startswith_inv p s :
  startswith p s = true → s = p +:+ drop (String.length p) s.
Proof.
  revert s. induction p as [|a p IH]; intros s; [done|].
  destruct s as [|b s]; [done|]. cbn [startswith].
  intros [->%Ascii.eqb_eq Hs]%andb_true_iff. rewrite app_cons.
  cbn [String.length drop]. by rewrite <-IH.
Qed.

Lemma strip_indent_app ind s : strip_indent ind (ind +:+ s) = s.
Proof. unfold strip_indent. by rewrite startswith_app, drop_app. Qed.

Lemma strip_indent_empty ind : strip_indent ind "" = "".
Proof. unfold strip_indent. by destruct ind. Qed.

Lemma strip_indent_cases ind s :
  (∃ s', s = ind +:+ s' ∧ strip_indent ind s = s')
  ∨ (startswith ind s = false ∧ strip_indent ind s = s).
Proof.
  unfold strip_indent. destruct (startswith ind s) eqn:H; [left|by right].
  exists (drop (String.length ind) s). split; [by apply startswith_inv|done].
Qed.

(** *** The baseline and the newline *)

Lemma hspace_not_nl c : hspace c = true → Ascii.eqb c nl = false.
Proof. destruct c as [[] [] [] [] [] [] [] []]; done. Qed.

Lemma hspace_not_backslash c : hspace c = true → Ascii.eqb c "\" = false.
Proof. destruct c as [[] [] [] [] [] [] [] []]; done. Qed.

Lemma hspace_occurs_nl ind : all hspace ind = true → occurs nl ind = false.
Proof.
  induction ind as [|a ind IH]; [done|]. cbn [all occurs].
  intros [Ha Hind]%andb_true_iff. by rewrite (hspace_not_nl a Ha), IH.
Qed.

Lemma tex_repl_hspace cp c : hspace c = true → tex_repl cp c = String c "".
Proof. destruct c as [[] [] [] [] [] [] [] []]; done. Qed.

Lemma tex_repl_first cp c :
  ∃ d rest, tex_repl cp c = String d rest ∧ (d = c ∨ d = "\"%char).
Proof.
  destruct (EscapeMore.tex_repl_spec cp c) as [[_ ->]|[_ (z & _ & ->)]].
  - exists c, "". by split; [|left].
  - exists "\"%char, (cp +:+ z +:+ "{}"). by split; [|right].
Qed.

Section escape.
Context (cp : string) (Hcp : all isletter cp = true).

Lemma escape_hspace s : all hspace s = true → escape_tex s cp = s.
Proof.
  induction s as [|c s IH]; [done|]. cbn [all].
  intros [Hc Hs]%andb_true_iff.
  rewrite EscapeFacts.escape_tex_cons, EscapeFacts.escape_tex_char by done.
  by rewrite (tex_repl_hspace cp c Hc), IH.
Qed.

Lemma escape_nl : escape_tex (String nl "") cp = String nl "".
Proof. by rewrite EscapeFacts.escape_tex_char. Qed.

Lemma escape_newlines run :
  all (Ascii.eqb nl) run = true → escape_tex run cp = run.
Proof.
  induction run as [|c run IH]; [done|]. cbn [all].
  intros [<-%Ascii.eqb_eq Hs]%andb_true_iff.
  by rewrite EscapeFacts.escape_tex_cons, escape_nl, IH.
Qed.

Lemma escape_empty s : String.eqb (escape_tex s cp) "" = String.eqb s "".
Proof.
  destruct s as [|c s]; [done|].
  rewrite EscapeFacts.escape_tex_cons, EscapeFacts.escape_tex_char by done.
  destruct (tex_repl_first cp c) as (d & rest & -> & _). done.
Qed.

Lemma startswith_escape ind s :
  all hspace ind = true →
  startswith ind (escape_tex s cp) = startswith ind s.
Proof.
  revert s. induction ind as [|a ind IH]; intros s Hind; [done|].
  cbn [all] in Hind. apply andb_true_iff in Hind as [Ha Hind].
  destruct s as [|b s]; [done|].
  rewrite EscapeFacts.escape_tex_cons, EscapeFacts.escape_tex_char by done.
  cbn [startswith].
  destruct (Ascii.eqb_spec a b) as [<-|Hab].
  - rewrite (tex_repl_hspace cp a Ha), app_cons, app_nil_l.
    cbn [startswith]. rewrite Ascii.eqb_refl. cbn [andb]. by apply IH.
  - destruct (tex_repl_first cp b) as (d & rest & -> & [->| ->]);
      rewrite app_cons; cbn [startswith].
    + by destruct (Ascii.eqb_spec a b).
    + by rewrite (hspace_not_backslash a Ha).
Qed.

Lemma strip_indent_escape ind s :
  all hspace ind = true →
  strip_indent ind (escape_tex s cp) = escape_tex (strip_indent ind s) cp.
Proof.
  intros Hind. destruct (strip_indent_cases ind s) as [(s' & -> & ->)|[Hns ->]].
  - rewrite EscapeFacts.escape_tex_app, (escape_hspace ind) by done.
    apply strip_indent_app.
  - unfold strip_indent. by rewrite startswith_escape, Hns.
Qed.

Lemma escape_join ls :
  escape_tex (join (String nl "") ls) cp
  = join (String nl "") ((λ l, escape_tex l cp) <$> ls).
Proof.
  induction ls as [|x [|y ls] IH]; [done..|].
  change (join (String nl "") (x :: y :: ls))
    with (x +:+ String nl "" +:+ join (String nl "") (y :: ls)).
  by rewrite !EscapeFacts.escape_tex_app, escape_nl, IH.
Qed.

Lemma reindent_lines_escape b ind ls :
  all hspace ind = true →
  reindent_lines b ind ((λ l, escape_tex l cp) <$> ls)
  = (λ l, escape_tex l cp) <$> reindent_lines b ind ls.
Proof.
  intros Hind. destruct ls as [|l0 ls]; [done|].
  cbn [fmap list_fmap reindent_lines]. f_equal.
  - destruct b; [by apply strip_indent_escape|done].
  - rewrite <-!list_fmap_compose. apply list_fmap_ext.
    intros _ l _. cbn. by apply strip_indent_escape.
Qed.

Lemma reindent_text_escape b ind v :
  all hspace ind = true →
  reindent_text b ind (escape_tex v cp)
  = escape_tex (reindent_text b ind v) cp.
Proof.
  intros Hind. unfold reindent_text.
  by rewrite EscapeMore.escape_tex_split, reindent_lines_escape, escape_join.
Qed.

End escape.

(** *** Lines *)

Lemma split_first sep v l0 ls :
  split sep v = l0 :: ls → ∃ tail, v = l0 +:+ tail.
Proof.
  intros H. rewrite <-(join_split sep v), H.
  destruct ls as [|l1 ls]; [exists ""; cbn; by rewrite app_nil_r|].
  by eexists.
Qed.

(** Taking the baseline off a text takes it off the text's first line. *)
Lemma split_strip_indent ind v l0 ls :
  occurs nl ind = false → split nl v = l0 :: ls →
  split nl (strip_indent ind v) = strip_indent ind l0 :: ls.
Proof.
  intros Hind Hv.
  destruct (strip_indent_cases ind v) as [(v' & -> & ->)|[Hns ->]].
  - rewrite split_app_absent in Hv by done.
    pose proof (split_nonempty nl v') as Hne.
    destruct (split nl v') as [|w ws]; [done|].
    injection Hv as <- <-. by rewrite strip_indent_app.
  - rewrite Hv. f_equal.
    destruct (strip_indent_cases ind l0) as [(l' & -> & _)|[_ ->]]; [|done].
    destruct (split_first _ _ _ _ Hv) as (tail & ->).
    rewrite app_assoc, startswith_app in Hns. done.
Qed.

Lemma reindent_lines_true ind ls :
  reindent_lines true ind ls = strip_indent ind <$> ls.
Proof. by destruct ls. Qed.

Lemma reindent_text_strip ind v :
  occurs nl ind = false →
  reindent_text false ind (strip_indent ind v) = reindent_text true ind v.
Proof.
  intros Hind. unfold reindent_text.
  pose proof (split_nonempty nl v) as Hne.
  destruct (split nl v) as [|l0 ls] eqn:Hv; [done|].
  by rewrite (split_strip_indent ind v l0 ls).
Qed.

(** A text that starts with newlines: they make empty lines, from which
    there is nothing to take. *)
Lemma join_split_newlines (g f : string → string) run rest :
  all (Ascii.eqb nl) run = true → run ≠ "" → g "" = "" → f "" = "" →
  join (String nl "")
    (match split nl (run +:+ rest) with
     | [] => []
     | l0 :: ls => g l0 :: (f <$> ls)
     end)
  = run +:+ join (String nl "") (f <$> split nl rest).
Proof.
  intros Hrun Hne Hg Hf. revert g Hg.
  induction run as [|c run IH]; intros g Hg; [done|].
  cbn [all] in Hrun. apply andb_true_iff in Hrun as [<-%Ascii.eqb_eq Hrun].
  rewrite app_cons, split_sep.
  pose proof (split_nonempty nl (run +:+ rest)) as Hne'.
  destruct run as [|c' run'].
  - rewrite app_nil_l in *. rewrite Hg.
    destruct (split nl rest) as [|w ws]; [done|]. done.
  - specialize (IH Hrun ltac:(done) f Hf).
    destruct (split nl (String c' run' +:+ rest)) as [|w ws]; [done|].
    rewrite Hg.
    change (join (String nl "") ("" :: (f <$> (w :: ws))))
      with ("" +:+ String nl "" +:+ join (String nl "") (f w :: (f <$> ws))).
    by rewrite IH.
Qed.

Lemma reindent_text_newlines b ind run rest :
  all (Ascii.eqb nl) run = true → run ≠ "" →
  reindent_text b ind (run +:+ rest) = run +:+ reindent_text true ind rest.
Proof.
  intros Hrun Hne. unfold reindent_text.
  rewrite (reindent_lines_true ind (split nl rest)).
  rewrite <-(join_split_newlines
               (λ l, if b then strip_indent ind l else l)
               (strip_indent ind) run rest Hrun Hne);
    [done| |apply strip_indent_empty].
  destruct b; [apply strip_indent_empty|done].
Qed.

Lemma span_app p s : (span p s).1 +:+ (span p s).2 = s.
Proof.
  induction s as [|c s IH]; [done|]. cbn [span].
  destruct (p c); [|done]. destruct (span p s) as [a b]. cbn in *.
  by rewrite app_cons, IH.
Qed.

Lemma match_newlines_Some value nls rest :
  match_newlines value = Some (nls, rest) →
  value = nls +:+ rest ∧ all (Ascii.eqb nl) nls = true ∧ nls ≠ "".
Proof.
  unfold match_newlines.
  pose proof (span_app (Ascii.eqb nl) value) as Happ.
  pose proof (WriteFacts.span_all (Ascii.eqb nl) value) as Hall.
  destruct (span (Ascii.eqb nl) value) as [run r]. cbn [fst snd] in *.
  destruct (String.eqb_spec run "") as [|Hne]; [done|].
  by intros [= <- <-].
Qed.

(** *** Where a text ends *)

Lemma split_more {A} (b1 b2 : A) v :
  match split nl v with [_] => b1 | _ => b2 end
  = if occurs nl v then b2 else b1.
Proof.
  induction v as [|c v IH]; [done|]. cbn [split occurs].
  pose proof (split_nonempty nl v) as Hne.
  destruct (Ascii.eqb c nl).
  - by destruct (split nl v).
  - destruct (split nl v) as [|w ws]; [done|]. by destruct ws.
Qed.

Lemma ends_with_newline_occurs v :
  ends_with_newline v = true → occurs nl v = true.
Proof.
  induction v as [|c v IH]; [done|]. cbn [ends_with_newline occurs].
  destruct v as [|c' v]; [by intros ->|].
  intros H. rewrite (IH H). apply orb_true_r.
Qed.

Lemma split_last_empty v :
  String.eqb (List.last (split nl v) "") ""
  = String.eqb v "" || ends_with_newline v.
Proof.
  induction v as [|c v IH]; [done|]. cbn [split].
  pose proof (split_nonempty nl v) as Hne.
  pose proof (join_split nl v) as Hjoin.
  destruct (Ascii.eqb_spec c nl) as [->|Hc].
  - destruct (split nl v) as [|w ws] eqn:Hv; [done|].
    change (List.last ("" :: w :: ws) "") with (List.last (w :: ws) "").
    rewrite IH. cbn [String.eqb orb ends_with_newline].
    by destruct v.
  - destruct (split nl v) as [|w ws] eqn:Hv; [done|].
    destruct ws as [|w' ws].
    + cbn [join] in Hjoin. subst w. cbn [List.last] in *.
      cbn [String.eqb orb ends_with_newline].
      destruct v as [|c' v]; [symmetry; by apply Ascii.eqb_neq|].
      cbn [String.eqb orb] in IH. done.
    + change (List.last (String c w :: w' :: ws) "")
        with (List.last (w :: w' :: ws) "").
      rewrite IH. cbn [String.eqb orb ends_with_newline].
      destruct v as [|c' v]; [done|]. done.
Qed.

Lemma ends_with_newline_app s t :
  ends_with_newline (s +:+ t)
  = if String.eqb t "" then ends_with_newline s else ends_with_newline t.
Proof.
  induction s as [|c s IH].
  - rewrite app_nil_l. by destruct t.
  - rewrite app_cons. cbn [ends_with_newline].
    destruct (s +:+ t) as [|c' u] eqn:Hu.
    + destruct s; [|done]. rewrite app_nil_l in Hu. by subst.
    + rewrite IH. destruct s as [|c'' s]; [|done].
      rewrite app_nil_l in Hu. subst t. done.
Qed.

Lemma ends_with_newline_hspace ind :
  all hspace ind = true → ends_with_newline ind = false.
Proof.
  intros Hind%hspace_occurs_nl.
  destruct (ends_with_newline ind) eqn:H; [|done].
  apply ends_with_newline_occurs in H. congruence.
Qed.

Lemma ends_with_newline_strip ind v :
  all hspace ind = true →
  ends_with_newline (strip_indent ind v) = ends_with_newline v.
Proof.
  intros Hind.
  destruct (strip_indent_cases ind v) as [(v' & -> & ->)|[_ ->]]; [|done].
  rewrite ends_with_newline_app.
  destruct (String.eqb_spec v' "") as [->|]; [|done].
  by rewrite (ends_with_newline_hspace ind).
Qed.

Lemma ends_with_newline_run run :
  all (Ascii.eqb nl) run = true → run ≠ "" → ends_with_newline run = true.
Proof.
  induction run as [|c run IH]; [done|]. cbn [all].
  intros [<-%Ascii.eqb_eq Hrun]%andb_true_iff _. cbn [ends_with_newline].
  destruct run; [done|]. by apply IH.
Qed.

End ReindentFacts.

Module ReindentLoop.
Import Token Py PyFacts LineFacts ReindentFacts.
Import CilkBookFormatter.

Section tex.
Context (ST : gmap ttype string) (self : formatter).

(** The text of the plain loop when lines are unindented. *)
Lemma write_plain_reindent spl st :
  reindent self = true → spl ≠ [] →
  (write_plain self spl st).2
  = join (String nl "")
      (reindent_lines (newline st) (initialindent st) spl).
Proof.
  intros Hre. revert st.
  induction spl as [|line [|line' spl] IH]; intros st Hne; [done|..].
  - cbn [write_plain join reindent_lines fmap list_fmap]. rewrite Hre.
    cbn [andb].
    destruct (String.eqb_spec line "") as [->|]; [|done]. cbn [snd].
    destruct (newline st); by rewrite ?strip_indent_empty.
  - rewrite TexFacts.write_plain_more, Hre. cbn [andb].
    specialize (IH (set_wrotelines true (set_newline true st))).
    destruct (write_plain self (line' :: spl) _) as [st' out'].
    cbn [snd] in *. rewrite IH by done.
    change (newline (set_wrotelines true (set_newline true st))) with true.
    change (initialindent (set_wrotelines true (set_newline true st)))
      with (initialindent st).
    change (reindent_lines (newline st) (initialindent st)
              (line :: line' :: spl))
      with ((if newline st then strip_indent (initialindent st) line
             else line)
              :: reindent_lines true (initialindent st) (line' :: spl)).
    set (ls := reindent_lines true (initialindent st) (line' :: spl)).
    assert (ls ≠ []) as Hls by done.
    destruct ls as [|l1 ls']; [done|].
    change (join (String nl "") (?x :: l1 :: ls'))
      with (x +:+ String nl "" +:+ join (String nl "") (l1 :: ls')).
    destruct (String.eqb_spec line "") as [->|].
    + destruct (newline st); by rewrite ?strip_indent_empty, !app_assoc.
    + by rewrite !app_assoc.
Qed.

(** The flag after the plain loop: set when the last piece is empty and
    either there was a piece before it or the flag was set. *)
Lemma write_plain_newline spl st :
  spl ≠ [] →
  newline (write_plain self spl st).1
  = if String.eqb (List.last spl "") ""
    then match spl with [_] => newline st | _ => true end
    else false.
Proof.
  revert st.
  induction spl as [|line [|line' spl] IH]; intros st Hne; [done|..].
  - cbn [write_plain List.last].
    by destruct (String.eqb_spec line "") as [->|].
  - rewrite TexFacts.write_plain_more.
    specialize (IH (set_wrotelines true (set_newline true st))).
    destruct (write_plain self (line' :: spl) _) as [st' out'].
    cbn [fst] in *. rewrite IH by done.
    change (List.last (line :: line' :: spl) "")
      with (List.last (line' :: spl) "").
    by destruct spl.
Qed.

Lemma write_styled_newline sv spl st :
  spl ≠ [] →
  newline (write_styled self sv spl st).1
  = match spl with [_] => newline st | _ => true end.
Proof.
  revert st.
  induction spl as [|line [|line' spl] IH]; intros st Hne; [done|..].
  - cbn [write_styled]. by destruct (String.eqb line "").
  - rewrite TexFacts.write_styled_more.
    specialize (IH (set_wrotelines true (set_newline true st))).
    destruct (write_styled self sv (line' :: spl) _) as [st' out'].
    cbn [fst] in *. rewrite IH by done. by destruct spl.
Qed.

End tex.
End ReindentLoop.

(** X23. With [reindent] set, what the LaTeX formatter writes for a shown
    [Text] token without style class, once the baseline has been
    captured: the escaped form of the value with the baseline taken off
    the start of each line that begins with it, off the first line only
    when the token starts a line.  Afterwards the flag [newline] is set
    exactly when the value ends in a newline, and the baseline is the
    same. *)
Theorem text_token_is_reindented
    (STANDARD_TYPES : gmap Token.ttype string)
    (self : CilkBookFormatter.formatter) (st : CilkBookFormatter.state)
    (value : string)
    (Hcp : Py.all Py.isletter (CilkBookFormatter.commandprefix self) = true)
    (Hre : CilkBookFormatter.reindent self = true)
    (Hshown : CilkBookFormatter.skiptoken st = false)
    (Hfound : CilkBookFormatter.find_next_indent st = false)
    (Hind : Py.all CilkBookFormatter.hspace
              (CilkBookFormatter.initialindent st) = true)
    (Hsv : CilkBookFormatter.styleval STANDARD_TYPES self Token.Text = "") :
  let r := CilkBookFormatter.step STANDARD_TYPES self st (Token.Text, value) in
  r.2 = escape_tex
          (reindent_text (CilkBookFormatter.newline st)
             (CilkBookFormatter.initialindent st) value)
          (CilkBookFormatter.commandprefix self)
  ∧ CilkBookFormatter.newline r.1 = ends_with_newline value
  ∧ CilkBookFormatter.initialindent r.1 = CilkBookFormatter.initialindent st.
Proof.
  intros r. subst r. unfold CilkBookFormatter.step.
  change (Token.contains Token.Comment_Invisible_End Token.Text) with false.
  change (Token.contains Token.Comment_Invisible_Begin Token.Text) with false.
  change (Token.contains Token.Comment Token.Text) with false.
  change (Token.contains Token.Comment_PureTeX Token.Text) with false.
  rewrite Hshown, Hre, Hsv. cbn [andb negb String.eqb].
  set (ind := CilkBookFormatter.initialindent st) in *.
  set (cp := CilkBookFormatter.commandprefix self) in *.
  pose proof (ReindentFacts.hspace_occurs_nl ind Hind) as Hnl.
  unfold CilkBookFormatter.reindent_head. rewrite Hfound.
  change (Token.is_ Token.Text Token.Text) with true.
  unfold CilkBookFormatter.escape. fold cp.
  destruct (CilkBookFormatter.match_newlines value) as [[nls rest]|] eqn:Hm.
  - apply ReindentFacts.match_newlines_Some in Hm as (-> & Hnls & Hne).
    pose proof (ReindentLoop.write_plain_reindent self
                  (Py.split Py.nl (escape_tex rest cp))
                  (CilkBookFormatter.set_newline true st) Hre
                  (LineFacts.split_nonempty _ _)) as Hout.
    pose proof (ReindentLoop.write_plain_newline self
                  (Py.split Py.nl (escape_tex rest cp))
                  (CilkBookFormatter.set_newline true st)
                  (LineFacts.split_nonempty _ _)) as Hflag.
    pose proof (TexFacts.write_plain_baseline self
                  (Py.split Py.nl (escape_tex rest cp))
                  (CilkBookFormatter.set_newline true st)) as (_ & _ & Hbase).
    destruct (CilkBookFormatter.write_plain _ _ _) as [st' out].
    cbn [fst snd] in *. split; [|split; [|done]].
    + rewrite Hout.
      change (CilkBookFormatter.newline
                (CilkBookFormatter.set_newline true st)) with true.
      change (CilkBookFormatter.initialindent
                (CilkBookFormatter.set_newline true st)) with ind.
      fold (reindent_text true ind (escape_tex rest cp)).
      rewrite ReindentFacts.reindent_text_escape by done.
      rewrite ReindentFacts.reindent_text_newlines by done.
      rewrite EscapeFacts.escape_tex_app.
      by rewrite (ReindentFacts.escape_newlines cp Hcp nls Hnls).
    + rewrite Hflag.
      change (CilkBookFormatter.newline
                (CilkBookFormatter.set_newline true st)) with true.
      rewrite EscapeMore.escape_tex_split by done.
      rewrite ReindentFacts.ends_with_newline_app.
      pose proof (ReindentFacts.split_last_empty rest) as Hlast.
      pose proof (LineFacts.split_nonempty Py.nl rest) as Hsplit.
      rewrite (ReindentFacts.ends_with_newline_run nls) by done.
      destruct (Py.split Py.nl rest) as [|w ws] using rev_ind; [done|].
      rewrite fmap_app, !last_last in *. cbn [fmap list_fmap].
      rewrite last_last, ReindentFacts.escape_empty, Hlast by done.
      destruct (String.eqb rest ""); cbn [orb].
      * by destruct (_ <$> ws) as [|? [|? ?]].
      * destruct (ends_with_newline rest); [|done].
        by destruct (_ <$> ws) as [|? [|? ?]].
  - fold ind.
    assert (∃ b value1,
              (if CilkBookFormatter.newline st
               then (CilkBookFormatter.set_newline false st,
                     CilkBookFormatter.strip_indent ind value, "")
               else (st, value, ""))
              = (CilkBookFormatter.set_newline false
                   (CilkBookFormatter.set_newline b st), value1, "")
              ∧ reindent_text false ind value1
                = reindent_text (CilkBookFormatter.newline st) ind value
              ∧ ends_with_newline value1 = ends_with_newline value)
      as (b & value1 & -> & Htext & Hends).
    { destruct (CilkBookFormatter.newline st) eqn:Hn.
      - exists true, (CilkBookFormatter.strip_indent ind value).
        split; [done|]. split.
        + by apply ReindentFacts.reindent_text_strip.
        + by apply ReindentFacts.ends_with_newline_strip.
      - exists false, value. split; [|done]. by destruct st; cbn in *; subst. }
    set (st1 := CilkBookFormatter.set_newline false _).
    pose proof (ReindentLoop.write_plain_reindent self
                  (Py.split Py.nl (escape_tex value1 cp)) st1 Hre
                  (LineFacts.split_nonempty _ _)) as Hout.
    pose proof (ReindentLoop.write_plain_newline self
                  (Py.split Py.nl (escape_tex value1 cp)) st1
                  (LineFacts.split_nonempty _ _)) as Hflag.
    pose proof (TexFacts.write_plain_baseline self
                  (Py.split Py.nl (escape_tex value1 cp)) st1)
      as (_ & _ & Hbase).
    destruct (CilkBookFormatter.write_plain _ _ _) as [st' out].
    cbn [fst snd] in *. split; [|split; [|done]].
    + rewrite PyFacts.app_nil_l, Hout.
      change (CilkBookFormatter.newline st1) with false.
      change (CilkBookFormatter.initialindent st1) with ind.
      fold (reindent_text false ind (escape_tex value1 cp)).
      by rewrite ReindentFacts.reindent_text_escape, Htext.
    + rewrite Hflag, <-Hends.
      change (CilkBookFormatter.newline st1) with false.
      rewrite EscapeMore.escape_tex_split by done.
      pose proof (ReindentFacts.split_last_empty value1) as Hlast.
      pose proof (ReindentFacts.split_more false true value1) as Hmore.
      pose proof (LineFacts.split_nonempty Py.nl value1) as Hsplit.
      pose proof (ReindentFacts.ends_with_newline_occurs value1) as Hocc.
      destruct (Py.split Py.nl value1) as [|w ws] using rev_ind; [done|].
      rewrite fmap_app, !last_last in *. cbn [fmap list_fmap].
      rewrite last_last, ReindentFacts.escape_empty, Hlast by done.
      destruct (String.eqb_spec value1 "") as [->|Hv1]; cbn [orb].
      * by destruct ws as [|? [|]].
      * destruct (ends_with_newline value1); [|done].
        rewrite Hocc in Hmore by done.
        by destruct ws as [|? [|? ?]].
Qed.

Lemma text_token_is_reindented_witness :
  let st :=
    {| CilkBookFormatter.skiptoken := false;
       CilkBookFormatter.initialindent := "  ";
       CilkBookFormatter.find_next_indent := false;
       CilkBookFormatter.newline := true;
       CilkBookFormatter.wrotelines := true |} in
  let value := "  a_b" +:+ Sample.NL +:+ "    c" +:+ Sample.NL in
  let r := CilkBookFormatter.step Sample.STANDARD_TYPES Sample.tex_reindent
             st (Token.Text, value) in
  r.2 = escape_tex (reindent_text true "  " value) "PY"
  ∧ CilkBookFormatter.newline r.1 = ends_with_newline value
  ∧ CilkBookFormatter.initialindent r.1 = "  ".
Proof.
  intros st value.
  apply (text_token_is_reindented Sample.STANDARD_TYPES Sample.tex_reindent
           st value); reflexivity.
Defined.

(** X24. With [reindent] set, a shown token with a style class that is
    neither [Text] nor a comment is written as without [reindent]: each
    line of the value escaped and, unless empty, in a call of its own, no
    line losing the baseline.  Afterwards the flag [newline] is set
    exactly when the value holds a newline, wherever it is: also when the
    token ends in the middle of a line. *)
Theorem styled_token_is_not_reindented
    (STANDARD_TYPES : gmap Token.ttype string)
    (self : CilkBookFormatter.formatter) (st : CilkBookFormatter.state)
    (t : Token.ttype) (value : string)
    (Hcp : Py.all Py.isletter (CilkBookFormatter.commandprefix self) = true)
    (Hre : CilkBookFormatter.reindent self = true)
    (Hshown : CilkBookFormatter.skiptoken st = false)
    (Hfound : CilkBookFormatter.find_next_indent st = false)
    (Htext : Token.is_ t Token.Text = false)
    (Hcomment : Token.contains Token.Comment t = false)
    (Hsv : CilkBookFormatter.styleval STANDARD_TYPES self t ≠ "") :
  let escape line := escape_tex line (CilkBookFormatter.commandprefix self) in
  let sv := CilkBookFormatter.styleval STANDARD_TYPES self t in
  let r := CilkBookFormatter.step STANDARD_TYPES self st (t, value) in
  r.2 = Py.join Sample.NL
          ((λ line, if String.eqb line "" then ""
                    else CilkBookFormatter.styled self sv (escape line))
             <$> Py.split Py.nl value)
  ∧ CilkBookFormatter.newline r.1 = Py.occurs Py.nl value.
Proof.
  intros escape sv r. subst r. unfold Sample.NL.
  set (W := λ line, if String.eqb line "" then ""
                    else CilkBookFormatter.styled self sv (escape line)).
  assert (∀ T, T ∈t Token.Comment → Token.contains T t = false) as Hsub.
  { intros T HT. apply not_true_is_false. intros Ht.
    pose proof (TokenFacts.contains_trans _ _ _ HT Ht). congruence. }
  assert (∀ (st1 : CilkBookFormatter.state) value1,
            (CilkBookFormatter.write_styled self sv
               (Py.split Py.nl (escape value1)) st1).2
            = Py.join (String Py.nl "") (W <$> Py.split Py.nl value1))
    as Hwrite.
  { intros st1 value1.
    rewrite (WriteFacts.tex_write_styled_text self sv _ st1
               (LineFacts.split_nonempty _ _)).
    unfold escape. rewrite EscapeMore.escape_tex_split by done.
    rewrite <-list_fmap_compose. f_equal. apply list_fmap_ext.
    intros _ line _. unfold W, escape. cbn.
    by rewrite ReindentFacts.escape_empty. }
  assert (∀ (st1 : CilkBookFormatter.state) value1,
            CilkBookFormatter.newline
              (CilkBookFormatter.write_styled self sv
                 (Py.split Py.nl (escape value1)) st1).1
            = if Py.occurs Py.nl value1 then true
              else CilkBookFormatter.newline st1) as Hflag.
  { intros st1 value1.
    rewrite (ReindentLoop.write_styled_newline self sv _ st1
               (LineFacts.split_nonempty _ _)).
    unfold escape. rewrite EscapeMore.escape_tex_split by done.
    rewrite <-(ReindentFacts.split_more (CilkBookFormatter.newline st1)
                 true value1).
    by destruct (Py.split Py.nl value1) as [|? [|? ?]]. }
  unfold CilkBookFormatter.step.
  rewrite (Hsub Token.Comment_Invisible_End),
    (Hsub Token.Comment_Invisible_Begin), Hshown, Hre, Hcomment,
    (Hsub Token.Comment_PureTeX) by done.
  cbn [andb negb]. fold sv.
  apply String.eqb_neq in Hsv. fold sv in Hsv. rewrite Hsv.
  unfold CilkBookFormatter.reindent_head. rewrite Hfound, Htext.
  change (CilkBookFormatter.escape self) with escape.
  destruct (CilkBookFormatter.match_newlines value) as [[nls rest]|] eqn:Hm.
  - apply ReindentFacts.match_newlines_Some in Hm as (-> & Hnls & Hne).
    specialize (Hwrite (CilkBookFormatter.set_newline true st) rest).
    specialize (Hflag (CilkBookFormatter.set_newline true st) rest).
    destruct (CilkBookFormatter.write_styled _ _ _ _) as [st' out].
    cbn [fst snd] in *. split.
    + rewrite Hwrite.
      rewrite <-(ReindentFacts.join_split_newlines W W nls rest Hnls Hne)
        by done.
      by destruct (Py.split Py.nl (nls +:+ rest)).
    + rewrite Hflag, PyFacts.occurs_app.
      change (CilkBookFormatter.newline
                (CilkBookFormatter.set_newline true st)) with true.
      assert (Py.occurs Py.nl nls = true) as ->.
      { apply ReindentFacts.ends_with_newline_occurs.
        by apply ReindentFacts.ends_with_newline_run. }
      by destruct (Py.occurs Py.nl rest).
  - assert (∃ st1,
              (if CilkBookFormatter.newline st
               then (CilkBookFormatter.set_newline false st, value, "")
               else (st, value, "")) = (st1, value, "")
              ∧ CilkBookFormatter.newline st1 = false) as (st1 & -> & Hn).
    { destruct (CilkBookFormatter.newline st) eqn:Hn; by eauto. }
    specialize (Hwrite st1 value). specialize (Hflag st1 value).
    destruct (CilkBookFormatter.write_styled _ _ _ _) as [st' out].
    cbn [fst snd] in *. split.
    + by rewrite PyFacts.app_nil_l.
    + rewrite Hflag, Hn. by destruct (Py.occurs Py.nl value).
Qed.

Lemma styled_token_is_not_reindented_witness :
  let st :=
    {| CilkBookFormatter.skiptoken := false;
       CilkBookFormatter.initialindent := "  ";
       CilkBookFormatter.find_next_indent := false;
       CilkBookFormatter.newline := true;
       CilkBookFormatter.wrotelines := true |} in
  let value := "  a_b" +:+ Sample.NL +:+ "  c" in
  let escape line := escape_tex line "PY" in
  let sv := CilkBookFormatter.styleval Sample.STANDARD_TYPES
              Sample.tex_reindent Token.Name in
  let r := CilkBookFormatter.step Sample.STANDARD_TYPES Sample.tex_reindent
             st (Token.Name, value) in
  r.2 = Py.join Sample.NL
          ((λ line, if String.eqb line "" then ""
                    else CilkBookFormatter.styled Sample.tex_reindent sv
                           (escape line))
             <$> Py.split Py.nl value)
  ∧ CilkBookFormatter.newline r.1 = Py.occurs Py.nl value.
Proof.
  intros st value.
  apply (styled_token_is_not_reindented Sample.STANDARD_TYPES
           Sample.tex_reindent st Token.Name value); try reflexivity.
  by vm_compute.
Defined.

Module ReindentRtf.
Import Token Py PyFacts LineFacts ReindentFacts.
Import CHRtfFormatter.

Lemma match_newlines_decompose nls rest :
  all (Ascii.eqb nl) nls = true → startswith (String nl "") rest = false →
  match_newlines (nls +:+ rest)
  = if String.eqb nls "" then None else Some (nls, rest).
Proof.
  intros Hnls Hrest.
  unfold match_newlines, CilkBookFormatter.match_newlines.
  rewrite WriteFacts.span_decompose; [done..|].
  destruct rest as [|c s]; [done|]. cbn [startswith] in Hrest.
  rewrite andb_true_r in Hrest. by rewrite Hrest.
Qed.

Section rtf.
Context (self : formatter).

(** The loop over [spl], when lines are unindented, writes the escaped
    text of the unindented lines, and raises when escaping it raises. *)
Lemma write_lines_reindent spl st :
  reindent self = true → spl ≠ [] →
  match _escape_text self
          (join (String nl "")
             (reindent_lines (newline st) (initialindent st) spl)) with
  | Some out => ∃ st', write_lines self spl st = (Some st', out)
  | None => (write_lines self spl st).1 = None
  end.
Proof.
  intros Hre. revert st.
  induction spl as [|line [|line' spl] IH]; intros st Hne; [done|..].
  - cbn [write_lines join reindent_lines fmap list_fmap]. rewrite Hre.
    cbn [andb]. unfold strip_indent.
    destruct (String.eqb_spec line "") as [->|].
    { destruct (newline st); rewrite ?strip_indent_empty; by eexists. }
    destruct (_escape_text self _); [by eexists|done].
  - rewrite RtfFacts.write_lines_more, Hre. cbn [andb].
    specialize (IH (set_newline true st) ltac:(done)).
    change (newline (set_newline true st)) with true in IH.
    change (initialindent (set_newline true st)) with (initialindent st)
      in IH.
    change (reindent_lines (newline st) (initialindent st)
              (line :: line' :: spl))
      with ((if newline st
             then CilkBookFormatter.strip_indent (initialindent st) line
             else line)
              :: reindent_lines true (initialindent st) (line' :: spl)).
    set (ls := reindent_lines true (initialindent st) (line' :: spl)) in *.
    assert (ls ≠ []) as Hls by done.
    destruct ls as [|l1 ls']; [done|].
    change (join (String nl "") (?x :: l1 :: ls'))
      with (x +:+ String nl "" +:+ join (String nl "") (l1 :: ls')).
    rewrite !RtfEscape.escape_text_app, RtfEscape.escape_text_newline.
    unfold strip_indent.
    assert ((if String.eqb line "" then Some ""
             else _escape_text self
                    (if newline st
                     then CilkBookFormatter.strip_indent (initialindent st)
                            line
                     else line))
            = _escape_text self
                (if newline st
                 then CilkBookFormatter.strip_indent (initialindent st) line
                 else line)) as ->.
    { destruct (String.eqb_spec line "") as [->|]; [|done].
      destruct (newline st); by rewrite ?strip_indent_empty. }
    destruct (_escape_text self (if newline st then _ else _)) as [a|];
      [|done].
    cbn [mbind option_bind].
    destruct (_escape_text self (join (String nl "") (l1 :: ls')))
      as [d|]; cbn [mbind option_bind].
    + destruct IH as (st' & ->). exists st'. by rewrite !app_assoc.
    + by destruct (write_lines self (line' :: spl) _) as [r out'].
Qed.

Lemma write_lines_newline spl st st' :
  spl ≠ [] →
  (write_lines self spl st).1 = Some st' →
  newline st'
  = if String.eqb (List.last spl "") ""
    then match spl with [_] => newline st | _ => true end
    else false.
Proof.
  revert st.
  induction spl as [|line [|line' spl] IH]; intros st Hne; [done|..].
  - cbn [write_lines List.last].
    destruct (String.eqb_spec line "") as [->|]; [by intros [= <-]|].
    destruct (_escape_text self _); [|done]. by intros [= <-].
  - rewrite RtfFacts.write_lines_more.
    specialize (IH (set_newline true st)).
    destruct (if String.eqb line "" then _ else _); [|done].
    destruct (write_lines self (line' :: spl) _) as [r out'].
    cbn [fst] in *. intros Hr. rewrite IH by done.
    change (List.last (line :: line' :: spl) "")
      with (List.last (line' :: spl) "").
    by destruct spl.
Qed.

(** The flag after the loop over the lines of a text. *)
Lemma write_lines_ends value st st' :
  (write_lines self (split nl value) st).1 = Some st' →
  newline st'
  = if String.eqb value "" then newline st else ends_with_newline value.
Proof.
  intros Hst'.
  rewrite (write_lines_newline _ st) by (done || apply split_nonempty).
  pose proof (split_last_empty value) as Hlast.
  pose proof (split_more (newline st) true value) as Hmore.
  pose proof (ends_with_newline_occurs value) as Hocc.
  rewrite Hlast, Hmore.
  destruct (String.eqb_spec value "") as [->|Hv]; [done|]. cbn [orb].
  destruct (ends_with_newline value); [by rewrite Hocc|done].
Qed.

End rtf.
End ReindentRtf.

(** X25. With [reindent] set, what the RTF formatter writes for a shown
    token that is no comment, once the baseline has been captured and when
    the style lookups succeed.  The newlines that the value starts with
    are written first, each as [\par] and a newline, before the opening
    brace of the style; then, inside the braces when the style has control
    words, the escaped rest of the value with the baseline taken off the
    start of each line that begins with it, whatever the token's category;
    off the first line only when newlines came before it or when the token
    is [Text] and starts a line.  Afterwards the flag [newline] is set
    exactly when the value ends in a newline, and the baseline is kept.
    When [_escape_text] raises on that unindented rest, the iteration
    raises. *)
Theorem rtf_token_is_reindented
    (self : CHRtfFormatter.formatter) (color_mapping : gmap string nat)
    (st : CHRtfFormatter.state) (t : Token.ttype)
    (nls rest start : string)
    (Hre : CHRtfFormatter.reindent self = true)
    (Hshown : CHRtfFormatter.skiptoken st = false)
    (Hfound : CHRtfFormatter.find_next_indent st = false)
    (Hind : Py.all CilkBookFormatter.hspace
              (CHRtfFormatter.initialindent st) = true)
    (Hcomment : Token.contains Token.Comment t = false)
    (Hnls : Py.all (Ascii.eqb Py.nl) nls = true)
    (Hrest : Py.startswith Sample.NL rest = false)
    (Hstyle :
       CHRtfFormatter.style_for_token self
         (CHRtfFormatter.resolve self (length t) t)
       ≫= CHRtfFormatter.control_words color_mapping = Some start) :
  let at_line_start :=
    if String.eqb nls "" then
      CHRtfFormatter.newline st && Token.is_ t Token.Text
    else true in
  let unindented :=
    reindent_text at_line_start (CHRtfFormatter.initialindent st) rest in
  (∀ escaped,
     CHRtfFormatter._escape_text self unindented = Some escaped →
     ∃ st',
       CHRtfFormatter.step self color_mapping st (t, nls +:+ rest)
       = (Py.replace Py.nl ("\par" +:+ Sample.NL) nls
            +:+ (if String.eqb start "" then "" else "{" +:+ start +:+ " ")
            +:+ escaped
            +:+ (if String.eqb start "" then "" else "}"),
          Some st')
       ∧ CHRtfFormatter.skiptoken st' = false
       ∧ CHRtfFormatter.find_next_indent st' = false
       ∧ CHRtfFormatter.newline st' = ends_with_newline (nls +:+ rest)
       ∧ CHRtfFormatter.initialindent st' = CHRtfFormatter.initialindent st)
  ∧ (CHRtfFormatter._escape_text self unindented = None →
     (CHRtfFormatter.step self color_mapping st (t, nls +:+ rest)).2 = None).
Proof.
  intros at_line_start unindented.
  assert (∀ T, T ∈t Token.Comment → Token.contains T t = false) as Hsub.
  { intros T HT. apply not_true_is_false. intros Ht.
    pose proof (TokenFacts.contains_trans _ _ _ HT Ht). congruence. }
  subst unindented.
  set (ind := CHRtfFormatter.initialindent st) in *.
  pose proof (ReindentFacts.hspace_occurs_nl ind Hind) as Hnl.
  unfold CHRtfFormatter.step.
  rewrite (Hsub Token.Comment_Invisible_End),
    (Hsub Token.Comment_Invisible_Begin), Hshown, Hre,
    (Hsub Token.Comment_Invisible), (Hsub Token.Comment_PureTeX) by done.
  unfold CHRtfFormatter.reindent_head. rewrite Hfound.
  rewrite ReindentRtf.match_newlines_decompose by done. fold ind.
  assert (∃ st1 value1,
            match (if String.eqb nls "" then None else Some (nls, rest)) with
            | Some (nls0, rest0) =>
                (CHRtfFormatter.set_newline true st, rest0,
                 CHRtfFormatter._escape_text self nls0)
            | None =>
                if CHRtfFormatter.newline st
                then (CHRtfFormatter.set_newline false st,
                      if Token.is_ t Token.Text
                      then CHRtfFormatter.strip_indent ind (nls +:+ rest)
                      else nls +:+ rest, Some "")
                else (st, nls +:+ rest, Some "")
            end = (st1, value1,
                   Some (Py.replace Py.nl ("\par" +:+ Sample.NL) nls))
            ∧ CHRtfFormatter.skiptoken st1 = false
            ∧ CHRtfFormatter.find_next_indent st1 = false
            ∧ CHRtfFormatter.initialindent st1 = ind
            ∧ reindent_text (CHRtfFormatter.newline st1) ind value1
              = reindent_text at_line_start ind rest
            ∧ (if String.eqb value1 "" then CHRtfFormatter.newline st1
               else ends_with_newline value1)
              = ends_with_newline (nls +:+ rest))
    as (st1 & value1 & -> & Hskip1 & Hfound1 & Hind1 & Htext & Hends).
  { subst at_line_start.
    destruct (String.eqb_spec nls "") as [->|Hne].
    - rewrite PyFacts.app_nil_l.
      destruct (CHRtfFormatter.newline st) eqn:Hn; cbn [andb].
      + destruct (Token.is_ t Token.Text).
        * eexists _, _. split; [done|]. do 3 (split; [done|]).
          change (CHRtfFormatter.newline
                    (CHRtfFormatter.set_newline false st)) with false.
          split; [by apply ReindentFacts.reindent_text_strip|].
          rewrite ReindentFacts.ends_with_newline_strip by done.
          destruct (String.eqb_spec (CHRtfFormatter.strip_indent ind rest) "")
            as [He|He]; [|done].
          pose proof (ReindentFacts.ends_with_newline_strip ind rest Hind)
            as Hs. unfold CHRtfFormatter.strip_indent in He.
          by rewrite He in Hs.
        * eexists _, _. split; [done|]. do 3 (split; [done|]).
          change (CHRtfFormatter.newline
                    (CHRtfFormatter.set_newline false st)) with false.
          split; [done|]. by destruct rest.
      + eexists _, _. split; [done|]. do 3 (split; [done|]). rewrite Hn.
        split; [done|]. by destruct rest.
    - eexists _, _. split.
      { by rewrite (RtfEscape.escape_text_newline_run self nls Hnls). }
      do 3 (split; [done|]).
      change (CHRtfFormatter.newline
                (CHRtfFormatter.set_newline true st)) with true.
      split; [done|].
      rewrite ReindentFacts.ends_with_newline_app.
      rewrite (ReindentFacts.ends_with_newline_run nls) by done.
      by destruct (String.eqb rest ""). }
  rewrite Hstyle.
  pose proof (ReindentRtf.write_lines_reindent self
                (Py.split Py.nl value1) st1 Hre
                (LineFacts.split_nonempty _ _)) as Hout.
  rewrite Hind1 in Hout.
  fold (reindent_text (CHRtfFormatter.newline st1) ind value1) in Hout.
  rewrite Htext in Hout.
  pose proof (ReindentRtf.write_lines_ends self value1 st1) as Hflag.
  pose proof (RtfFacts.write_lines_baseline self
                (Py.split Py.nl value1) st1) as Hbase.
  split.
  - intros escaped He. rewrite He in Hout. destruct Hout as (st' & Hw).
    rewrite Hw in Hflag, Hbase |- *.
    destruct (Hbase st' eq_refl) as (Hs & Hf & Hi).
    exists st'. split; [done|]. split; [congruence|].
    split; [congruence|]. split; [|congruence].
    by rewrite (Hflag st' eq_refl), Hends.
  - intros He. rewrite He in Hout.
    destruct (CHRtfFormatter.write_lines _ _ _) as [r body].
    cbn [fst] in Hout. by subst r.
Qed.

Lemma rtf_token_is_reindented_witness :
  let st :=
    {| CHRtfFormatter.skiptoken := false;
       CHRtfFormatter.initialindent := "  ";
       CHRtfFormatter.find_next_indent := false;
       CHRtfFormatter.newline := false |} in
  let nls := Sample.NL in
  let rest := "  a{" +:+ Sample.NL +:+ "    b" in
  ∃ st',
    CHRtfFormatter.step Sample.rtf_reindent Sample.color_mapping st
      (Token.Keyword, nls +:+ rest)
    = (("\par" +:+ Sample.NL)
         +:+ ("{" +:+ "\cf1\b" +:+ " ")
         +:+ ("a\{\par" +:+ Sample.NL +:+ "  b")
         +:+ "}",
       Some st')
    ∧ CHRtfFormatter.skiptoken st' = false
    ∧ CHRtfFormatter.find_next_indent st' = false
    ∧ CHRtfFormatter.newline st' = ends_with_newline (nls +:+ rest)
    ∧ CHRtfFormatter.initialindent st' = "  ".
Proof.
  intros st nls rest.
  destruct (rtf_token_is_reindented Sample.rtf_reindent Sample.color_mapping
              st Token.Keyword nls rest "\cf1\b") as [H _];
    [reflexivity..|].
  apply (H ("a\{\par" +:+ Sample.NL +:+ "  b")). reflexivity.
Defined.

(** ** Capturing the baseline *)

Module CaptureFacts.
Import Token Py.

Section tex.
Import CilkBookFormatter.
Context (ST : gmap ttype string) (self : formatter).

Lemma tex_reindent_head_capture st t value :
  find_next_indent st = true →
  let st' := (reindent_head st t value).1.1 in
  find_next_indent st' = false
  ∧ initialindent st'
    = if is_ t Text && negb (String.eqb (span hspace value).1 "")
      then (span hspace value).1 else initialindent st.
Proof.
  intros Hst. unfold reindent_head, match_indent. rewrite Hst.
  destruct (span hspace value) as [run rest]. cbn [fst].
  destruct (is_ t Text); cbn [andb];
    [destruct (String.eqb run ""); cbn [negb]|];
    by destruct (match_newlines _) as [[nls rest']|].
Qed.

Lemma tex_step_capture st t value :
  reindent self = true → skiptoken st = false →
  find_next_indent st = true →
  contains Comment_Invisible_End t = false →
  contains Comment_Invisible_Begin t = false →
  let st' := (step ST self st (t, value)).1 in
  find_next_indent st' = false
  ∧ initialindent st'
    = if is_ t Text && negb (String.eqb (span hspace value).1 "")
      then (span hspace value).1 else initialindent st.
Proof.
  intros Hre Hshown Hst He Hb. unfold step. rewrite He, Hb, Hshown, Hre.
  pose proof (tex_reindent_head_capture st t value Hst) as [Hf Hi].
  destruct (reindent_head st t value) as [[st1 v1] h1]. cbn [fst] in Hf, Hi.
  destruct (_ && contains Comment_Invisible t); [done|].
  match goal with
  | |- context [write_plain self ?spl st1] =>
      pose proof (TexFacts.write_plain_baseline self spl st1) as (_ & ? & ?);
      destruct (write_plain self spl st1)
  end.
  match goal with
  | |- context [write_styled self ?sv ?spl st1] =>
      pose proof (TexFacts.write_styled_baseline self sv spl st1)
        as (_ & ? & ?);
      destruct (write_styled self sv spl st1)
  end.
  cbn [fst] in *.
  destruct (String.eqb (styleval ST self t) ""); cbn [fst]; split; congruence.
Qed.

End tex.

Section rtf.
Import CHRtfFormatter.
Context (self : formatter) (cm : gmap string nat).

Lemma rtf_reindent_head_capture st t value :
  find_next_indent st = true →
  let st' := (reindent_head self st t value).1.1 in
  find_next_indent st' = false
  ∧ initialindent st'
    = if is_ t Text
         && negb (String.eqb (span CilkBookFormatter.hspace value).1 "")
      then (span CilkBookFormatter.hspace value).1 else initialindent st.
Proof.
  intros Hst.
  unfold reindent_head, match_indent, CilkBookFormatter.match_indent.
  rewrite Hst.
  destruct (span CilkBookFormatter.hspace value) as [run rest]. cbn [fst].
  destruct (is_ t Text); cbn [andb];
    [destruct (String.eqb run ""); cbn [negb]|];
    by destruct (match_newlines _) as [[nls rest']|].
Qed.

Lemma rtf_step_capture st t value st' :
  reindent self = true → skiptoken st = false →
  find_next_indent st = true →
  contains Comment_Invisible_End t = false →
  contains Comment_Invisible_Begin t = false →
  (step self cm st (t, value)).2 = Some st' →
  find_next_indent st' = false
  ∧ initialindent st'
    = if is_ t Text
         && negb (String.eqb (span CilkBookFormatter.hspace value).1 "")
      then (span CilkBookFormatter.hspace value).1 else initialindent st.
Proof.
  intros Hre Hshown Hst He Hb. unfold step. rewrite He, Hb, Hshown, Hre.
  pose proof (rtf_reindent_head_capture st t value Hst) as [Hf Hi].
  destruct (reindent_head self st t value) as [[st1 v1] h1].
  cbn [fst] in Hf, Hi. destruct h1 as [head|]; [|done].
  destruct (contains Comment_Invisible t); [by intros [= <-]|].
  assert (∃ st2 v2,
             (if contains Comment_PureTeX t
              then (set_newline true st1, Py.only Py.nl v1)
              else (st1, v1)) = (st2, v2)
             ∧ find_next_indent st2 = find_next_indent st1
             ∧ initialindent st2 = initialindent st1)
    as (st2 & v2 & -> & Hf2 & Hi2).
  { destruct (contains Comment_PureTeX t); by eauto 10. }
  destruct (_ ≫= _); [|done].
  pose proof (RtfFacts.write_lines_baseline self (Py.split Py.nl v2) st2)
    as Hw.
  destruct (write_lines self _ st2) as [[st3|] body]; [|done].
  destruct (Hw st3 eq_refl) as (_ & ? & ?). cbn [fst snd] in *.
  intros [= <-]. split; congruence.
Qed.

End rtf.
End CaptureFacts.

(** X26. With [reindent] set, the first shown token that is no marker
    decides the baseline, in both formatters: when it is a [Text] token
    that starts with spaces, tabs, form feeds or vertical tabs, the
    baseline becomes the longest such run; otherwise, also when it is a
    [Text] token that starts with a newline, the baseline stays as it
    was, empty from the initial state.  In either case [find_next_indent]
    is unset, so no later token is looked at. *)
Theorem first_token_decides_baseline
    (STANDARD_TYPES : gmap Token.ttype string)
    (tex : CilkBookFormatter.formatter) (st_tex : CilkBookFormatter.state)
    (rtf : CHRtfFormatter.formatter) (color_mapping : gmap string nat)
    (st_rtf : CHRtfFormatter.state) (t : Token.ttype) (value : string)
    (Hre_tex : CilkBookFormatter.reindent tex = true)
    (Hre_rtf : CHRtfFormatter.reindent rtf = true)
    (Hshown_tex : CilkBookFormatter.skiptoken st_tex = false)
    (Hshown_rtf : CHRtfFormatter.skiptoken st_rtf = false)
    (Hfind_tex : CilkBookFormatter.find_next_indent st_tex = true)
    (Hfind_rtf : CHRtfFormatter.find_next_indent st_rtf = true)
    (Hend : Token.contains Token.Comment_Invisible_End t = false)
    (Hbegin : Token.contains Token.Comment_Invisible_Begin t = false) :
  let run := (Py.span CilkBookFormatter.hspace value).1 in
  let captured (old : string) :=
    if Token.is_ t Token.Text && negb (String.eqb run "") then run else old in
  (let st' := (CilkBookFormatter.step STANDARD_TYPES tex st_tex
                 (t, value)).1 in
   CilkBookFormatter.find_next_indent st' = false
   ∧ CilkBookFormatter.initialindent st'
     = captured (CilkBookFormatter.initialindent st_tex))
  ∧ ∀ st',
      (CHRtfFormatter.step rtf color_mapping st_rtf (t, value)).2 = Some st' →
      CHRtfFormatter.find_next_indent st' = false
      ∧ CHRtfFormatter.initialindent st'
        = captured (CHRtfFormatter.initialindent st_rtf).
Proof.
  intros run captured. split.
  - by apply CaptureFacts.tex_step_capture.
  - intros st'. by apply CaptureFacts.rtf_step_capture.
Qed.

Lemma first_token_decides_baseline_witness :
  let value := "    int" in
  let run := (Py.span CilkBookFormatter.hspace value).1 in
  let captured (old : string) :=
    if Token.is_ Token.Text Token.Text && negb (String.eqb run "")
    then run else old in
  (let st' := (CilkBookFormatter.step Sample.STANDARD_TYPES
                 Sample.tex_reindent
                 (CilkBookFormatter.initial Sample.tex_reindent)
                 (Token.Text, value)).1 in
   CilkBookFormatter.find_next_indent st' = false
   ∧ CilkBookFormatter.initialindent st' = captured "")
  ∧ ∀ st',
      (CHRtfFormatter.step Sample.rtf_reindent Sample.color_mapping
         (CHRtfFormatter.initial Sample.rtf_reindent) (Token.Text, value)).2
      = Some st' →
      CHRtfFormatter.find_next_indent st' = false
      ∧ CHRtfFormatter.initialindent st' = captured "".
Proof.
  intros value.
  apply (first_token_decides_baseline Sample.STANDARD_TYPES
           Sample.tex_reindent
           (CilkBookFormatter.initial Sample.tex_reindent)
           Sample.rtf_reindent Sample.color_mapping
           (CHRtfFormatter.initial Sample.rtf_reindent) Token.Text value);
    reflexivity.
Defined.
